(** * VoxNovel web front-end: the upload handler and the background job runner

    A shallow embedding of [web_server.py]: the module-level job state
    ([current_job], [job_status]), the upload route [upload_file], and the
    worker [process_book_job], together with the Python and werkzeug string
    functions they call.  Worker threads are modelled as small-step machines
    over the shared state, so that request handlers and several workers can
    be interleaved. *)

From Stdlib Require Import ZArith Ascii String DecimalString Lia.
From stdpp Require Import base decidable option list sorting gmap sets strings.

Local Open Scope string_scope.
Local Open Scope list_scope.
Local Open Scope Z_scope.

(** ** Python strings

    A [str] is the list of its UTF-8 bytes.  All separators and character
    classes the server tests for are ASCII, and an ASCII byte never occurs
    inside a multi-byte UTF-8 sequence, so the byte-wise functions below
    agree with the code-point-wise Python ones on every test the server
    makes. *)

Abbreviation str := (list ascii).
Coercion list_ascii_of_string : string >-> list.

Module Py.

Definition code (c : ascii) : N := N_of_ascii c.

Definition in_range (lo hi : N) (c : ascii) : bool :=
  ((lo <=? code c) && (code c <=? hi))%N.

Definition is_upper (c : ascii) : bool := in_range 65 90 c.
Definition is_lower (c : ascii) : bool := in_range 97 122 c.
Definition is_digit (c : ascii) : bool := in_range 48 57 c.
Definition is_alnum (c : ascii) : bool := is_upper c || is_lower c || is_digit c.

(** [str.isspace] on the ASCII range: TAB, LF, VT, FF, CR, FS, GS, RS, US
    and SPACE. *)
Definition is_space (c : ascii) : bool :=
  in_range 9 13 c || in_range 28 32 c.

(** [c.lower()] for one character.  A non-ASCII letter is left alone; the
    server only compares lowered text with ASCII literals that contain no
    'k', the one ASCII letter a non-ASCII code point lowers to. *)
Definition lower_char (c : ascii) : ascii :=
  if is_upper c then ascii_of_N (code c + 32) else c.

(** [s.lower()] *)
Definition lower (s : str) : str := lower_char <$> s.

(** [c in s] *)
Definition contains (c : ascii) (s : str) : bool := bool_decide (c ∈ s).

(** The split of [s] at the last occurrence of [sep], if there is one. *)
Fixpoint rsplit_once (sep : ascii) (s : str) : option (str * str) :=
  match s with
  | [] => None
  | c :: s' =>
      match rsplit_once sep s' with
      | Some (a, b) => Some (c :: a, b)
      | None => if decide (c = sep) then Some ([], s') else None
      end
  end.

(** [s.rsplit(sep, 1)] *)
Definition rsplit1 (sep : ascii) (s : str) : list str :=
  match rsplit_once sep s with
  | Some (a, b) => [a; b]
  | None => [s]
  end.

(** [s.rfind(sep)]: the highest index of [sep] in [s], or -1. *)
Definition rfind (sep : ascii) (s : str) : Z :=
  match rsplit_once sep s with
  | Some (a, _) => Z.of_nat (length a)
  | None => -1
  end.

(** [s.replace(old, new)] for one-character [old] and [new]. *)
Definition replace (old new : ascii) (s : str) : str :=
  (λ c, if decide (c = old) then new else c) <$> s.

(** [s.split()]: the maximal runs of non-whitespace characters.  [cur] is
    the run being read. *)
Fixpoint split_go (cur : str) (s : str) : list str :=
  match s with
  | [] => if decide (cur = []) then [] else [cur]
  | c :: s' =>
      if is_space c
      then (if decide (cur = []) then split_go [] s' else cur :: split_go [] s')
      else split_go (cur ++ [c]) s'
  end.

Definition split (s : str) : list str := split_go [] s.

(** [sep.join(parts)] *)
Fixpoint join (sep : str) (parts : list str) : str :=
  match parts with
  | [] => []
  | [p] => p
  | p :: ps => p ++ sep ++ join sep ps
  end.

(** [s.lstrip(chars)], [s.rstrip(chars)] and [s.strip(chars)] *)
Fixpoint lstrip (chars : str) (s : str) : str :=
  match s with
  | [] => []
  | c :: s' => if contains c chars then lstrip chars s' else s
  end.

Definition rstrip (chars : str) (s : str) : str :=
  reverse (lstrip chars (reverse s)).

Definition strip (chars : str) (s : str) : str :=
  rstrip chars (lstrip chars s).

(** [str(i)] for an integer [i] *)
Definition str_of_int (i : Z) : str := NilZero.string_of_int (Z.to_int i).

(** [s[i:]] and [s[:i]] for an index [0 <= i]. *)
Definition slice_from (i : Z) (s : str) : str := drop (Z.to_nat i) s.
Definition slice_to (i : Z) (s : str) : str := take (Z.to_nat i) s.

(** [posixpath.join(a, b)] *)
Definition os_path_join (a b : str) : str :=
  match b with
  | "/"%char :: _ => b
  | _ => if decide (a = []) then b
         else if decide (last a = Some "/"%char) then a ++ b
         else a ++ "/" ++ b
  end.

(** [posixpath.basename(p)]: [i = p.rfind('/') + 1; return p[i:]] *)
Definition os_path_basename (p : str) : str :=
  slice_from (rfind "/" p + 1) p.

(** The loop of [genericpath._splitext] that skips the leading dots of the
    file name: [n] positions are left to look at, starting at [name]. *)
Fixpoint skip_leading_dots (n : nat) (name : str) : bool :=
  match n, name with
  | S n', c :: name' => if decide (c = "."%char) then skip_leading_dots n' name' else true
  | _, _ => false
  end.

(** [posixpath.splitext(p)] *)
Definition os_path_splitext (p : str) : str * str :=
  let sepIndex := rfind "/" p in
  let dotIndex := rfind "." p in
  if (sepIndex <? dotIndex)
     && skip_leading_dots (Z.to_nat (dotIndex - (sepIndex + 1)))
                          (slice_from (sepIndex + 1) p)
  then (slice_to dotIndex p, slice_from dotIndex p)
  else (p, []).

End Py.

(** ** The runtime around the server

    What the module takes from its environment: whether the guarded import
    of the VoxNovel pipeline (lines 42-48) succeeded, and two functions of
    the Python library that work on code points rather than bytes. *)

Definition is_ascii (c : ascii) : bool := (Py.code c <? 128)%N.

Class Runtime := {
  (** [VOXNOVEL_AVAILABLE] *)
  VOXNOVEL_AVAILABLE : bool;
  (** [unicodedata.normalize("NFKD", s).encode("ascii", "ignore").decode("ascii")] *)
  nfkd_ascii : str → str;
  (** An ASCII character is its own decomposition and starts a new
      combining sequence. *)
  nfkd_ascii_keeps : ∀ s c, is_ascii c = true → nfkd_ascii (s ++ [c]) = nfkd_ascii s ++ [c];
  (** [int(s)] for a [str]; [None] stands for [ValueError]. *)
  py_int : str → option Z
}.

(** ** Configuration (lines 23-25) *)

Definition UPLOAD_FOLDER : str := "/app/uploads".
Definition OUTPUT_FOLDER : str := "/app/output_audiobooks".

(** ** The job state (lines 31-39) *)

Inductive Status := idle | processing | completed | error.

Record JobStatus := {
  status : Status;
  progress : Z;
  message : str;
  start_time : option str;
  output_file : option str
}.

(** The argument of [job_status.update({...})]: the keys the dict literal
    has, with their new values. *)
Record Update := {
  u_status : option Status;
  u_progress : option Z;
  u_message : option str;
  u_start_time : option (option str);
  u_output_file : option (option str)
}.

Definition dict_update (u : Update) (js : JobStatus) : JobStatus :=
  {| status := default (status js) (u_status u);
     progress := default (progress js) (u_progress u);
     message := default (message js) (u_message u);
     start_time := default (start_time js) (u_start_time u);
     output_file := default (output_file js) (u_output_file u) |}.

Definition initial_job_status : JobStatus :=
  {| status := idle;
     progress := 0;
     message := "Ready to process books";
     start_time := None;
     output_file := None |}.

(** The module-level state shared by all threads, and the two folders. *)
Record Shared := {
  current_job : option str;
  job_status : JobStatus;
  files : gmap str str
}.

Definition initial_shared : Shared :=
  {| current_job := None; job_status := initial_job_status; files := ∅ |}.

(** [if current_job:] -- [None] and the empty string are false. *)
Definition truthy (t : option str) : bool :=
  match t with
  | Some (_ :: _) => true
  | _ => false
  end.

(** ** [allowed_file] (lines 50-53) *)

Definition ALLOWED_EXTENSIONS : gset str :=
  {[ "epub" : str; "pdf" : str; "mobi" : str; "txt" : str; "html" : str;
     "rtf" : str; "fb2" : str; "odt" : str; "cbr" : str; "cbz" : str ]}.

(** The index [1] is only evaluated when ['.' in filename] holds, and then
    [rsplit] has two parts (lemma [rsplit1_second]). *)
Definition allowed_file (filename : str) : bool :=
  Py.contains "." filename
  && match Py.rsplit1 "." filename !! 1%nat with
     | Some ext => bool_decide (Py.lower ext ∈ ALLOWED_EXTENSIONS)
     | None => false
     end.

(** ** The request, as the handler reads it *)

(** [werkzeug.datastructures.FileStorage]: the client's file name and the
    bytes of the part. *)
Record FileStorage := {
  filename : str;
  stream : str
}.

(** [request.files] and [request.form] *)
Record Request := {
  req_files : gmap str FileStorage;
  req_form : gmap str str
}.

(** [form.get(key, default)] *)
Definition form_get (form : gmap str str) (key : str) (dflt : str) : str :=
  default dflt (form !! key).

Record Options := {
  tts_model : str;
  use_gpu : bool;
  chapter_delimiter : str;
  silence_duration : Z
}.

(** ** Worker threads *)

Inductive Phase := BookNLP | TTS.

(** The program points of [process_book_job] between which other threads
    can run. *)
Inductive PC :=
  | AtEntry                                      (* 135: if not VOXNOVEL_AVAILABLE *)
  | AtStart                                      (* 144-152, after line 143 *)
  | AtLoop (ph : Phase) (todo : list Z)          (* 159/169: next item, 160/170 *)
  | AtSleep (ph : Phase) (i : Z) (todo : list Z) (* 162/172 *)
  | AtReport (ph : Phase) (i : Z) (todo : list Z)(* 163-166/173-176 *)
  | AtFinalSleep                                 (* 179 *)
  | AtOpen                                       (* 180-185 *)
  | AtWrite                                      (* 186 and the end of [with] *)
  | AtComplete                                   (* 188-193 *)
  | AtExcept (e : str)                           (* 196-200 *)
  | AtFinally                                    (* 203 *)
  | Done.

Global Instance Phase_eq_dec : EqDecision Phase.
Proof. solve_decision. Defined.

Global Instance PC_eq_dec : EqDecision PC.
Proof. solve_decision. Defined.

Record Worker := {
  filepath : str;
  options : Options;
  pc : PC
}.

(** What one step of a worker does to the shared state. *)
Inductive Effect :=
  | SetToken (t : option str)
  | UpdateStatus (u : Update)
  | WriteFile (path content : str)
  | Silent.

Definition apply_effect (e : Effect) (g : Shared) : Shared :=
  match e with
  | SetToken t =>
      {| current_job := t; job_status := job_status g; files := files g |}
  | UpdateStatus u =>
      {| current_job := current_job g; job_status := dict_update u (job_status g);
         files := files g |}
  | WriteFile path content =>
      {| current_job := current_job g; job_status := job_status g;
         files := <[path := content]> (files g) |}
  | Silent => g
  end.

(** What a step takes from outside the worker: an exception raised by the
    blocking call it makes ([str(e)]), and the clock. *)
Record Event := {
  raises : option str;
  now : str
}.

Definition quiet : Event := {| raises := None; now := "2026-01-01T00:00:00" |}.

(** [range(start, stop, step)] for a positive [step] *)
Definition py_range (start stop step : Z) : list Z :=
  (λ k, start + step * Z.of_nat k) <$> seq 0 (Z.to_nat ((stop - start + step - 1) / step)).

(** The dict literals passed to [job_status.update]. *)

Definition upd_unavailable : Update :=
  {| u_status := Some error;
     u_message := Some ("VoxNovel modules not available" : str);
     u_progress := Some 0;
     u_start_time := None;
     u_output_file := None |}.

Definition upd_start (isoformat : str) : Update :=
  {| u_status := Some processing;
     u_progress := Some 10;
     u_message := Some ("Starting book processing..." : str);
     u_start_time := Some (Some isoformat);
     u_output_file := Some None |}.

Definition phase_text (ph : Phase) : str :=
  match ph with
  | BookNLP => "Processing book text... "
  | TTS => "Generating audio... "
  end.

Definition upd_progress (ph : Phase) (i : Z) : Update :=
  {| u_status := None;
     u_progress := Some i;
     u_message := Some (phase_text ph ++ Py.str_of_int i ++ "%");
     u_start_time := None;
     u_output_file := None |}.

Definition upd_completed (output_filename : str) : Update :=
  {| u_status := Some completed;
     u_progress := Some 100;
     u_message := Some ("Audiobook generated successfully: " ++ output_filename);
     u_start_time := None;
     u_output_file := Some (Some output_filename) |}.

Definition upd_failed (e : str) : Update :=
  {| u_status := Some error;
     u_message := Some ("Processing failed: " ++ e);
     u_progress := Some 0;
     u_start_time := None;
     u_output_file := None |}.

(** Lines 144 and 180-181 *)
Definition output_filename (filepath : str) : str :=
  let filename := Py.os_path_basename filepath in
  (Py.os_path_splitext filename).1 ++ "_audiobook.m4b".

Definition output_path (filepath : str) : str :=
  Py.os_path_join OUTPUT_FOLDER (output_filename filepath).

Definition dummy_audiobook : str := "This would be the generated audiobook file".

(** Leaving the [try] block by an exception of the blocking call. *)
Definition guarded (ev : Event) (next : PC * Effect) : PC * Effect :=
  match raises ev with
  | Some e => (AtExcept e, Silent)
  | None => next
  end.

Section Server.
Context {rt : Runtime}.

(** ** [werkzeug.utils.secure_filename] on a POSIX host

    [os.sep] is ["/"], [os.path.altsep] is [None], and the [os.name == "nt"]
    branch is not taken. *)

(** The characters [_filename_ascii_strip_re] keeps: [A-Za-z0-9_.-] *)
Definition filename_char (c : ascii) : bool :=
  Py.is_alnum c || Py.contains c "_.-".

Definition secure_filename (filename : str) : str :=
  let filename := nfkd_ascii filename in
  let filename := Py.replace "/" " " filename in
  Py.strip "._" (filter (λ c, filename_char c = true) (Py.join "_" (Py.split filename))).

(** ** [process_book_job] (lines 131-203)

    One step of the worker at [pc]; [seen] is the value of [current_job]
    when the step runs. *)
Definition worker_next (seen : option str) (ev : Event) (filepath : str) (pc : PC)
  : PC * Effect :=
  match pc with
  | AtEntry =>
      if VOXNOVEL_AVAILABLE
      then (AtStart, SetToken (Some filepath))
      else (Done, UpdateStatus upd_unavailable)
  | AtStart =>
      (AtLoop BookNLP (py_range 10 50 5), UpdateStatus (upd_start (now ev)))
  | AtLoop BookNLP [] => (AtLoop TTS (py_range 50 90 5), Silent)
  | AtLoop TTS [] => (AtFinalSleep, Silent)
  | AtLoop ph (i :: todo) =>
      if decide (seen ≠ Some filepath)
      then (AtFinally, Silent)
      else (AtSleep ph i todo, Silent)
  | AtSleep ph i todo => guarded ev (AtReport ph i todo, Silent)
  | AtReport ph i todo => (AtLoop ph todo, UpdateStatus (upd_progress ph i))
  | AtFinalSleep => guarded ev (AtOpen, Silent)
  | AtOpen => guarded ev (AtWrite, WriteFile (output_path filepath) [])
  | AtWrite => guarded ev (AtComplete, WriteFile (output_path filepath) dummy_audiobook)
  | AtComplete => (AtFinally, UpdateStatus (upd_completed (output_filename filepath)))
  | AtExcept e => (AtFinally, UpdateStatus (upd_failed e))
  | AtFinally => (Done, SetToken None)
  | Done => (Done, Silent)
  end.

(** A whole run of the worker from [pc], given what it sees and is handed
    at each of its steps; the effects are listed in the order they happen. *)
Fixpoint worker_run (obs : list (option str * Event)) (filepath : str) (pc : PC)
  : PC * list Effect :=
  match pc, obs with
  | Done, _ => (Done, [])
  | _, [] => (pc, [])
  | _, (seen, ev) :: obs' =>
      let '(pc', eff) := worker_next seen ev filepath pc in
      let '(pc'', effs) := worker_run obs' filepath pc' in
      (pc'', eff :: effs)
  end.

(** The steps that compare [current_job] with [filepath] (lines 160 and
    170), and the runs in which every such comparison finds them equal. *)
Definition is_check (pc : PC) : bool :=
  match pc with
  | AtLoop _ (_ :: _) => true
  | _ => false
  end.

Fixpoint checks_pass (obs : list (option str * Event)) (filepath : str) (pc : PC) : Prop :=
  match obs with
  | [] => True
  | (seen, ev) :: obs' =>
      (is_check pc = true → seen = Some filepath)
      ∧ checks_pass obs' filepath (worker_next seen ev filepath pc).1
  end.

(** ** [upload_file] (lines 65-100) *)

Inductive Exn := ValueError | IsADirectoryError.

(** [jsonify(...)] with its status, or the exception that leaves the
    handler. *)
Inductive Outcome :=
  | Respond (code : Z) (body : list (str * str))
  | Raised (e : Exn).

Record Handled := {
  outcome : Outcome;
  after : Shared;
  spawned : option Worker
}.

Definition reject (g : Shared) (msg : str) : Handled :=
  {| outcome := Respond 400 [("error" : str, msg)]; after := g; spawned := None |}.

(** [file.save(filepath)]: [open(filepath, "wb")] creates or truncates the
    file; a path that ends in the separator names the folder itself. *)
Definition file_save (file : FileStorage) (path : str) (fs : gmap str str)
  : option (gmap str str) :=
  if decide (last path = Some "/"%char) then None
  else Some (<[path := stream file]> fs).

(** Lines 86-91.  Only [int] can raise. *)
Definition read_options (form : gmap str str) : option Options :=
  let tts_model := form_get form "tts_model" "xtts_v2" in
  let use_gpu := bool_decide (Py.lower (form_get form "use_gpu" "true") = "true") in
  let chapter_delimiter := form_get form "chapter_delimiter" "Chapter" in
  match form !! ("silence_duration" : str) with
  | Some s =>
      d ← py_int s;
      Some {| tts_model := tts_model; use_gpu := use_gpu;
              chapter_delimiter := chapter_delimiter; silence_duration := d |}
  | None =>
      Some {| tts_model := tts_model; use_gpu := use_gpu;
              chapter_delimiter := chapter_delimiter; silence_duration := 500 |}
  end.

Definition upload_file (req : Request) (g : Shared) : Handled :=
  if truthy (current_job g) then reject g "Another job is already running"
  else
    match req_files req !! ("file" : str) with
    | None => reject g "No file provided"
    | Some file =>
        if decide (filename file = []) then reject g "No file selected"
        else if bool_decide (filename file ≠ []) && allowed_file (filename file) then
          let name := secure_filename (filename file) in
          let path := Py.os_path_join UPLOAD_FOLDER name in
          match file_save file path (files g) with
          | None => {| outcome := Raised IsADirectoryError; after := g; spawned := None |}
          | Some fs =>
              let g' := {| current_job := current_job g; job_status := job_status g;
                           files := fs |} in
              match read_options (req_form req) with
              | None => {| outcome := Raised ValueError; after := g'; spawned := None |}
              | Some opts =>
                  {| outcome :=
                       Respond 200 [("message" : str, "File uploaded and processing started" : str);
                                    ("filename" : str, name)];
                     after := g';
                     spawned := Some {| filepath := path; options := opts; pc := AtEntry |} |}
              end
          end
        else reject g "File type not allowed"
    end.

(** ** The server: the shared state and the worker threads started so far *)

Record World := {
  shared : Shared;
  threads : list Worker
}.

Definition initial_world : World := {| shared := initial_shared; threads := [] |}.

(** What can happen next: a request to [/upload] is handled, or thread
    [tid] takes its next step.  The handler reads the shared variables once,
    at line 70, and writes neither of them, so handling a request is one
    step; the worker it starts runs line 143 in a step of its own. *)
Inductive Action :=
  | Upload (req : Request)
  | Run (tid : nat) (ev : Event).

Definition at_pc (wk : Worker) (pc' : PC) : Worker :=
  {| filepath := filepath wk; options := options wk; pc := pc' |}.

Definition sys_step (w : World) (a : Action) : World :=
  match a with
  | Upload req =>
      let h := upload_file req (shared w) in
      {| shared := after h;
         threads := threads w ++ option_list (spawned h) |}
  | Run tid ev =>
      match threads w !! tid with
      | Some wk =>
          let '(pc', eff) := worker_next (current_job (shared w)) ev (filepath wk) (pc wk) in
          {| shared := apply_effect eff (shared w);
             threads := <[tid := at_pc wk pc']> (threads w) |}
      | None => w
      end
  end.

Definition sys_run (w : World) (acts : list Action) : World := foldl sys_step w acts.

Definition reachable (w : World) : Prop := ∃ acts, sys_run initial_world acts = w.

(** What thread [tid] sees and is handed at each of its steps when the
    server runs [acts] from [w]. *)
Fixpoint thread_obs (w : World) (acts : list Action) (tid : nat)
  : list (option str * Event) :=
  match acts with
  | [] => []
  | a :: acts' =>
      match a with
      | Run tid' ev =>
          if decide (tid' = tid) then [(current_job (shared w), ev)] else []
      | Upload _ => []
      end ++ thread_obs (sys_step w a) acts' tid
  end.

(** ** Vocabulary of the properties *)

(** [path] names an entry directly inside [folder]. *)
Definition inside (folder path : str) : Prop :=
  ∃ name, path = folder ++ "/" ++ name ∧ name ≠ [] ∧ ("/"%char ∉ name)
          ∧ name ≠ "." ∧ name ≠ "..".

(** A request that passes every check of [upload_file] after the busy
    check: it has a [file] part whose name has an allowed extension, and its
    [silence_duration], if any, is read by [int]. *)
Definition valid_upload (req : Request) (file : FileStorage) : Prop :=
  req_files req !! ("file" : str) = Some file
  ∧ allowed_file (filename file) = true
  ∧ is_Some (read_options (req_form req)).

(** Inside the [try] statement: past line 143 and not yet returned. *)
Definition in_try (pc : PC) : Prop := pc ≠ AtEntry ∧ pc ≠ Done.

(** Every file path held by the token or by a thread is a non-empty
    string. *)
Definition tokens_nonempty (w : World) : Prop :=
  (∀ fp, current_job (shared w) = Some fp → fp ≠ [])
  ∧ Forall (λ wk, filepath wk ≠ []) (threads w).

(** With the pipeline missing no job ever starts. *)
Definition never_started (w : World) : Prop :=
  current_job (shared w) = None
  ∧ (status (job_status (shared w)) = idle ∨ status (job_status (shared w)) = error)
  ∧ start_time (job_status (shared w)) = None
  ∧ output_file (job_status (shared w)) = None
  ∧ Forall (λ wk, pc wk = AtEntry ∨ pc wk = Done) (threads w).

(** The invariant of the job record: [output_file] is set exactly when the
    status is [completed]. *)
Definition consistent (js : JobStatus) : Prop :=
  is_Some (output_file js) ↔ status js = completed.

(** The job record after each of the updates [ups], starting from [js]. *)
Fixpoint records (js : JobStatus) (ups : list Update) : list JobStatus :=
  match ups with
  | [] => []
  | u :: ups' => dict_update u js :: records (dict_update u js) ups'
  end.

(** What a worker at [pc] relies on in the job record. *)
Definition expects (pc : PC) (js : JobStatus) : Prop :=
  match pc with
  | AtFinally | Done => consistent js
  | _ => output_file js = None ∧ status js ≠ completed
  end.

(** The arguments of the [job_status.update] calls among the effects, and
    the [progress] values among those. *)
Definition updates (effs : list Effect) : list Update :=
  omap (λ e, match e with UpdateStatus u => Some u | _ => None end) effs.


(** The paths written among the effects. *)
Definition written (effs : list Effect) : list str :=
  omap (λ e, match e with WriteFile path _ => Some path | _ => None end) effs.

(** An upper bound on the number of steps a worker at [pc] has left. *)
Definition remaining (pc : PC) : nat :=
  match pc with
  | AtEntry => 57
  | AtStart => 56
  | AtLoop BookNLP todo => 3 * length todo + 31
  | AtSleep BookNLP _ todo => 3 * length todo + 33
  | AtReport BookNLP _ todo => 3 * length todo + 32
  | AtLoop TTS todo => 3 * length todo + 6
  | AtSleep TTS _ todo => 3 * length todo + 8
  | AtReport TTS _ todo => 3 * length todo + 7
  | AtFinalSleep => 5
  | AtOpen => 4
  | AtWrite => 3
  | AtComplete => 2
  | AtExcept _ => 2
  | AtFinally => 1
  | Done => 0
  end.

(** The effects of the rest of the run from [pc], when every check passes
    and no call raises. *)
Definition iteration (ph : Phase) (i : Z) : list Effect :=
  [Silent; Silent; UpdateStatus (upd_progress ph i)].

Definition final_script (filepath : str) : list Effect :=
  [Silent;
   WriteFile (output_path filepath) [];
   WriteFile (output_path filepath) dummy_audiobook;
   UpdateStatus (upd_completed (output_filename filepath));
   SetToken None].

Definition loop_script (filepath : str) (ph : Phase) (todo : list Z) : list Effect :=
  match ph with
  | BookNLP =>
      (todo ≫= iteration BookNLP) ++ Silent
        :: (py_range 50 90 5 ≫= iteration TTS) ++ Silent :: final_script filepath
  | TTS => (todo ≫= iteration TTS) ++ Silent :: final_script filepath
  end.

Definition script (filepath : str) (pc : PC) : list Effect :=
  match pc with
  | AtEntry | AtStart => []
  | AtLoop ph todo => loop_script filepath ph todo
  | AtSleep ph i todo => drop 1 (iteration ph i) ++ loop_script filepath ph todo
  | AtReport ph i todo => drop 2 (iteration ph i) ++ loop_script filepath ph todo
  | AtFinalSleep => final_script filepath
  | AtOpen => drop 1 (final_script filepath)
  | AtWrite => drop 2 (final_script filepath)
  | AtComplete => drop 3 (final_script filepath)
  | AtExcept e => [UpdateStatus (upd_failed e); SetToken None]
  | AtFinally => [SetToken None]
  | Done => []
  end.

End Server.

(** ** A concrete runtime

    Used to run the model on concrete requests: the import outcome is a
    parameter, the normalisation drops every non-ASCII byte, and [int] reads
    an optionally signed run of ASCII digits between optional whitespace. *)

Fixpoint digits_value (acc : Z) (s : str) : option Z :=
  match s with
  | [] => Some acc
  | c :: s' =>
      if Py.is_digit c
      then digits_value (10 * acc + (Z.of_N (Py.code c) - 48)) s'
      else None
  end.

Definition ascii_whitespace : str :=
  ascii_of_N <$> [9; 10; 11; 12; 13; 28; 29; 30; 31; 32]%N.

Definition ascii_int (s : str) : option Z :=
  match Py.strip ascii_whitespace s with
  | [] => None
  | "-"%char :: ((_ :: _) as ds) => Z.opp <$> digits_value 0 ds
  | "+"%char :: ((_ :: _) as ds) => digits_value 0 ds
  | "-"%char :: [] | "+"%char :: [] => None
  | ds => digits_value 0 ds
  end.

Definition ascii_runtime (available : bool) : Runtime :=
  {| VOXNOVEL_AVAILABLE := available;
     nfkd_ascii := filter (λ c, is_ascii c = true);
     nfkd_ascii_keeps := λ s c Hc,
       eq_trans (filter_app (λ c, is_ascii c = true) s [c])
                (f_equal (app (filter (λ c, is_ascii c = true) s))
                         (filter_cons_True (λ c, is_ascii c = true) c [] Hc));
     py_int := ascii_int |}.

(** ** Concrete requests and schedules *)

Definition upload_of (name content : str) (form : gmap str str) : Request :=
  {| req_files := {[ ("file" : str) := {| filename := name; stream := content |} ]};
     req_form := form |}.

Definition req_book : Request := upload_of "book.epub" "first upload" ∅.
Definition req_book_again : Request := upload_of "book.epub" "second upload" ∅.
Definition req_novel : Request := upload_of "novel.pdf" "a novel" ∅.
Definition req_exe_bad_silence : Request :=
  upload_of "book.exe" "MZ" {[ ("silence_duration" : str) := ("half a second" : str) ]}.
Definition req_book_bad_silence : Request :=
  upload_of "book.epub" "first upload"
            {[ ("silence_duration" : str) := ("half a second" : str) ]}.

Definition book_path : str := "/app/uploads/book.epub".

(** What a worker that is alone on the server sees, when nothing is raised. *)
Definition calm_run (fp : str) : list (option str * Event) :=
  replicate 57 (Some fp, quiet).

(** Thread [tid] takes [n] steps in which nothing is raised. *)
Definition steps (tid n : nat) : list Action := replicate n (Run tid quiet).

Definition disk_full : Event :=
  {| raises := Some ("[Errno 28] No space left on device" : str); now := now quiet |}.

(** Two uploads pass the busy check before either worker starts; the first
    worker passes its last check, and only then the second one starts. *)
Definition late_supersession : list Action :=
  [Upload req_book; Upload req_novel] ++ steps 0 52 ++ steps 1 2.

(** The same file is uploaded twice before either worker starts; the two
    workers run side by side and pass all their checks, the first one
    completes, and the second one fails to open its output file. *)
Definition twin_failure : list Action :=
  [Upload req_book; Upload req_book_again]
  ++ mjoin (replicate 52 [Run 0 quiet; Run 1 quiet])
  ++ steps 0 5 ++ [Run 1 quiet; Run 1 disk_full; Run 1 quiet].

(** One job runs to its end. *)
Definition first_job_done : list Action := [Upload req_book] ++ steps 0 57.

(** * Further parts of the program *)

(** ** The folders as the download and listing routes see them

    The paths the server passes to the operating system are absolute.  The
    directories that exist are the two folders made at lines 28-29 and
    their parents; the regular files are the entries of [files]. *)

(** [s.split(sep)] for a one-character [sep]; [cur] is the part being read. *)
Fixpoint split_at (sep : ascii) (cur s : str) : list str :=
  match s with
  | [] => [cur]
  | c :: s' =>
      if decide (c = sep) then cur :: split_at sep [] s'
      else split_at sep (cur ++ [c]) s'
  end.

Definition FOLDERS : list (list str) :=
  [[]; ["app" : str]; ["app" : str; "uploads" : str];
   ["app" : str; "output_audiobooks" : str]].

(** The absolute path with the components [comps]. *)
Definition path_of (comps : list str) : str := "/" ++ Py.join "/" comps.

Inductive Entry :=
  | RegularFile (content : str)
  | Directory.

#[global] Instance Entry_eq_dec : EqDecision Entry.
Proof. solve_decision. Defined.

(** Path resolution from the directory [cur]: empty components and ["."]
    stay, [".."] goes up, a directory is entered, and a regular file can only
    be the last component. *)
Fixpoint walk (fs : gmap str str) (cur comps : list str) : option Entry :=
  match comps with
  | [] => Some Directory
  | c :: rest =>
      if decide (c = [] ∨ c = ".") then walk fs cur rest
      else if decide (c = "..") then walk fs (removelast cur) rest
      else if decide (cur ++ [c] ∈ FOLDERS) then walk fs (cur ++ [c]) rest
      else match fs !! path_of (cur ++ [c]), rest with
           | Some content, [] => Some (RegularFile content)
           | _, _ => None
           end
  end.

(** [os.stat(path)] for an absolute [path]; [None] when nothing is there. *)
Definition os_stat (fs : gmap str str) (path : str) : option Entry :=
  match path with
  | "/"%char :: rest => walk fs [] (split_at "/" [] rest)
  | _ => None
  end.

(** [os.path.exists(path)] *)
Definition os_path_exists (fs : gmap str str) (path : str) : bool :=
  bool_decide (is_Some (os_stat fs path)).

(** ** [download_file] (lines 107-113)

    [send_file(filepath, as_attachment=True)] answers with the bytes of the
    file under the name [basename(filepath)]; on a directory its [open]
    raises. *)
Inductive FileResponse :=
  | Attachment (download_name content : str)
  | Json (code : Z) (body : list (str * str))
  | Fails (e : Exn).

Definition download_file (filename : str) (g : Shared) : FileResponse :=
  let filepath := Py.os_path_join OUTPUT_FOLDER filename in
  if os_path_exists (files g) filepath then
    match os_stat (files g) filepath with
    | Some (RegularFile content) => Attachment (Py.os_path_basename filepath) content
    | _ => Fails IsADirectoryError
    end
  else Json 404 [("error" : str, "File not found" : str)].

(** ** [list_jobs] (lines 115-129) *)

Fixpoint strip_prefix (p s : str) : option str :=
  match p, s with
  | [], _ => Some s
  | a :: p', b :: s' => if decide (a = b) then strip_prefix p' s' else None
  | _ :: _, [] => None
  end.

(** A single path component that names an entry of a directory. *)
Definition is_component (name : str) : Prop :=
  name ≠ [] ∧ ("/"%char ∉ name) ∧ name ≠ "." ∧ name ≠ "..".

(** The name under which [path] is an entry of the directory [folder]. *)
Definition entry_name (folder path : str) : option str :=
  name ← strip_prefix (folder ++ "/") path;
  if bool_decide (is_component name) then Some name else None.

(** The regular files directly in [folder], with their contents, in the
    order the file system gives them. *)
Definition scandir (folder : str) (fs : gmap str str) : list (str * str) :=
  omap (λ kv, name ← entry_name folder kv.1; Some (name, kv.2)) (map_to_list fs).

(** [fnmatch(name, "*.m4b")] *)
Definition matches_m4b (name : str) : bool :=
  bool_decide ((".m4b" : str) `suffix_of` name).

Record Job := {
  job_filename : str;
  job_size : Z;
  job_created : str
}.

Section Listing.
(** [datetime.fromtimestamp(path.stat().st_ctime).strftime('%Y-%m-%d %H:%M:%S')] *)
Variable created : str → str.

Definition job_of (entry : str * str) : Job :=
  {| job_filename := entry.1;
     job_size := Z.of_nat (length entry.2);
     job_created := created (OUTPUT_FOLDER ++ "/" ++ entry.1) |}.

(** The [jobs] list handed to the template. *)
Definition list_jobs (g : Shared) : list Job :=
  job_of <$> filter (λ entry, matches_m4b entry.1 = true) (scandir OUTPUT_FOLDER (files g)).

End Listing.

(** ** Vocabulary of the server invariants *)

(** The items a worker at [pc] still has to report are percentages. *)
Definition pc_bounded (pc : PC) : Prop :=
  match pc with
  | AtLoop _ todo => Forall (λ i, 0 ≤ i ≤ 100) todo
  | AtSleep _ i todo | AtReport _ i todo => 0 ≤ i ≤ 100 ∧ Forall (λ i, 0 ≤ i ≤ 100) todo
  | _ => True
  end.

(** [fp] is the path of an upload that has been saved. *)
Definition saved_upload (fs : gmap str str) (fp : str) : Prop :=
  inside UPLOAD_FOLDER fp ∧ is_Some (fs !! fp).

(** The output a job record names exists, and so does the output of a
    worker that is about to report it. *)
Definition output_exists (w : World) : Prop :=
  (∀ n, output_file (job_status (shared w)) = Some n →
        is_component n ∧ is_Some (files (shared w) !! (OUTPUT_FOLDER ++ "/" ++ n)))
  ∧ Forall (λ wk, pc wk = AtComplete →
                  is_Some (files (shared w) !! output_path (filepath wk))) (threads w).

(** ** The single job slot

    The busy check of the handler and line 143 of the worker are apart: an
    upload handled in between finds the token still unset.  [well_timed]
    marks the runs of the server in which that does not happen: a request is
    only handled when no started worker is still before line 143. *)
Section Slot.
Context {rt : Runtime}.

Fixpoint well_timed (w : World) (acts : list Action) : Prop :=
  match acts with
  | [] => True
  | a :: acts' =>
      match a with
      | Upload _ => Forall (λ wk, pc wk ≠ AtEntry) (threads w)
      | Run _ _ => True
      end
      ∧ well_timed (sys_step w a) acts'
  end.

(** What holds of the shared state while the worker [wk] is the only one
    that has not returned. *)
Definition slot_holds (g : Shared) (wk : Worker) : Prop :=
  match pc wk with
  | AtEntry => current_job g = None ∧ consistent (job_status g)
  | Done => False
  | AtStart | AtFinally =>
      VOXNOVEL_AVAILABLE = true
      ∧ current_job g = Some (filepath wk) ∧ consistent (job_status g)
  | _ =>
      VOXNOVEL_AVAILABLE = true
      ∧ current_job g = Some (filepath wk)
      ∧ output_file (job_status g) = None ∧ status (job_status g) ≠ completed
  end.

Definition slot_idle (w : World) : Prop :=
  Forall (λ wk, pc wk = Done) (threads w)
  ∧ current_job (shared w) = None
  ∧ consistent (job_status (shared w)).

Definition slot_busy (w : World) (tid : nat) (wk : Worker) : Prop :=
  threads w !! tid = Some wk
  ∧ (∀ tid' wk', tid' ≠ tid → threads w !! tid' = Some wk' → pc wk' = Done)
  ∧ filepath wk ≠ []
  ∧ slot_holds (shared w) wk.

Definition slot_invariant (w : World) : Prop :=
  (VOXNOVEL_AVAILABLE = false → output_file (job_status (shared w)) = None)
  ∧ (slot_idle w ∨ ∃ tid wk, slot_busy w tid wk).

End Slot.

(** ** The upload route and the size limit

    [upload_file] above is the handler for a request whose body werkzeug
    accepts.  Line 23 sets [MAX_CONTENT_LENGTH]: where the handler first reads
    [request.files], at line 73, werkzeug raises [RequestEntityTooLarge] for
    a body that is longer, and Flask answers it with 413.  The check of
    [current_job] at line 70 comes before and reads nothing of the body. *)
Definition MAX_CONTENT_LENGTH : Z := 100 * 1024 * 1024.

(** A request as it arrives: the length of its body, and the parts that
    werkzeug reads from it when the body is accepted. *)
Record Arrival := {
  content_length : Z;
  parts : Request
}.

(** What leaves the route: an outcome of the handler's own, or the exception
    of werkzeug. *)
Inductive RouteOutcome :=
  | Own (o : Outcome)
  | RequestEntityTooLarge.

Record Routed := {
  route_outcome : RouteOutcome;
  route_after : Shared;
  route_spawned : option Worker
}.

Definition own (r : Handled) : Routed :=
  {| route_outcome := Own (outcome r); route_after := after r; route_spawned := spawned r |}.

(** The status code that the client gets: Flask answers an exception that
    is no [HTTPException] with 500. *)
Definition status_code (o : RouteOutcome) : Z :=
  match o with
  | Own (Respond code _) => code
  | Own (Raised _) => 500
  | RequestEntityTooLarge => 413
  end.

Section Route.
Context {rt : Runtime}.

Definition upload_route (a : Arrival) (g : Shared) : Routed :=
  if truthy (current_job g) then own (reject g "Another job is already running")
  else if bool_decide (MAX_CONTENT_LENGTH < content_length a) then
    {| route_outcome := RequestEntityTooLarge; route_after := g; route_spawned := None |}
  else own (upload_file (parts a) g).

End Route.

(** Concrete arrivals: a book within the limit, and one byte over it. *)
Definition arrival_book : Arrival :=
  {| content_length := 4096; parts := req_book |}.

Definition arrival_too_large : Arrival :=
  {| content_length := MAX_CONTENT_LENGTH + 1; parts := req_book |}.

(** * The launcher: gui_run_web.py and start_web_gui.py

    [start_web_gui.py] imports [gui_run_web], whose module body imports
    [web_server], and calls [main]; [gui_run_web.py] run as a script calls
    [main] itself.  A launcher is modelled by what its main thread does, in
    order: the lines it prints, the pip command, the thread it starts and the
    call of [app.run], together with the directories it creates.  What the
    imported modules print themselves, and what the browser thread does, is
    not part of it. *)

(** ** The host

    What the launcher finds where it is started.  An import succeeds or
    raises [ImportError]; pip exits with 0 or not; [app.run] returns, is
    interrupted from the keyboard, raises or ends the interpreter. *)
Inductive OSError :=
  | FileExistsError (path : str)
  | FileNotFoundError (path : str)
  | NotADirectoryError (path : str)
  | PermissionError (path : str).

(** What a statement of the launcher raises.  [SystemExit] is no
    [Exception]: an [except Exception] lets it pass. *)
Inductive BaseException :=
  | ImportError (e : str)
  | OSError_raised (e : OSError)
  | SystemExit (code : Z).

(** How [app.run] ends.  Where the address cannot be bound (port 8080 is
    taken), werkzeug's [run_simple] prints the reason itself and calls
    [sys.exit(1)]: that is [ServerExits]. *)
Inductive Served :=
  | ServerReturns
  | KeyboardInterrupt
  | ServerRaises (e : str)
  | ServerExits.

Record Host := {
  (** the message of the [ImportError] that importing a module raises; [None]
      when the module is imported *)
  import_error : str → option str;
  (** whether [python -m pip install] of these packages exits with 0 *)
  pip_install : list str → bool;
  (** what lines 28-29 of web_server.py raise, the two [os.makedirs] of the
      folders under [/app] *)
  app_folders : option OSError;
  (** the address of the datagram socket of [get_local_ip]; [None] when any
      of its four calls fails *)
  socket_address : option str;
  (** how [app.run] ends *)
  app_run : Served;
  (** [str(e)] of an [OSError] *)
  describe : OSError → str
}.

(** The tree below the working directory, by relative path, as it is when
    [main] is entered.  It holds what the launcher itself reads and writes,
    the directories of [setup_directories]; what the pip command writes, the
    packages it installs, is not followed in it. *)
Abbreviation Disk := (gmap str Entry).

Inductive Did :=
  | Printed (line : str)
  | PipInstall (packages : list str)
  | StartThread (url : str)
  | AppRun (host : str) (port : Z).

Inductive Res (A : Type) :=
  | Ret (a : A)
  | Exc (e : BaseException).
Arguments Ret {A} a.
Arguments Exc {A} e.

(** A piece of the launcher: from the disk to its result, what it did and
    the disk it leaves. *)
Definition Prog (A : Type) : Type := Disk → Res A * list Did * Disk.

Definition prog_ret {A} (a : A) : Prog A := λ d, (Ret a, [], d).

Definition prog_raise {A} (e : BaseException) : Prog A := λ d, (Exc e, [], d).

Definition prog_bind {A B} (p : Prog A) (f : A → Prog B) : Prog B :=
  λ d,
    match p d with
    | (Ret a, did, d') =>
        match f a d' with
        | (r, did', d'') => (r, did ++ did', d'')
        end
    | (Exc e, did, d') => (Exc e, did, d')
    end.

Declare Scope prog_scope.
Delimit Scope prog_scope with prog.
Bind Scope prog_scope with Prog.
Notation "x <- p ;; q" := (prog_bind p (λ x, q))
  (at level 20, p at level 99, q at level 200, only parsing) : prog_scope.
Notation "p ;; q" := (prog_bind p (λ _, q))
  (at level 100, q at level 200, only parsing, right associativity) : prog_scope.
Local Open Scope prog_scope.

(** [try: p  except ImportError as e: handler] *)
Definition except_ImportError {A} (p : Prog A) (handler : str → Prog A) : Prog A :=
  λ d,
    match p d with
    | (Exc (ImportError e), did, d') =>
        match handler e d' with
        | (r, did', d'') => (r, did ++ did', d'')
        end
    | r => r
    end.

(** [try: p  except Exception as e: handler] *)
Definition except_Exception {A} (p : Prog A) (handler : BaseException → Prog A) : Prog A :=
  λ d,
    match p d with
    | (Exc (SystemExit code), did, d') => (Exc (SystemExit code), did, d')
    | (Exc e, did, d') =>
        match handler e d' with
        | (r, did', d'') => (r, did ++ did', d'')
        end
    | r => r
    end.

Definition call (e : Did) : Prog unit := λ d, (Ret tt, [e], d).

Definition print (line : str) : Prog unit := call (Printed line).

Definition import_module (h : Host) (name : str) : Prog unit :=
  match import_error h name with
  | Some e => prog_raise (ImportError e)
  | None => prog_ret tt
  end.

(** [str(e)] *)
Definition str_of_exception (h : Host) (e : BaseException) : str :=
  match e with
  | ImportError e => e
  | OSError_raised e => describe h e
  | SystemExit code => Py.str_of_int code
  end.

Definition nl : ascii := "010"%char.

(** ** Directories

    [posixpath.split(p)] *)
Definition os_path_split (p : str) : str * str :=
  let i := Py.rfind "/" p + 1 in
  let head := Py.slice_to i p in
  let tail := Py.slice_from i p in
  (if bool_decide (head ≠ [] ∧ head ≠ replicate (length head) "/"%char)
   then Py.rstrip "/" head else head,
   tail).

Definition path_exists (d : Disk) (p : str) : bool :=
  match d !! p with
  | Some _ => true
  | None => false
  end.

Definition path_isdir (d : Disk) (p : str) : bool :=
  match d !! p with
  | Some Directory => true
  | _ => false
  end.

(** [os.mkdir(name)] for a relative [name] without a trailing slash: the
    parent has to be a directory (the working directory is one) and the name
    has to be free. *)
Definition os_mkdir (name : str) (d : Disk) : option OSError * Disk :=
  let parent := (os_path_split name).1 in
  if bool_decide (name = []) then (Some (FileNotFoundError name), d)
  else
    match (if bool_decide (parent = []) then Some Directory else d !! parent) with
    | None => (Some (FileNotFoundError name), d)
    | Some (RegularFile _) => (Some (NotADirectoryError name), d)
    | Some Directory =>
        if path_exists d name then (Some (FileExistsError name), d)
        else (None, <[name := Directory]> d)
    end.

(** The end of [os.makedirs(name, exist_ok=True)]:
    [try: mkdir(name)  except OSError: if not path.isdir(name): raise] *)
Definition mkdir_exist_ok (name : str) (d : Disk) : option OSError * Disk :=
  match os_mkdir name d with
  | (Some e, d') => if path_isdir d' name then (None, d') else (Some e, d')
  | r => r
  end.

(** The head and the tail that [os.makedirs] looks at. *)
Definition makedirs_split (name : str) : str * str :=
  let '(head, tail) := os_path_split name in
  if bool_decide (tail = []) then os_path_split head else (head, tail).

(** [os.makedirs(name, exist_ok=True)].  The call for the head is on a
    shorter name; [fuel] bounds the depth of these calls. *)
Fixpoint makedirs_go (fuel : nat) (name : str) (d : Disk) : option OSError * Disk :=
  let '(head, tail) := makedirs_split name in
  if bool_decide (head ≠ []) && bool_decide (tail ≠ []) && negb (path_exists d head)
  then
    match fuel with
    | O => (Some (FileNotFoundError name), d)
    | S fuel' =>
        match makedirs_go fuel' head d with
        | (Some (FileExistsError _), d') | (None, d') =>
            if bool_decide (tail = ".") then (None, d') else mkdir_exist_ok name d'
        | raised => raised
        end
    end
  else mkdir_exist_ok name d.

Definition os_makedirs (name : str) (d : Disk) : option OSError * Disk :=
  makedirs_go (length name) name d.

Definition makedirs (name : str) : Prog unit :=
  λ d,
    match os_makedirs name d with
    | (Some e, d') => (Exc (OSError_raised e), [], d')
    | (None, d') => (Ret tt, [], d')
    end.

(** ** gui_run_web.py *)

(** The loop of lines 42-48. *)
Fixpoint check_packages (h : Host) (required_packages missing_packages : list str)
    : Prog (list str) :=
  match required_packages with
  | [] => prog_ret missing_packages
  | package :: rest =>
      match import_error h package with
      | None =>
          print (("✓ " : str) ++ package ++ (" installed" : str)) ;;
          check_packages h rest missing_packages
      | Some _ =>
          print (("✗ " : str) ++ package ++ (" missing" : str)) ;;
          check_packages h rest (missing_packages ++ [package])
      end
  end.

Definition required_packages : list str := ["flask" : str; "werkzeug" : str].

Definition check_dependencies (h : Host) : Prog bool :=
  print "Checking dependencies..." ;;
  missing_packages <- check_packages h required_packages [] ;;
  if bool_decide (missing_packages ≠ []) then
    print (nl :: ("Installing missing packages: " : str)
             ++ Py.join ", " missing_packages) ;;
    call (PipInstall missing_packages) ;;
    if pip_install h missing_packages then
      print "✓ Dependencies installed successfully" ;;
      prog_ret true
    else
      print "✗ Failed to install dependencies" ;;
      prog_ret false
  else prog_ret true.

Definition directories : list str :=
  [ "uploads" : str;
    "output_audiobooks" : str;
    "Working_files" : str;
    "Working_files/generated_audio_clips" : str;
    "Working_files/temp_ebook" : str;
    "Final_combined_output_audio" : str;
    "tortoise" : str;
    "web_interface/static" : str;
    "web_interface/templates" : str ].

(** The loop of lines 76-78. *)
Fixpoint make_directories (todo : list str) : Prog unit :=
  match todo with
  | [] => prog_ret tt
  | directory :: rest =>
      makedirs directory ;;
      print (("✓ Directory ready: " : str) ++ directory) ;;
      make_directories rest
  end.

Definition setup_directories : Prog unit := make_directories directories.

(** [download_missing_booknlp_models] is in [sys.modules] when line 19 has
    imported it. *)
Definition initialize_models (h : Host) : Prog bool :=
  print "Initializing AI models..." ;;
  except_Exception
    ((if bool_decide (import_error h "download_missing_booknlp_models" = None)
      then print "✓ BookNLP models checked"
      else prog_ret tt) ;;
     except_ImportError
       (import_module h "TTS.api" ;;
        print "✓ TTS library available")
       (λ _, print "⚠ TTS library not available - will install later") ;;
     prog_ret true)
    (λ e,
       print (("⚠ Model initialization warning: " : str) ++ str_of_exception h e) ;;
       prog_ret true).

Definition get_local_ip (h : Host) : str :=
  match socket_address h with
  | Some ip => ip
  | None => "127.0.0.1"
  end.

(** [main()]: [Some 1], [Some 0] or [None] for a plain return.  The [try] of
    lines 165-178 around [app.run] catches [KeyboardInterrupt] and
    [Exception]; the [SystemExit] of werkzeug leaves [main]. *)
Definition main (h : Host) (WEB_SERVER_AVAILABLE : bool) : Prog (option Z) :=
  print "🎭 VoxNovel Web Interface Starting..." ;;
  print (replicate 50 "="%char) ;;
  ok <- check_dependencies h ;;
  if negb ok then
    print "❌ Failed to install dependencies" ;;
    prog_ret (Some 1%Z)
  else
    setup_directories ;;
    ok <- initialize_models h ;;
    if negb ok then
      print "❌ Failed to initialize models" ;;
      prog_ret (Some 1%Z)
    else if negb WEB_SERVER_AVAILABLE then
      print "❌ Web server not available" ;;
      print "  Please ensure web_server.py exists and Flask is installed" ;;
      prog_ret (Some 1%Z)
    else
      let local_ip := get_local_ip h in
      let port := 8080%Z in
      print (nl :: replicate 50 "="%char) ;;
      print "🚀 Starting VoxNovel Web Server..." ;;
      print (("📡 Local access: http://127.0.0.1:" : str) ++ Py.str_of_int port) ;;
      print (("📡 Network access: http://" : str) ++ local_ip ++ (":" : str)
               ++ Py.str_of_int port) ;;
      print (replicate 50 "="%char) ;;
      call (StartThread (("http://127.0.0.1:" : str) ++ Py.str_of_int port)) ;;
      call (AppRun "0.0.0.0" port) ;;
      match app_run h with
      | ServerReturns => prog_ret None
      | KeyboardInterrupt =>
          print (nl :: ("👋 VoxNovel Web Server stopped by user" : str)) ;;
          prog_ret (Some 0%Z)
      | ServerRaises e =>
          print (nl :: ("❌ Error running web server: " : str) ++ e) ;;
          prog_ret (Some 1%Z)
      | ServerExits => prog_raise (SystemExit 1)
      end.

(** The module body of web_server.py, lines 6-47, as far as it can end an
    import: the imports of flask and werkzeug, the folders, the VoxNovel
    modules.  It gives [VOXNOVEL_AVAILABLE]. *)
Definition import_web_server (h : Host) : Prog bool :=
  import_module h "flask" ;;
  import_module h "werkzeug.utils" ;;
  match app_folders h with
  | Some e => prog_raise (OSError_raised e)
  | None => prog_ret tt
  end ;;
  except_ImportError
    (import_module h "download_missing_booknlp_models" ;;
     import_module h "headless_voxnovel" ;;
     prog_ret true)
    (λ e,
       print (("Warning: VoxNovel modules not available: " : str) ++ e) ;;
       prog_ret false).

(** The module body of gui_run_web.py, lines 14-32.  It gives
    [WEB_SERVER_AVAILABLE]. *)
Definition import_gui_run_web (h : Host) : Prog bool :=
  except_ImportError
    (import_module h "download_missing_booknlp_models" ;;
     print "✓ BookNLP modules initialized")
    (λ e, print (("⚠ Warning: Could not import BookNLP modules: " : str) ++ e)) ;;
  except_ImportError
    (import_web_server h ;;
     print "✓ Web server module available" ;;
     prog_ret true)
    (λ e,
       print (("⚠ Warning: Could not import web server: " : str) ++ e) ;;
       print "  Make sure web_server.py and Flask are installed" ;;
       prog_ret false).

(** [sys.exit(code)]: [None] is exit status 0. *)
Definition sys_exit (code : option Z) : Z :=
  match code with
  | Some n => n
  | None => 0
  end.

(** gui_run_web.py run as a script, lines 14-32 and 180-182.  A
    [SystemExit] ends the interpreter with its code, another exception that
    nothing catches with exit status 1. *)
Definition gui_run_web (h : Host) (d : Disk) : Z * list Did * Disk :=
  match (WEB_SERVER_AVAILABLE <- import_gui_run_web h ;;
         main h WEB_SERVER_AVAILABLE) d with
  | (Ret exit_code, did, d') => (sys_exit exit_code, did, d')
  | (Exc (SystemExit code), did, d') => (code, did, d')
  | (Exc _, did, d') => (1, did, d')
  end.

(** start_web_gui.py, lines 7-31: [except ImportError], then
    [except Exception], which a [SystemExit] passes. *)
Definition start_web_gui (h : Host) (d : Disk) : Z * list Did * Disk :=
  match (import_module h "gui_run_web" ;;
         WEB_SERVER_AVAILABLE <- import_gui_run_web h ;;
         print "🎭 VoxNovel Web GUI Launcher" ;;
         print (replicate 40 "="%char) ;;
         main h WEB_SERVER_AVAILABLE) d with
  | (Ret exit_code, did, d') => (sys_exit exit_code, did, d')
  | (Exc (ImportError e), did, d') =>
      (1,
       did ++ [Printed (("❌ Could not import web GUI: " : str) ++ e);
               Printed "Make sure all dependencies are installed:";
               Printed "  pip install flask werkzeug"],
       d')
  | (Exc (SystemExit code), did, d') => (code, did, d')
  | (Exc e, did, d') =>
      (1, did ++ [Printed (("❌ Error starting web GUI: " : str) ++ str_of_exception h e)], d')
  end.

(** ** What is said about a run of a launcher *)

Definition printed (did : list Did) : list str :=
  omap (λ e, match e with Printed line => Some line | _ => None end) did.

(** A line that reports a failure: it starts with the cross mark, after the
    line feeds. *)
Definition reports_failure (line : str) : bool :=
  bool_decide (take 3 (Py.lstrip [nl] line) = ("❌" : str)).

(** The paths that [setup_directories] needs to be directories. *)
Definition needed_directories : list str :=
  [ "uploads" : str;
    "output_audiobooks" : str;
    "Working_files" : str;
    "Working_files/generated_audio_clips" : str;
    "Working_files/temp_ebook" : str;
    "Final_combined_output_audio" : str;
    "tortoise" : str;
    "web_interface" : str;
    "web_interface/static" : str;
    "web_interface/templates" : str ].

Definition is_regular_file (d : Disk) (p : str) : Prop :=
  ∃ content, d !! p = Some (RegularFile content).

(** The packages of [required_packages] that do not import. *)
Definition missing (h : Host) : list str :=
  filter (λ package, import_error h package ≠ None) required_packages.

(** ** Concrete hosts *)

Definition no_module (name : str) : str :=
  ("No module named '" : str) ++ name ++ ("'" : str).

(** A host on which every module of [absent] is missing. *)
Definition host_without (absent : list str) (pip : bool) (served : Served) : Host :=
  {| import_error := λ name, if bool_decide (name ∈ absent) then Some (no_module name) else None;
     pip_install := λ _, pip;
     app_folders := None;
     socket_address := Some ("192.168.1.20" : str);
     app_run := served;
     describe := λ e,
       match e with
       | FileExistsError p => ("[Errno 17] File exists: '" : str) ++ p ++ ("'" : str)
       | FileNotFoundError p => ("[Errno 2] No such file or directory: '" : str) ++ p ++ ("'" : str)
       | NotADirectoryError p => ("[Errno 20] Not a directory: '" : str) ++ p ++ ("'" : str)
       | PermissionError p => ("[Errno 13] Permission denied: '" : str) ++ p ++ ("'" : str)
       end |}.

Definition complete_host : Host := host_without [] true KeyboardInterrupt.

Definition fresh_host : Host := host_without ["flask" : str; "werkzeug" : str; "werkzeug.utils" : str] true KeyboardInterrupt.

Definition blocked_disk : Disk := {[ ("web_interface" : str) := RegularFile ("not a folder" : str) ]}.

Definition is_file (d : Disk) (p : str) : bool :=
  match d !! p with
  | Some (RegularFile _) => true
  | _ => false
  end.

(** The lines of [did] that report a failure. *)
Definition alarms (did : list Did) : list str :=
  filter (λ line, reports_failure line = true) (printed did).

Definition pip_calls (did : list Did) : list (list str) :=
  omap (λ e, match e with PipInstall packages => Some packages | _ => None end) did.

Definition app_runs (did : list Did) : list (str * Z) :=
  omap (λ e, match e with AppRun host port => Some (host, port) | _ => None end) did.

Definition threads_started (did : list Did) : list str :=
  omap (λ e, match e with StartThread url => Some url | _ => None end) did.

(** Nothing lies below a regular file or below a name that is free. *)
Definition well_formed (d : Disk) : Prop :=
  map_Forall
    (λ p _, (os_path_split p).1 = [] ∨ d !! (os_path_split p).1 = Some Directory) d.

Definition blocked (d : Disk) : Prop :=
  Exists (λ p, is_file d p = true) needed_directories.

Definition with_directories (d : Disk) : Disk :=
  foldr (λ p, <[p := Directory]>) d needed_directories.

Definition ready_lines : list Did :=
  (λ directory, Printed (("✓ Directory ready: " : str) ++ directory)) <$> directories.

Definition dependencies_ok (h : Host) : bool :=
  bool_decide (missing h = []) || pip_install h (missing h).

(** Nothing but lines that report no failure. *)
Definition only_calm_prints (did : list Did) : Prop :=
  Forall (λ e, ∃ line, e = Printed line ∧ reports_failure line = false) did.

(** Whether the web server module can be imported: lines 13, 14 and 28-29 of
    web_server.py. *)
Definition web_server_imports (h : Host) : bool :=
  bool_decide (import_error h "flask" = None ∧ import_error h "werkzeug.utils" = None).

(** [app.run] returns or is interrupted from the keyboard. *)
Definition serves_cleanly (h : Host) : bool :=
  match app_run h with
  | ServerReturns | KeyboardInterrupt => true
  | ServerRaises _ | ServerExits => false
  end.

(** What [main] needs to get to [app.run]. *)
Definition server_ready (h : Host) (d : Disk) : Prop :=
  web_server_imports h = true ∧ app_folders h = None
  ∧ dependencies_ok h = true ∧ ¬ blocked d.

(** Concrete inputs of the download and listing routes. *)
Definition stamp : str → str := λ _, "2026-01-01 00:00:00".

Definition book_audiobook : str := "book_audiobook.m4b".


(** * Properties *)

(** ** Splitting at the last separator *)

Lemma rsplit_once_None sep s : Py.rsplit_once sep s = None ↔ sep ∉ s.
Proof.
  induction s as [|c s IH]; simpl.
  - split; [intros _; apply not_elem_of_nil | done].
  - destruct (Py.rsplit_once sep s) as [[a b]|] eqn:E.
    + split; [done|]. intros Hn. exfalso.
      assert (sep ∉ s) as Hs by (intros ?; apply Hn; by right).
      apply IH in Hs. done.
    + destruct (decide (c = sep)) as [->|Hne].
      * split; [done|]. intros Hn. exfalso. apply Hn. by left.
      * split; [|done]. intros _ Hin. apply elem_of_cons in Hin as [?|Hin]; [done|].
        by apply IH in Hin.
Qed.

Lemma rsplit_once_app sep a b :
  sep ∉ b → Py.rsplit_once sep (a ++ sep :: b) = Some (a, b).
Proof.
  intros Hb. induction a as [|x a IH]; simpl.
  - apply rsplit_once_None in Hb. rewrite Hb. by rewrite decide_True.
  - by rewrite IH.
Qed.

Lemma rsplit_once_inv sep s a b :
  Py.rsplit_once sep s = Some (a, b) → s = a ++ sep :: b ∧ sep ∉ b.
Proof.
  revert a b. induction s as [|c s IH]; intros a b; simpl; [done|].
  destruct (Py.rsplit_once sep s) as [[a' b']|] eqn:E.
  - intros [= <- <-]. destruct (IH a' b' eq_refl) as [-> Hb]. done.
  - apply rsplit_once_None in E.
    destruct (decide (c = sep)) as [->|Hne]; [|done].
    intros [= <- <-]. done.
Qed.

(** The second part of [rsplit] exists as soon as the separator occurs. *)
Lemma rsplit1_second sep s :
  Py.contains sep s = true → is_Some (Py.rsplit1 sep s !! 1%nat).
Proof.
  unfold Py.contains, Py.rsplit1. intros Hc%bool_decide_eq_true.
  destruct (Py.rsplit_once sep s) as [[a b]|] eqn:E; [by eexists|].
  by apply rsplit_once_None in E.
Qed.

Lemma rsplit_once_fmap (f : ascii → ascii) sep (s : str) :
  (∀ c, f c = sep ↔ c = sep) →
  Py.rsplit_once sep (f <$> s)
  = prod_map (fmap (M:=list) f) (fmap (M:=list) f) <$> Py.rsplit_once sep s.
Proof.
  intros Hf. induction s as [|c s IH]; [done|].
  rewrite fmap_cons. cbn [Py.rsplit_once]. rewrite IH.
  destruct (Py.rsplit_once sep s) as [[a b]|]; [done|].
  cbn [fmap option_fmap option_map]. destruct (decide (c = sep)) as [->|Hne].
  - rewrite decide_True by by apply Hf. done.
  - rewrite decide_False; [done|]. by rewrite Hf.
Qed.

Lemma lower_char_dot c : Py.lower_char c = "."%char ↔ c = "."%char.
Proof.
  destruct c as [[] [] [] [] [] [] [] []]; vm_compute; split; congruence.
Qed.

Lemma lower_char_idemp c : Py.lower_char (Py.lower_char c) = Py.lower_char c.
Proof. by destruct c as [[] [] [] [] [] [] [] []]. Qed.

Lemma lower_idemp s : Py.lower (Py.lower s) = Py.lower s.
Proof.
  unfold Py.lower. rewrite <- list_fmap_compose.
  apply list_fmap_ext. intros _ c _. apply lower_char_idemp.
Qed.

Lemma lower_app s t : Py.lower (s ++ t) = Py.lower s ++ Py.lower t.
Proof. apply fmap_app. Qed.

Lemma contains_true c s : Py.contains c s = true ↔ c ∈ s.
Proof. apply bool_decide_eq_true. Qed.

Lemma contains_false c s : Py.contains c s = false ↔ c ∉ s.
Proof. apply bool_decide_eq_false. Qed.

(** [allowed_file] in terms of the split at the last dot. *)
Lemma allowed_file_split pre ext :
  "."%char ∉ ext →
  allowed_file (pre ++ "." ++ ext) = bool_decide (Py.lower ext ∈ ALLOWED_EXTENSIONS).
Proof.
  intros Hext. unfold allowed_file, Py.rsplit1.
  change (pre ++ "." ++ ext) with (pre ++ "."%char :: ext).
  rewrite rsplit_once_app by done. simpl.
  replace (Py.contains "." (pre ++ "."%char :: ext)) with true; [done|].
  symmetry. apply contains_true. set_solver.
Qed.

Lemma allowed_file_lower name : allowed_file (Py.lower name) = allowed_file name.
Proof.
  unfold allowed_file, Py.rsplit1, Py.lower at 1 2.
  rewrite (rsplit_once_fmap _ _ _ lower_char_dot).
  assert (Py.contains "." (Py.lower_char <$> name) = Py.contains "." name) as ->.
  { apply bool_decide_ext. rewrite list_elem_of_fmap. split.
    - intros (c & Hc & Hin). symmetry in Hc. apply (proj1 (lower_char_dot c)) in Hc. by subst.
    - intros Hin. exists "."%char. done. }
  destruct (Py.rsplit_once "." name) as [[a b]|]; simpl; [|done].
  fold (Py.lower b). by rewrite lower_idemp.
Qed.

Lemma allowed_file_inv name :
  allowed_file name = true →
  ∃ pre ext, name = pre ++ "." ++ ext ∧ ("."%char ∉ ext)
             ∧ (Py.lower ext ∈ ALLOWED_EXTENSIONS).
Proof.
  unfold allowed_file, Py.rsplit1. intros [Hc Hm]%andb_prop.
  destruct (Py.rsplit_once "." name) as [[a b]|] eqn:E; simpl in Hm; [|done].
  apply rsplit_once_inv in E as [-> Hb].
  exists a, b. split_and!; [done|done|]. by apply bool_decide_eq_true in Hm.
Qed.

(** C7: [allowed_file name] is true exactly when [name] has a '.' and the
    text after its last '.', lower-cased, is one of epub, pdf, mobi, txt,
    html, rtf, fb2, odt, cbr, cbz; the answer depends on the extension only
    through its lower-cased form. *)
Theorem allowed_file_spec (name : str) :
  (allowed_file name = true ↔
     ∃ pre ext, name = pre ++ "." ++ ext ∧ ("."%char ∉ ext)
                ∧ (Py.lower ext ∈ ALLOWED_EXTENSIONS))
  ∧ (∀ pre ext, allowed_file (pre ++ "." ++ ext)
                = allowed_file (pre ++ "." ++ Py.lower ext))
  ∧ ALLOWED_EXTENSIONS
    = list_to_set ["epub" : str; "pdf" : str; "mobi" : str; "txt" : str; "html" : str;
                   "rtf" : str; "fb2" : str; "odt" : str; "cbr" : str; "cbz" : str].
Proof.
  split; [|split].
  - split.
    + apply allowed_file_inv.
    + intros (pre & ext & -> & Hext & Hm).
      rewrite allowed_file_split by done. by apply bool_decide_eq_true.
  - intros pre ext.
    rewrite <- (allowed_file_lower (pre ++ "." ++ ext)).
    rewrite <- (allowed_file_lower (pre ++ "." ++ Py.lower ext)).
    by rewrite !lower_app, lower_idemp.
  - apply set_eq. intros x. unfold ALLOWED_EXTENSIONS. set_solver.
Qed.

(** ** Stripping, splitting and joining *)

Lemma lstrip_suffix chars s : Py.lstrip chars s `suffix_of` s.
Proof.
  induction s as [|c s IH]; simpl; [done|].
  destruct (Py.contains c chars); [by apply suffix_cons_r | done].
Qed.

Lemma lstrip_head chars s c :
  head (Py.lstrip chars s) = Some c → c ∉ chars.
Proof.
  induction s as [|x s IH]; simpl; [done|].
  destruct (Py.contains x chars) eqn:E; [done|].
  simpl. intros [= <-]. by apply contains_false.
Qed.

Lemma lstrip_keeps chars s c : c ∈ s → c ∉ chars → c ∈ Py.lstrip chars s.
Proof.
  intros Hin Hc. induction s as [|x s IH]; simpl; [done|].
  destruct (Py.contains x chars) eqn:E; [|done].
  apply elem_of_cons in Hin as [->|Hin]; [|by apply IH].
  apply contains_true in E. done.
Qed.

Lemma rstrip_prefix chars s : Py.rstrip chars s `prefix_of` s.
Proof.
  unfold Py.rstrip. rewrite <- (reverse_involutive s) at 2.
  apply suffix_prefix_reverse, lstrip_suffix.
Qed.

Lemma rstrip_keeps chars s c : c ∈ s → c ∉ chars → c ∈ Py.rstrip chars s.
Proof.
  intros Hin Hc. unfold Py.rstrip. apply elem_of_reverse.
  apply lstrip_keeps; [|done]. by apply elem_of_reverse.
Qed.

Lemma strip_keeps chars s c : c ∈ s → c ∉ chars → c ∈ Py.strip chars s.
Proof. intros. apply rstrip_keeps; [|done]. by apply lstrip_keeps. Qed.

Lemma strip_Forall (P : ascii → Prop) chars s : Forall P s → Forall P (Py.strip chars s).
Proof.
  intros Hs. unfold Py.strip.
  destruct (rstrip_prefix chars (Py.lstrip chars s)) as [k1 E1].
  destruct (lstrip_suffix chars s) as [k2 E2].
  rewrite E2, E1 in Hs. apply Forall_app in Hs as [_ Hs].
  by apply Forall_app in Hs as [Hs _].
Qed.

Lemma strip_head chars s c : head (Py.strip chars s) = Some c → c ∉ chars.
Proof.
  unfold Py.strip. intros Hh.
  destruct (rstrip_prefix chars (Py.lstrip chars s)) as [k E].
  apply (lstrip_head chars s). rewrite E.
  destruct (Py.rstrip chars (Py.lstrip chars s)); [done|]. done.
Qed.

Lemma split_go_keeps cur s c :
  Py.is_space c = false → c ∈ cur ++ s → ∃ w, w ∈ Py.split_go cur s ∧ c ∈ w.
Proof.
  intros Hc. revert cur. induction s as [|x s IH]; intros cur Hin; simpl.
  - rewrite app_nil_r in Hin. destruct (decide (cur = [])) as [->|?].
    + by apply elem_of_nil in Hin.
    + exists cur. split; [by left|done].
  - destruct (Py.is_space x) eqn:Ex.
    + apply elem_of_app in Hin as [Hin|Hin].
      * destruct (decide (cur = [])) as [->|?]; [by apply elem_of_nil in Hin|].
        exists cur. split; [by left|done].
      * apply elem_of_cons in Hin as [->|Hin]; [congruence|].
        destruct (IH [] Hin) as (w & Hw & Hcw).
        exists w. split; [|done].
        destruct (decide (cur = [])); [done|by right].
    + apply IH. rewrite <- app_assoc. done.
Qed.

Lemma join_keeps sep parts w c : w ∈ parts → c ∈ w → c ∈ Py.join sep parts.
Proof.
  intros Hw Hc. revert Hw. induction parts as [|p ps IH]; intros Hw.
  { by apply elem_of_nil in Hw. }
  destruct (proj1 (elem_of_cons _ _ _) Hw) as [->|Hw'].
  - destruct ps; [done|]. apply elem_of_app. by left.
  - destruct ps as [|q ps]; [by apply elem_of_nil in Hw'|].
    change (c ∈ p ++ sep ++ Py.join sep (q :: ps)).
    apply elem_of_app. right. apply elem_of_app. right. by apply IH.
Qed.

Lemma replace_keeps old new s c : c ≠ old → c ∈ s → c ∈ Py.replace old new s.
Proof.
  intros Hne Hin. unfold Py.replace. apply list_elem_of_fmap.
  exists c. split; [|done]. by rewrite decide_False.
Qed.

(** ** Paths *)

Lemma os_path_join_folder (folder name : str) :
  folder ≠ [] → last folder ≠ Some "/"%char → head name ≠ Some "/"%char →
  Py.os_path_join folder name = folder ++ "/" ++ name.
Proof.
  intros Hf Hl Hn. unfold Py.os_path_join.
  rewrite decide_False by done. rewrite decide_False by done.
  destruct name as [|c name]; [done|].
  destruct (decide (c = "/"%char)) as [->|Hc]; [done|].
  destruct c as [[] [] [] [] [] [] [] []]; done.
Qed.

Lemma rfind_app sep a b : sep ∉ b → Py.rfind sep (a ++ sep :: b) = Z.of_nat (length a).
Proof. intros Hb. unfold Py.rfind. by rewrite rsplit_once_app. Qed.

Lemma os_path_basename_join (folder name : str) :
  "/"%char ∉ name → Py.os_path_basename (folder ++ "/" ++ name) = name.
Proof.
  intros Hn. unfold Py.os_path_basename, Py.slice_from.
  change (folder ++ "/" ++ name) with (folder ++ "/"%char :: name).
  rewrite rfind_app by done.
  replace (Z.to_nat (Z.of_nat (length folder) + 1)) with (length (folder ++ ["/"%char])).
  - rewrite (cons_middle "/"%char folder name), app_assoc. apply drop_app_length.
  - rewrite length_app. simpl. lia.
Qed.

Lemma os_path_basename_no_sep p : "/"%char ∉ Py.os_path_basename p.
Proof.
  unfold Py.os_path_basename, Py.slice_from, Py.rfind.
  destruct (Py.rsplit_once "/" p) as [[a b]|] eqn:E.
  - apply rsplit_once_inv in E as [-> Hb].
    replace (Z.to_nat (Z.of_nat (length a) + 1)) with (length (a ++ ["/"%char])).
    + rewrite (cons_middle "/"%char a b), app_assoc. by rewrite drop_app_length.
    + rewrite length_app. simpl. lia.
  - apply rsplit_once_None in E. simpl. by rewrite drop_0.
Qed.

(** [splitext] cuts its argument in two, and the second part is empty or is
    the last dot with the dot-free text that follows it. *)
Lemma os_path_splitext_spec p root ext :
  Py.os_path_splitext p = (root, ext) →
  p = root ++ ext ∧ (ext = [] ∨ ∃ e, ext = "."%char :: e ∧ "."%char ∉ e).
Proof.
  unfold Py.os_path_splitext.
  destruct (_ && _) eqn:C; intros [= <- <-].
  - apply andb_prop in C as [C _]. apply Z.ltb_lt in C.
    unfold Py.slice_to, Py.slice_from. split; [by rewrite take_drop|].
    right. unfold Py.rfind in *.
    destruct (Py.rsplit_once "." p) as [[a b]|] eqn:E.
    + apply rsplit_once_inv in E as [-> Hb]. exists b.
      rewrite Nat2Z.id, drop_app_length. done.
    + exfalso. destruct (Py.rsplit_once "/" p) as [[a b]|]; lia.
  - split; [by rewrite app_nil_r | by left].
Qed.

(** ** The sanitised file name *)

Section Handler.
Context {rt : Runtime}.

Lemma secure_filename_chars name :
  Forall (λ c, filename_char c = true) (secure_filename name).
Proof.
  unfold secure_filename. apply strip_Forall.
  apply Forall_forall. intros c Hc. by apply list_elem_of_filter in Hc as [Hc _].
Qed.

Lemma secure_filename_head name c :
  head (secure_filename name) = Some c → c ≠ "."%char ∧ c ≠ "_"%char.
Proof.
  unfold secure_filename. intros Hh%strip_head.
  split; intros ->; apply Hh; set_solver.
Qed.

Lemma secure_filename_no_sep name : "/"%char ∉ secure_filename name.
Proof.
  intros Hin. pose proof (secure_filename_chars name) as Hall.
  rewrite Forall_forall in Hall. by apply Hall in Hin.
Qed.

Lemma last_is_alnum (ext : str) :
  Py.lower ext ∈ ALLOWED_EXTENSIONS → ∃ e c, ext = e ++ [c] ∧ Py.is_alnum c = true.
Proof.
  intros Hm. destruct ext as [|x ext] using rev_ind.
  { exfalso. unfold ALLOWED_EXTENSIONS in Hm.
    rewrite !elem_of_union, !elem_of_singleton in Hm.
    by repeat (destruct Hm as [Hm|Hm]). }
  clear IHext. exists ext, x. split; [done|].
  assert (Py.is_alnum (Py.lower_char x) = true) as Hl.
  { assert (last (Py.lower (ext ++ [x])) = Some (Py.lower_char x)) as Hlast.
    { rewrite lower_app. apply last_snoc. }
    remember (Py.lower_char x) as y eqn:Ey. clear Ey.
    unfold ALLOWED_EXTENSIONS in Hm.
    rewrite !elem_of_union, !elem_of_singleton in Hm.
    repeat (destruct Hm as [Hm|Hm]);
      rewrite Hm in Hlast; vm_compute in Hlast; by simplify_eq. }
  revert Hl. by destruct x as [[] [] [] [] [] [] [] []].
Qed.

Lemma alnum_facts c :
  Py.is_alnum c = true →
  is_ascii c = true ∧ c ≠ "/"%char ∧ Py.is_space c = false
  ∧ filename_char c = true ∧ c ∉ (["."; "_"]%char : str).
Proof.
  destruct c as [[] [] [] [] [] [] [] []]; cbv; intros; try done;
    split_and!; try done; intros Hin; repeat (apply elem_of_cons in Hin as [Hin|Hin]; [done|]);
    by apply elem_of_nil in Hin.
Qed.

(** A name that [allowed_file] accepts keeps at least the last character of
    its extension. *)
Lemma secure_filename_allowed name :
  allowed_file name = true → secure_filename name ≠ [].
Proof.
  intros Ha. apply allowed_file_inv in Ha as (pre & ext & -> & _ & Hm).
  apply last_is_alnum in Hm as (e & c & -> & Hc).
  apply alnum_facts in Hc as (Hascii & Hsep & Hsp & Hfc & Hstrip).
  assert (c ∈ secure_filename (pre ++ "." ++ e ++ [c])) as Hin.
  { unfold secure_filename.
    apply strip_keeps; [|done].
    apply list_elem_of_filter. split; [done|].
    destruct (split_go_keeps [] (Py.replace "/" " " (nfkd_ascii (pre ++ "." ++ e ++ [c]))) c Hsp)
      as (w & Hw & Hcw).
    { rewrite app_nil_l. apply replace_keeps; [done|].
      replace (pre ++ "." ++ e ++ [c]) with ((pre ++ "." ++ e) ++ [c])
        by (by rewrite <- !app_assoc).
      rewrite nfkd_ascii_keeps by done. apply elem_of_app. right. by left. }
    by eapply join_keeps. }
  intros E. rewrite E in Hin. by apply elem_of_nil in Hin.
Qed.

Lemma upload_path name :
  Py.os_path_join UPLOAD_FOLDER (secure_filename name)
  = UPLOAD_FOLDER ++ "/" ++ secure_filename name.
Proof.
  apply os_path_join_folder; [done|by cbv|].
  intros Hh. destruct (secure_filename name) as [|c s] eqn:E; [done|].
  simpl in Hh. simplify_eq. pose proof (secure_filename_no_sep name) as Hn.
  apply Hn. rewrite E. by left.
Qed.

Lemma upload_path_inside name :
  secure_filename name ≠ [] →
  inside UPLOAD_FOLDER (UPLOAD_FOLDER ++ "/" ++ secure_filename name).
Proof.
  intros Hne. exists (secure_filename name).
  split_and!; [done|done|apply secure_filename_no_sep|..];
    intros E; destruct (secure_filename_head name "."%char) as [Hd _];
    rewrite ?E; done.
Qed.

Lemma last_upload_path name :
  last (UPLOAD_FOLDER ++ "/" ++ secure_filename name) = Some "/"%char
  ↔ secure_filename name = [].
Proof.
  split.
  - destruct (secure_filename name) as [|c s] eqn:E using rev_ind; [done|].
    rewrite !app_assoc, last_snoc. intros [= ->].
    exfalso. apply (secure_filename_no_sep name). rewrite E. set_solver.
  - by intros ->.
Qed.

(** What the handler does to a request that passes all its checks. *)
Lemma upload_file_accepted (req : Request) (file : FileStorage) (g : Shared) opts :
  truthy (current_job g) = false →
  req_files req !! ("file" : str) = Some file →
  allowed_file (filename file) = true →
  read_options (req_form req) = Some opts →
  upload_file req g =
    let name := secure_filename (filename file) in
    let path := UPLOAD_FOLDER ++ "/" ++ name in
    {| outcome := Respond 200 [("message" : str, "File uploaded and processing started" : str);
                               ("filename" : str, name)];
       after := {| current_job := current_job g; job_status := job_status g;
                   files := <[path := stream file]> (files g) |};
       spawned := Some {| filepath := path; options := opts; pc := AtEntry |} |}.
Proof.
  intros Hidle Hfile Hallowed Hopts. unfold upload_file.
  rewrite Hidle, Hfile.
  assert (filename file ≠ []) as Hne.
  { intros E. rewrite E in Hallowed. done. }
  rewrite decide_False by done.
  rewrite bool_decide_true by done. rewrite Hallowed. simpl.
  unfold file_save. rewrite upload_path.
  rewrite decide_False.
  2: { rewrite last_upload_path. by apply secure_filename_allowed. }
  by rewrite Hopts.
Qed.

End Handler.

(** ** The upload handler *)

Section Upload.
Context {rt : Runtime}.

(** The handler never writes [current_job] or [job_status]. *)
Lemma upload_file_frame req g :
  current_job (after (upload_file req g)) = current_job g
  ∧ job_status (after (upload_file req g)) = job_status g.
Proof.
  unfold upload_file, reject.
  repeat (case_match; simpl; try done).
Qed.

Lemma os_path_join_nonempty a b : a ≠ [] → Py.os_path_join a b ≠ [].
Proof.
  intros Ha. unfold Py.os_path_join.
  repeat (case_match; try done); subst; try (by destruct a).
Qed.

Lemma upload_file_spawned req g wk :
  spawned (upload_file req g) = Some wk → filepath wk ≠ [] ∧ pc wk = AtEntry.
Proof.
  unfold upload_file, reject.
  repeat (case_match; simpl; try done).
  intros [= <-]. simpl. split; [|done]. by apply os_path_join_nonempty.
Qed.

(** The base name of a worker's file path is the sanitised name of the
    upload. *)
Lemma upload_file_basename req g file wk :
  req_files req !! ("file" : str) = Some file →
  spawned (upload_file req g) = Some wk →
  Py.os_path_basename (filepath wk) = secure_filename (filename file).
Proof.
  intros Hfile. unfold upload_file, reject. rewrite Hfile.
  repeat (case_match; simpl; try done).
  intros [= <-]. simpl. rewrite upload_path.
  apply os_path_basename_join, secure_filename_no_sep.
Qed.

(** The handler either rejects the request and changes nothing, or the
    file name is allowed and the file is saved under its sanitised name. *)
Lemma upload_file_cases req g :
  (∃ msg, upload_file req g = reject g msg)
  ∨ ∃ file, req_files req !! ("file" : str) = Some file
      ∧ allowed_file (filename file) = true
      ∧ files (after (upload_file req g))
        = <[UPLOAD_FOLDER ++ "/" ++ secure_filename (filename file) := stream file]> (files g).
Proof.
  unfold upload_file.
  destruct (truthy (current_job g)); [left; by eexists|].
  destruct (req_files req !! ("file" : str)) as [file|] eqn:Ef; [|left; by eexists].
  destruct (decide (filename file = [])); [left; by eexists|].
  destruct (bool_decide _ && allowed_file _) eqn:Ea; [|left; by eexists].
  apply andb_prop in Ea as [_ Ea].
  unfold file_save. rewrite upload_path.
  rewrite decide_False.
  2: { rewrite last_upload_path. by apply secure_filename_allowed. }
  right. exists file. split_and!; [done|done|].
  by destruct (read_options (req_form req)).
Qed.

(** ** Reachable states of the server *)

Lemma sys_run_snoc w acts a : sys_run w (acts ++ [a]) = sys_step (sys_run w acts) a.
Proof. unfold sys_run. by rewrite foldl_app. Qed.

Lemma reachable_ind (P : World → Prop) :
  P initial_world →
  (∀ w a, reachable w → P w → P (sys_step w a)) →
  ∀ w, reachable w → P w.
Proof.
  intros Hinit Hstep w [acts <-].
  induction acts as [|a acts IH] using rev_ind; [done|].
  rewrite sys_run_snoc. apply Hstep; [by exists acts | done].
Qed.

(** The token a worker writes is its own file path or [None]. *)
Lemma worker_next_token seen ev fp pc pc' t :
  worker_next seen ev fp pc = (pc', SetToken t) → t = Some fp ∨ t = None.
Proof.
  unfold worker_next, guarded.
  repeat (case_match; try done); intros [= <- <-]; auto.
Qed.

Lemma reachable_tokens_nonempty w : reachable w → tokens_nonempty w.
Proof.
  revert w. apply reachable_ind.
  - split; [done|]. constructor.
  - intros w a _ [Htok Hthr]. unfold tokens_nonempty.
    destruct a as [req|tid ev]; simpl.
    + split.
      * intros fp. destruct (upload_file_frame req (shared w)) as [-> _]. apply Htok.
      * apply Forall_app. split; [done|].
        destruct (spawned (upload_file req (shared w))) as [wk|] eqn:E; simpl; [|constructor].
        apply upload_file_spawned in E as [? _]. by repeat constructor.
    + destruct (threads w !! tid) as [wk|] eqn:Ewk; [|done].
      assert (filepath wk ≠ []) as Hwk.
      { rewrite Forall_forall in Hthr. apply Hthr. by eapply list_elem_of_lookup_2. }
      destruct (worker_next _ _ _ _) as [pc' eff] eqn:En. split; simpl.
      * destruct eff; simpl; try done.
        apply worker_next_token in En as [->| ->]; intros fp; [by intros [= <-]|done].
      * apply Forall_insert; [done|]. done.
Qed.

(** On a reachable state the busy test [if current_job:] is the test
    [current_job is not None]. *)
Lemma reachable_truthy w :
  reachable w → truthy (current_job (shared w)) = true ↔ current_job (shared w) ≠ None.
Proof.
  intros [Htok _]%reachable_tokens_nonempty.
  destruct (current_job (shared w)) as [[|c fp]|] eqn:E; simpl; [|done|done].
  by destruct (Htok [] eq_refl).
Qed.

(** C1: an upload that arrives while [current_job] is set is answered
    with 400 and the "already running" error; the shared state (token, job
    record, folders) and the set of threads stay as they were. *)
Theorem busy_upload_rejected (w : World) (req : Request) :
  reachable w →
  current_job (shared w) ≠ None →
  upload_file req (shared w)
  = {| outcome := Respond 400 [("error" : str, "Another job is already running" : str)];
       after := shared w;
       spawned := None |}
  ∧ sys_step w (Upload req) = w.
Proof.
  intros Hr Hbusy. apply (reachable_truthy w Hr) in Hbusy.
  assert (upload_file req (shared w) = reject (shared w) "Another job is already running") as E.
  { unfold upload_file. by rewrite Hbusy. }
  split; [done|]. simpl. rewrite E. simpl. rewrite app_nil_r. by destruct w.
Qed.

(** C6, the part that holds: whatever the request, the handler either
    rejects it with 400 and changes nothing, or writes exactly one file, the
    uploaded bytes, at [UPLOAD_FOLDER/name] where [name] is the sanitised
    file name: it is not empty, consists of letters, digits, '_', '.' and
    '-' only, and does not begin with a dot, so the path stays inside the
    uploads folder.  Whatever was stored under that name before is replaced
    by the new bytes. *)
Theorem upload_saves_inside_uploads (req : Request) (g : Shared) :
  (∃ msg, upload_file req g = reject g msg)
  ∨ ∃ file name path,
      req_files req !! ("file" : str) = Some file
      ∧ allowed_file (filename file) = true
      ∧ name = secure_filename (filename file)
      ∧ path = UPLOAD_FOLDER ++ "/" ++ name
      ∧ Forall (λ c, filename_char c = true) name
      ∧ inside UPLOAD_FOLDER path
      ∧ files (after (upload_file req g)) = <[path := stream file]> (files g)
      ∧ files (after (upload_file req g)) !! path = Some (stream file).
Proof.
  destruct (upload_file_cases req g) as [E|(file & Hfile & Ha & E)]; [by left|].
  right. exists file, (secure_filename (filename file)),
    (UPLOAD_FOLDER ++ "/" ++ secure_filename (filename file)).
  split_and!; try done.
  - apply secure_filename_chars.
  - by apply upload_path_inside, secure_filename_allowed.
  - rewrite E. apply lookup_insert_eq.
Qed.

(** C10, with the checks that come first: when the server is idle and the
    request carries a file with an allowed name, a [silence_duration] field
    that [int] rejects makes the handler raise [ValueError]; by then the
    file is saved in the uploads folder, and no worker is started. *)
Theorem bad_silence_duration_raises (req : Request) (file : FileStorage) (g : Shared) (s : str) :
  truthy (current_job g) = false →
  req_files req !! ("file" : str) = Some file →
  allowed_file (filename file) = true →
  req_form req !! ("silence_duration" : str) = Some s →
  py_int s = None →
  upload_file req g
  = {| outcome := Raised ValueError;
       after := {| current_job := current_job g; job_status := job_status g;
                   files := <[UPLOAD_FOLDER ++ "/" ++ secure_filename (filename file)
                              := stream file]> (files g) |};
       spawned := None |}
  ∧ inside UPLOAD_FOLDER (UPLOAD_FOLDER ++ "/" ++ secure_filename (filename file)).
Proof.
  intros Hidle Hfile Hallowed Hs Hint.
  split; [|by apply upload_path_inside, secure_filename_allowed].
  unfold upload_file. rewrite Hidle, Hfile.
  assert (filename file ≠ []) as Hne.
  { intros E. rewrite E in Hallowed. done. }
  rewrite decide_False by done.
  rewrite bool_decide_true by done. rewrite Hallowed. simpl.
  unfold file_save. rewrite upload_path.
  rewrite decide_False.
  2: { rewrite last_upload_path. by apply secure_filename_allowed. }
  unfold read_options. rewrite Hs, Hint. done.
Qed.

End Upload.

(** ** Runs of the worker *)

Section Worker.
Context {rt : Runtime}.

Lemma worker_run_Done obs fp : worker_run obs fp Done = (Done, []).
Proof. by destruct obs. Qed.

Lemma worker_run_cons seen ev obs fp pc :
  pc ≠ Done →
  worker_run ((seen, ev) :: obs) fp pc
  = (let '(pc', eff) := worker_next seen ev fp pc in
     let '(pc'', effs) := worker_run obs fp pc' in
     (pc'', eff :: effs)).
Proof. by destruct pc. Qed.

(** Every step brings the worker closer to its end. *)
Lemma worker_next_decreases seen ev fp pc :
  pc ≠ Done → (remaining (worker_next seen ev fp pc).1 < remaining pc)%nat.
Proof.
  intros Hpc. destruct pc as [| |ph todo|ph i todo|ph i todo| | | | |e| |];
    try done; unfold worker_next, guarded;
    try (destruct VOXNOVEL_AVAILABLE); try (destruct (raises ev));
    try (destruct ph); try (destruct todo as [|j todo]);
    try (destruct (decide _)); simpl; lia.
Qed.

(** The worker returns: given as many steps as [remaining] counts, the run
    ends at [Done]. *)
Lemma worker_run_terminates obs fp pc :
  (remaining pc ≤ length obs)%nat → (worker_run obs fp pc).1 = Done.
Proof.
  revert pc. induction obs as [|[seen ev] obs IH]; intros pc Hlen.
  - destruct pc; simpl in *; try lia; try (destruct ph; lia). done.
  - destruct (decide (pc = Done)) as [->|Hpc]; [done|].
    rewrite worker_run_cons by done.
    pose proof (worker_next_decreases seen ev fp pc Hpc) as Hdec.
    destruct (worker_next seen ev fp pc) as [pc' eff]. simpl in Hdec.
    specialize (IH pc'). destruct (worker_run obs fp pc') as [pc'' effs].
    simpl in *. apply IH. lia.
Qed.

(** A step inside [try] either is the [finally] clause, which clears the
    token and ends the worker, or stays inside [try] and leaves the token
    alone. *)
Lemma in_try_step seen ev fp pc pc' eff :
  in_try pc → worker_next seen ev fp pc = (pc', eff) →
  (pc = AtFinally ∧ pc' = Done ∧ eff = SetToken None)
  ∨ (in_try pc' ∧ ∀ t, eff ≠ SetToken t).
Proof.
  intros [H1 H2]. unfold worker_next, guarded, in_try.
  repeat (case_match; try done); intros [= <- <-]; auto.
Qed.

Lemma run_ends_with_release obs fp pc effs :
  in_try pc → worker_run obs fp pc = (Done, effs) →
  ∃ mid, effs = mid ++ [SetToken None] ∧ Forall (λ e, ∀ t, e ≠ SetToken t) mid.
Proof.
  revert pc effs. induction obs as [|[seen ev] obs IH]; intros pc effs Htry.
  - destruct Htry. destruct pc; simpl; intros [= ]; done.
  - rewrite worker_run_cons by apply Htry.
    destruct (worker_next seen ev fp pc) as [pc' eff] eqn:En.
    destruct (worker_run obs fp pc') as [pc'' effs'] eqn:Er.
    intros [= -> <-].
    destruct (in_try_step _ _ _ _ _ _ Htry En) as [(-> & -> & ->)|[Htry' Heff]].
    + rewrite worker_run_Done in Er. simplify_eq. by exists [].
    + destruct (IH pc' effs' Htry' Er) as (mid & -> & Hmid).
      exists (eff :: mid). split; [done|]. by constructor.
Qed.

(** C2: when the pipeline is available, every run of the worker -- whatever
    it sees in [current_job] and whatever is raised, and so also on success,
    on an exception and on supersession -- returns within 57 steps; it sets
    the token first, never touches it in between, and its last effect is
    [current_job = None].  In the state that leaves, the busy check is
    false and a valid upload is accepted with 200. *)
Theorem worker_releases_token (obs : list (option str * Event)) (fp : str) :
  VOXNOVEL_AVAILABLE = true →
  (57 ≤ length obs)%nat →
  ∃ mid,
    worker_run obs fp AtEntry = (Done, SetToken (Some fp) :: mid ++ [SetToken None])
    ∧ Forall (λ e, ∀ t, e ≠ SetToken t) mid
    ∧ ∀ g, let g' := apply_effect (SetToken None) g in
        current_job g' = None
        ∧ ∀ req file, valid_upload req file →
            ∃ body wk, outcome (upload_file req g') = Respond 200 body
                       ∧ spawned (upload_file req g') = Some wk.
Proof.
  intros Havail Hlen.
  pose proof (worker_run_terminates obs fp AtEntry Hlen) as Hdone.
  destruct obs as [|[seen ev] obs]; [simpl in Hlen; lia|].
  rewrite worker_run_cons in * by done.
  cbn [worker_next] in *. rewrite Havail in *.
  destruct (worker_run obs fp AtStart) as [pc effs] eqn:Er. simpl in Hdone. subst pc.
  destruct (run_ends_with_release obs fp AtStart effs) as (mid & -> & Hmid); [done|done|].
  exists mid. split_and!; [done|done|].
  intros g. split; [done|].
  intros req file (Hfile & Hallowed & [opts Hopts]).
  rewrite (upload_file_accepted req file _ opts) by done. simpl. eauto.
Qed.

(** In the server, the step that ends a thread which was inside [try]
    leaves the token cleared. *)
Lemma finishing_step_clears_token (w : World) tid ev wk wk' :
  threads w !! tid = Some wk → in_try (pc wk) →
  threads (sys_step w (Run tid ev)) !! tid = Some wk' → pc wk' = Done →
  current_job (shared (sys_step w (Run tid ev))) = None.
Proof.
  intros Hwk Htry. simpl. rewrite Hwk.
  destruct (worker_next _ _ _ _) as [pc' eff] eqn:En. simpl.
  rewrite list_lookup_insert_eq by by eapply lookup_lt_Some.
  intros [= <-] Hdone. simpl in Hdone. subst pc'.
  destruct (in_try_step _ _ _ _ _ _ Htry En) as [(_ & _ & ->)|[[_ Hd] _]]; done.
Qed.

(** What a thread does in the server is a run of the worker on what the
    thread sees. *)
Lemma thread_is_worker_run (w : World) acts tid wk :
  threads w !! tid = Some wk →
  threads (sys_run w acts) !! tid
  = Some (at_pc wk (worker_run (thread_obs w acts tid) (filepath wk) (pc wk)).1).
Proof.
  revert w wk. induction acts as [|a acts IH]; intros w wk Hwk.
  - simpl. rewrite Hwk. f_equal. destruct wk as [fp o p]. by destruct p.
  - change (sys_run w (a :: acts)) with (sys_run (sys_step w a) acts).
    destruct a as [req|tid' ev]; cbn [thread_obs].
    + rewrite app_nil_l. apply IH. simpl. by apply lookup_app_l_Some.
    + destruct (decide (tid' = tid)) as [->|Hne].
      * assert (threads (sys_step w (Run tid ev)) !! tid
                = Some (at_pc wk (worker_next (current_job (shared w)) ev
                                              (filepath wk) (pc wk)).1)) as Hstep.
        { simpl. rewrite Hwk. destruct (worker_next _ _ _ _) as [pc' eff]. simpl.
          apply list_lookup_insert_eq. by eapply lookup_lt_Some. }
        rewrite (IH _ _ Hstep). f_equal.
        change ([(current_job (shared w), ev)] ++ ?l) with ((current_job (shared w), ev) :: l).
        destruct (decide (pc wk = Done)) as [Hd|Hd].
        { rewrite Hd. cbn [worker_next at_pc pc filepath fst].
          by rewrite !worker_run_Done. }
        rewrite (worker_run_cons _ _ _ _ _ Hd).
        destruct (worker_next _ _ _ _) as [pc' eff].
        cbn [at_pc pc filepath fst].
        by destruct (worker_run _ _ pc').
      * rewrite app_nil_l. apply IH. simpl.
        destruct (threads w !! tid') as [wk'|] eqn:E; [|done].
        destruct (worker_next _ _ _ _) as [pc' eff]. simpl.
        by rewrite list_lookup_insert_ne.
Qed.

End Worker.

(** ** Runs in which every check passes *)

Section Undisturbed.
Context {rt : Runtime}.

Lemma loop_script_cons fp ph i todo :
  loop_script fp ph (i :: todo) = iteration ph i ++ loop_script fp ph todo.
Proof. by destruct ph. Qed.

(** A step that passes its check follows the script, unless the call it
    makes raises. *)
Lemma script_step fp pc ev pc' eff :
  pc ≠ AtEntry → pc ≠ AtStart → pc ≠ Done →
  worker_next (Some fp) ev fp pc = (pc', eff) →
  (script fp pc = eff :: script fp pc' ∧ pc' ≠ AtEntry ∧ pc' ≠ AtStart)
  ∨ (∃ e, raises ev = Some e ∧ eff = Silent ∧ pc' = AtExcept e ∧ script fp pc ≠ []).
Proof.
  intros H1 H2 H3.
  destruct pc as [| |ph todo|ph i todo|ph i todo| | | | |e| |]; try done;
    unfold worker_next, guarded.
  - destruct todo as [|i todo].
    + destruct ph; intros [= <- <-]; by left.
    + destruct ph; rewrite decide_False by (by intros ?);
        intros [= <- <-]; left; cbn [script]; by rewrite loop_script_cons.
  - destruct (raises ev) as [e|]; intros [= <- <-]; [right|by left].
    exists e. by destruct ph.
  - intros [= <- <-]. left. by destruct ph.
  - destruct (raises ev) as [e|]; intros [= <- <-]; [right; by exists e|by left].
  - destruct (raises ev) as [e|]; intros [= <- <-]; [right; by exists e|by left].
  - destruct (raises ev) as [e|]; intros [= <- <-]; [right; by exists e|by left].
  - intros [= <- <-]. by left.
  - intros [= <- <-]. by left.
  - intros [= <- <-]. by left.
Qed.

(** Only the checks look at [current_job]. *)
Lemma worker_next_seen seen ev fp pc :
  (is_check pc = true → seen = Some fp) →
  worker_next seen ev fp pc = worker_next (Some fp) ev fp pc.
Proof.
  intros Hs. destruct pc as [| |ph [|i todo]|ph i todo|ph i todo| | | | |e| |]; try done.
  by rewrite Hs.
Qed.

Lemma checks_pass_same obs fp pc :
  Forall (λ o, o.1 = Some fp) obs → checks_pass obs fp pc.
Proof.
  revert pc. induction obs as [|[seen ev] obs IH]; intros pc Hobs; [done|].
  apply Forall_cons in Hobs as [Hs Hobs]. split; [done|]. by apply IH.
Qed.

Lemma run_except obs fp e :
  (2 ≤ length obs)%nat →
  worker_run obs fp (AtExcept e) = (Done, [UpdateStatus (upd_failed e); SetToken None]).
Proof.
  destruct obs as [|[s1 e1] [|[s2 e2] obs]]; simpl; try lia. intros _.
  by rewrite worker_run_Done.
Qed.

Lemma remaining_Done pc : remaining pc = 0%nat → pc = Done.
Proof. destruct pc; simpl; try done; destruct ph; lia. Qed.

(** The effects of a run in which every check passes: the script, or a part
    of the script cut short by the exception that some step raised,
    followed by the [except] and [finally] clauses. *)
Lemma undisturbed_run obs fp pc :
  checks_pass obs fp pc →
  (remaining pc ≤ length obs)%nat →
  pc ≠ AtEntry → pc ≠ AtStart →
  ∃ effs, worker_run obs fp pc = (Done, effs)
    ∧ (effs = script fp pc
       ∨ ∃ pre post o e,
           script fp pc = pre ++ post ∧ post ≠ []
           ∧ o ∈ obs ∧ raises o.2 = Some e
           ∧ effs = pre ++ [Silent; UpdateStatus (upd_failed e); SetToken None]).
Proof.
  revert pc. induction obs as [|[seen ev] obs IH]; intros pc Hsee Hlen H1 H2.
  - assert (pc = Done) as -> by (apply remaining_Done; simpl in Hlen; lia).
    exists []. by split; [|left].
  - destruct (decide (pc = Done)) as [->|H3].
    { exists []. by split; [|left]. }
    destruct Hsee as [Hs Hsee].
    rewrite worker_run_cons by done.
    pose proof (worker_next_decreases seen ev fp pc H3) as Hdec.
    rewrite (worker_next_seen seen ev fp pc Hs) in *.
    destruct (worker_next (Some fp) ev fp pc) as [pc' eff] eqn:En. simpl in Hdec, Hlen, Hsee.
    destruct (script_step fp pc ev pc' eff H1 H2 H3 En)
      as [(Es & H1' & H2')|(e & He & -> & -> & Hne)].
    + destruct (IH pc' Hsee) as (effs & -> & Hshape); [lia|done|done|].
      exists (eff :: effs). split; [done|].
      destruct Hshape as [->|(pre & post & o & e & Ep & Hpost & Ho & He & ->)]; [by left|].
      right. exists (eff :: pre), post, o, e.
      split_and!; [by rewrite Es, Ep|done|by right|done|done].
    + rewrite run_except by (simpl in Hdec; lia).
      eexists. split; [done|]. right.
      exists [], (script fp pc), (seen, ev), e.
      split_and!; [done|done|by left|done|done].
Qed.

Lemma quiet_run obs fp pc :
  checks_pass obs fp pc →
  Forall (λ o, raises o.2 = None) obs →
  (remaining pc ≤ length obs)%nat →
  pc ≠ AtEntry → pc ≠ AtStart →
  worker_run obs fp pc = (Done, script fp pc).
Proof.
  intros Hsee Hobs Hlen H1 H2.
  destruct (undisturbed_run obs fp pc) as (effs & -> & [->|Hfail]); try done.
  destruct Hfail as (_ & _ & o & e & _ & _ & Ho & He & _).
  rewrite Forall_forall in Hobs. specialize (Hobs o Ho). congruence.
Qed.

(** The first two steps of a run when the pipeline is available. *)
Lemma run_from_entry s1 e1 s2 e2 obs fp :
  VOXNOVEL_AVAILABLE = true →
  worker_run ((s1, e1) :: (s2, e2) :: obs) fp AtEntry
  = (let '(pc, effs) := worker_run obs fp (AtLoop BookNLP (py_range 10 50 5)) in
     (pc, SetToken (Some fp) :: UpdateStatus (upd_start (now e2)) :: effs)).
Proof.
  intros Havail. rewrite worker_run_cons by done. cbn [worker_next]. rewrite Havail.
  rewrite worker_run_cons by done. cbn [worker_next].
  by destruct (worker_run obs fp _).
Qed.

Lemma checks_pass_from_entry s1 e1 s2 e2 obs fp :
  VOXNOVEL_AVAILABLE = true →
  checks_pass ((s1, e1) :: (s2, e2) :: obs) fp AtEntry →
  checks_pass obs fp (AtLoop BookNLP (py_range 10 50 5)).
Proof.
  intros Havail (_ & Hsee). cbn [worker_next] in Hsee. rewrite Havail in Hsee.
  by destruct Hsee as (_ & Hsee).
Qed.







End Undisturbed.

(** ** The name of the audiobook *)

Lemma output_filename_spec fp :
  ∃ root ext,
    Py.os_path_splitext (Py.os_path_basename fp) = (root, ext)
    ∧ Py.os_path_basename fp = root ++ ext
    ∧ (ext = [] ∨ ∃ e, ext = "."%char :: e ∧ "."%char ∉ e)
    ∧ output_filename fp = root ++ "_audiobook.m4b".
Proof.
  unfold output_filename.
  destruct (Py.os_path_splitext (Py.os_path_basename fp)) as [root ext] eqn:E.
  exists root, ext. apply os_path_splitext_spec in E as [E1 E2]. done.
Qed.

Lemma output_filename_no_sep fp : "/"%char ∉ output_filename fp.
Proof.
  destruct (output_filename_spec fp) as (root & ext & _ & Eb & _ & ->).
  pose proof (os_path_basename_no_sep fp) as Hb. rewrite Eb in Hb.
  intros [Hin|Hin]%elem_of_app.
  - apply Hb, elem_of_app. by left.
  - assert (Py.contains "/" "_audiobook.m4b" = false) as Hc by reflexivity.
    by apply contains_false in Hc.
Qed.

Lemma output_path_inside fp :
  output_path fp = OUTPUT_FOLDER ++ "/" ++ output_filename fp
  ∧ inside OUTPUT_FOLDER (output_path fp).
Proof.
  assert (output_path fp = OUTPUT_FOLDER ++ "/" ++ output_filename fp) as E.
  { apply os_path_join_folder; [done|by cbv|].
    intros Hh. apply (output_filename_no_sep fp).
    destruct (output_filename fp); simplify_eq/=. by left. }
  split; [done|]. rewrite E. exists (output_filename fp).
  destruct (output_filename_spec fp) as (root & ext & _ & _ & _ & En).
  assert (14 ≤ length (output_filename fp))%nat as Hlen.
  { rewrite En, length_app. simpl. lia. }
  split_and!; [done|..|apply output_filename_no_sep| |];
    intros E'; rewrite E' in Hlen; simpl in Hlen; lia.
Qed.

Section Claims.
Context {rt : Runtime}.


(** C8: in a run in which every check passes and nothing is raised,
    the only path the worker writes is [OUTPUT_FOLDER/name], where [name] is
    the base name of the upload with the extension that [splitext] finds
    replaced by ["_audiobook.m4b"]; the file is written before the job
    record changes, and the transition that follows sets [status] to
    [completed], [output_file] to [name] and [progress] to 100. *)
Theorem successful_run_output (obs : list (option str * Event)) (fp : str) :
  VOXNOVEL_AVAILABLE = true →
  (57 ≤ length obs)%nat →
  checks_pass obs fp AtEntry →
  Forall (λ o, raises o.2 = None) obs →
  let name := output_filename fp in
  let out := OUTPUT_FOLDER ++ "/" ++ name in
  ∃ before,
    worker_run obs fp AtEntry
    = (Done, before ++ [WriteFile out []; WriteFile out dummy_audiobook;
                        UpdateStatus (upd_completed name); SetToken None])
    ∧ written before = []
    ∧ Forall (λ u, u_status u ≠ Some completed ∧ u_output_file u ≠ Some (Some name))
             (updates before)
    ∧ inside OUTPUT_FOLDER out
    ∧ (∃ root ext,
         Py.os_path_splitext (Py.os_path_basename fp) = (root, ext)
         ∧ Py.os_path_basename fp = root ++ ext
         ∧ (ext = [] ∨ ∃ e, ext = "."%char :: e ∧ "."%char ∉ e)
         ∧ name = root ++ "_audiobook.m4b")
    ∧ ∀ js, let js' := dict_update (upd_completed name) js in
        status js' = completed ∧ output_file js' = Some name ∧ progress js' = 100.
Proof.
  intros Havail Hlen Hsee Hobs name out.
  destruct obs as [|[s1 e1] [|[s2 e2] obs]]; simpl in Hlen; try lia.
  apply checks_pass_from_entry in Hsee; [|done].
  apply Forall_cons in Hobs as [_ Hobs]. apply Forall_cons in Hobs as [_ Hobs].
  rewrite run_from_entry by done.
  rewrite quiet_run; [|done|done|simpl; lia|done|done].
  destruct (output_path_inside fp) as [Eout Hin]. fold name in Eout. fold out in Eout.
  exists (SetToken (Some fp) :: UpdateStatus (upd_start (now e2))
          :: (py_range 10 50 5 ≫= iteration BookNLP) ++ Silent
          :: (py_range 50 90 5 ≫= iteration TTS) ++ [Silent; Silent]).
  split_and!.
  - unfold script, loop_script, final_script. rewrite Eout. reflexivity.
  - reflexivity.
  - repeat (constructor; [by split|]). constructor.
  - by rewrite <- Eout.
  - apply output_filename_spec.
  - done.
Qed.

End Claims.

(** ** The server without the pipeline *)

Section Unavailable.
Context {rt : Runtime}.

Lemma unavailable_reachable w :
  VOXNOVEL_AVAILABLE = false → reachable w → never_started w.
Proof.
  intros Hna. revert w. apply reachable_ind.
  - unfold never_started. simpl. split_and!; auto.
  - intros w a _ (Htok & Hst & Hstart & Hout & Hthr). unfold never_started.
    destruct a as [req|tid ev]; simpl.
    + destruct (upload_file_frame req (shared w)) as [-> ->].
      split_and!; try done. apply Forall_app. split; [done|].
      destruct (spawned (upload_file req (shared w))) as [wk|] eqn:E; simpl; [|constructor].
      apply upload_file_spawned in E as [_ ?]. constructor; [by left|constructor].
    + destruct (threads w !! tid) as [wk|] eqn:Ewk; [|done].
      assert (pc wk = AtEntry ∨ pc wk = Done) as Hpc.
      { rewrite Forall_forall in Hthr. apply Hthr. by eapply list_elem_of_lookup_2. }
      destruct Hpc as [-> | ->]; cbn [worker_next]; rewrite ?Hna; simpl;
        (split_and!; [done|auto|done|done|]);
        (apply Forall_insert; [done|by right]).
Qed.

(** C9: with [VOXNOVEL_AVAILABLE] false, a valid upload is answered with
    200 and a worker is started; the worker's whole run is the single update
    that sets [status] to [error], [progress] to 0 and the message, leaving
    [start_time] and [current_job] as they were; and in every reachable state
    of such a server the token is [None], the status is never [processing]
    and [start_time] is [None]. *)
Theorem unavailable_pipeline_goes_to_error (w : World) (req : Request) (file : FileStorage) :
  VOXNOVEL_AVAILABLE = false →
  reachable w →
  valid_upload req file →
  (∃ body wk,
     outcome (upload_file req (shared w)) = Respond 200 body
     ∧ spawned (upload_file req (shared w)) = Some wk
     ∧ pc wk = AtEntry
     ∧ ∀ seen ev obs,
         worker_run ((seen, ev) :: obs) (filepath wk) AtEntry
         = (Done, [UpdateStatus upd_unavailable]))
  ∧ (∀ g, let g' := apply_effect (UpdateStatus upd_unavailable) g in
       status (job_status g') = error
       ∧ progress (job_status g') = 0
       ∧ message (job_status g') = "VoxNovel modules not available"
       ∧ start_time (job_status g') = start_time (job_status g)
       ∧ current_job g' = current_job g)
  ∧ (∀ w', reachable w' →
       current_job (shared w') = None
       ∧ status (job_status (shared w')) ≠ processing
       ∧ start_time (job_status (shared w')) = None).
Proof.
  intros Hna Hr (Hfile & Hallowed & [opts Hopts]).
  split_and!.
  - destruct (unavailable_reachable w Hna Hr) as (Htok & _).
    rewrite (upload_file_accepted req file _ opts) by (by rewrite ?Htok).
    eexists _, _. split_and!; [done|done|done|].
    intros seen ev obs. rewrite worker_run_cons by done.
    cbn [worker_next]. rewrite Hna. by rewrite worker_run_Done.
  - done.
  - intros w' Hr'. destruct (unavailable_reachable w' Hna Hr') as (Htok & Hst & Hstart & _).
    split_and!; [done| |done]. destruct Hst as [-> | ->]; done.
Qed.

End Unavailable.

(** ** The supersession check *)

Section Supersession.
Context {rt : Runtime}.

(** A check that fails ends the run without another update of the job
    record: only the [finally] clause follows. *)
Lemma failed_check_abandons seen ev o obs fp ph i todo :
  seen ≠ Some fp →
  worker_run ((seen, ev) :: o :: obs) fp (AtLoop ph (i :: todo))
  = (Done, [Silent; SetToken None]).
Proof.
  intros Hne. destruct o as [seen' ev']. rewrite worker_run_cons by done.
  assert (worker_next seen ev fp (AtLoop ph (i :: todo)) = (AtFinally, Silent)) as ->.
  { unfold worker_next. destruct ph; by rewrite decide_True. }
  rewrite worker_run_cons by done. cbn [worker_next]. by rewrite worker_run_Done.
Qed.

(** The sleep of line 179, the write of lines 185-186 and the transition
    to [completed] do not look at [current_job]. *)
Lemma final_phase_ignores_token seen seen' ev fp pc :
  pc ∈ [AtFinalSleep; AtOpen; AtWrite; AtComplete] →
  worker_next seen ev fp pc = worker_next seen' ev fp pc.
Proof.
  intros Hpc. repeat (apply elem_of_cons in Hpc as [->|Hpc]; [done|]).
  by apply elem_of_nil in Hpc.
Qed.

End Supersession.

(** C3: the first worker passes its last check and is then superseded: the
    token names the second upload while the first worker is about to sleep
    at line 179.  It still writes its output file and moves the job record
    to [completed]. *)
Theorem superseded_worker_completes :
  let w := sys_run (rt := ascii_runtime true) initial_world late_supersession in
  let w' := sys_run (rt := ascii_runtime true) w (steps 0 4) in
  (filepath <$> threads w !! 0%nat) = Some ("/app/uploads/book.epub" : str)
  ∧ (pc <$> threads w !! 0%nat) = Some AtFinalSleep
  ∧ current_job (shared w) = Some ("/app/uploads/novel.pdf" : str)
  ∧ status (job_status (shared w)) = processing
  ∧ files (shared w) !! ("/app/output_audiobooks/book_audiobook.m4b" : str) = None
  ∧ files (shared w') !! ("/app/output_audiobooks/book_audiobook.m4b" : str)
    = Some dummy_audiobook
  ∧ status (job_status (shared w')) = completed
  ∧ output_file (job_status (shared w')) = Some ("book_audiobook.m4b" : str)
  ∧ progress (job_status (shared w')) = 100.
Proof. vm_compute. by repeat split. Qed.

(** ** [output_file] and [status] *)

Lemma start_consistent t js : consistent (dict_update (upd_start t) js).
Proof. split; [by intros [? [=]] | done]. Qed.

Lemma completed_consistent name js : consistent (dict_update (upd_completed name) js).
Proof. split; [done | by eexists]. Qed.

Lemma progress_consistent ph i js :
  consistent js → consistent (dict_update (upd_progress ph i) js).
Proof. done. Qed.

(** The two transitions to [error] leave [output_file] as it is. *)
Lemma failed_keeps_output_file e js :
  output_file (dict_update (upd_failed e) js) = output_file js
  ∧ output_file (dict_update upd_unavailable js) = output_file js.
Proof. done. Qed.

Lemma failed_consistent e js :
  consistent (dict_update (upd_failed e) js) ↔ output_file js = None.
Proof.
  unfold consistent. simpl. split.
  - intros [Hc _]. destruct (output_file js) as [x|]; [|done].
    by assert (error = completed) by (apply Hc; eauto).
  - intros ->. split; [by intros [? [=]] | done].
Qed.

Section SingleRun.
Context {rt : Runtime}.

Lemma expects_consistent pc js : expects pc js → consistent js.
Proof.
  destruct pc; simpl; try done; intros [Ho Hs]; (split; [rewrite Ho; by intros [? [=]] | done]).
Qed.

(** One step of a worker that is past the start update keeps what it
    relies on, whatever it sees in the token and whatever is raised. *)
Lemma expects_step seen ev fp pc pc' js :
  pc ≠ AtEntry → pc ≠ AtStart →
  expects pc js →
  (worker_next seen ev fp pc = (pc', Silent) → expects pc' js)
  ∧ (∀ t, worker_next seen ev fp pc = (pc', SetToken t) → expects pc' js)
  ∧ (∀ p c, worker_next seen ev fp pc = (pc', WriteFile p c) → expects pc' js)
  ∧ (∀ u, worker_next seen ev fp pc = (pc', UpdateStatus u) → expects pc' (dict_update u js)).
Proof.
  intros H1 H2 He.
  destruct pc as [| |ph todo|ph i todo|ph i todo| | | | |e| |]; try done;
    unfold worker_next, guarded;
    try destruct ph; try destruct todo; try destruct (decide _); try destruct (raises ev);
    (split_and!; intros; simplify_eq; try done);
    try (by apply expects_consistent in He);
    try (by eapply (expects_consistent AtComplete));
    try apply completed_consistent;
    try (apply failed_consistent; by destruct He).
Qed.

(** While no other thread writes the job record, a run of the worker keeps
    the invariant after each of its updates: supersession and exceptions
    included. *)
Lemma single_run_consistent obs fp pc js :
  pc ≠ AtEntry → pc ≠ AtStart →
  expects pc js →
  Forall consistent (records js (updates (worker_run obs fp pc).2)).
Proof.
  revert pc js. induction obs as [|[seen ev] obs IH]; intros pc js H1 H2 He.
  - destruct pc; constructor.
  - destruct (decide (pc = Done)) as [->|H3]; [constructor|].
    rewrite worker_run_cons by done.
    destruct (worker_next seen ev fp pc) as [pc' eff] eqn:En.
    assert (pc' ≠ AtEntry ∧ pc' ≠ AtStart) as [H1' H2'].
    { revert En. clear -H1 H2 H3. unfold worker_next, guarded.
      repeat (case_match; try done); by intros [= <- <-]. }
    destruct (expects_step seen ev fp pc pc' js H1 H2 He) as (Hs & Ht & Hw & Hu).
    specialize (IH pc'). destruct (worker_run obs fp pc') as [pc'' effs]. simpl in *.
    destruct eff as [t|u|p c|]; simpl.
    + apply IH; [done|done|]. by eapply Ht.
    + specialize (Hu u En). constructor; [by eapply expects_consistent|]. by apply IH.
    + apply IH; [done|done|]. by eapply Hw.
    + apply IH; [done|done|]. by apply Hs.
Qed.

Lemma whole_run_consistent obs fp js :
  VOXNOVEL_AVAILABLE = true →
  Forall consistent (records js (updates (worker_run obs fp AtEntry).2)).
Proof.
  intros Havail. destruct obs as [|[s1 e1] [|[s2 e2] obs]]; [constructor| |].
  - rewrite worker_run_cons by done. cbn [worker_next]. rewrite Havail. constructor.
  - rewrite run_from_entry by done.
    pose proof (single_run_consistent obs fp (AtLoop BookNLP (py_range 10 50 5))
                  (dict_update (upd_start (now e2)) js)) as Hrun.
    destruct (worker_run obs fp _) as [pc effs]. simpl in *.
    constructor; [apply start_consistent|]. by apply Hrun.
Qed.

End SingleRun.

(** C5: the same file is uploaded twice before either worker starts, so
    that both workers hold the same token and pass all their checks.  The
    first one completes and sets [output_file]; the second one then fails to
    open its output file, and its transition to [error] leaves [output_file]
    set. *)
Theorem failed_twin_keeps_output_file :
  let w := sys_run (rt := ascii_runtime true) initial_world twin_failure in
  status (job_status (shared w)) = error
  ∧ progress (job_status (shared w)) = 0
  ∧ output_file (job_status (shared w)) = Some ("book_audiobook.m4b" : str)
  ∧ ¬ consistent (job_status (shared w)).
Proof.
  vm_compute. split_and!; try done. intros [Hc _].
  by assert (error = completed) by (apply Hc; eauto).
Qed.

(** ** The model on concrete requests *)

Example lower_mixed : Py.lower "BoOk.EPUB" = "book.epub".
Proof. reflexivity. Qed.

Example rsplit1_two_dots : Py.rsplit1 "." "a.tar.gz" = ["a.tar" : str; "gz" : str].
Proof. reflexivity. Qed.

Example rsplit1_no_dot : Py.rsplit1 "." "README" = ["README" : str].
Proof. reflexivity. Qed.

Example split_runs : Py.split "  a b   c " = ["a" : str; "b" : str; "c" : str].
Proof. reflexivity. Qed.

Example strip_both : Py.strip "._" ".._.._etc_passwd.txt_" = "etc_passwd.txt".
Proof. reflexivity. Qed.

Example basename_upload : Py.os_path_basename book_path = "book.epub".
Proof. reflexivity. Qed.

Example splitext_plain :
  Py.os_path_splitext "book.v2.epub" = ("book.v2" : str, ".epub" : str).
Proof. reflexivity. Qed.

Example splitext_dotfile : Py.os_path_splitext "..txt" = ("..txt" : str, [] : str).
Proof. reflexivity. Qed.

Example str_of_int_45 : Py.str_of_int 45 = "45".
Proof. reflexivity. Qed.

Example range_booknlp : py_range 10 50 5 = [10; 15; 20; 25; 30; 35; 40; 45].
Proof. reflexivity. Qed.

Example allowed_upper : allowed_file "Book.EPUB" = true.
Proof. reflexivity. Qed.

Example allowed_exe : allowed_file "book.exe" = false.
Proof. reflexivity. Qed.

Example allowed_traversal : allowed_file "../../etc/passwd" = false.
Proof. reflexivity. Qed.

Example secure_traversal :
  secure_filename (rt := ascii_runtime true) "../../etc/passwd.txt" = "etc_passwd.txt".
Proof. reflexivity. Qed.

Example secure_spaces :
  secure_filename (rt := ascii_runtime true) "my  book.epub" = "my_book.epub".
Proof. reflexivity. Qed.

Example secure_hidden : secure_filename (rt := ascii_runtime true) ".txt" = "txt".
Proof. reflexivity. Qed.

Example output_of_book : output_filename book_path = "book_audiobook.m4b".
Proof. reflexivity. Qed.

Example output_without_extension : output_filename "/app/uploads/txt" = "txt_audiobook.m4b".
Proof. reflexivity. Qed.

Example int_signed : ascii_int " -12 " = Some (-12).
Proof. reflexivity. Qed.

Example int_words : ascii_int "half a second" = None.
Proof. reflexivity. Qed.

(** A run that is superseded at its third check. *)
Example superseded_at_third_check :
  worker_run (rt := ascii_runtime true)
             (replicate 8 (Some book_path, quiet) ++ replicate 2 (None, quiet))
             book_path AtEntry
  = (Done,
     [SetToken (Some book_path); UpdateStatus (upd_start (now quiet));
      Silent; Silent; UpdateStatus (upd_progress BookNLP 10);
      Silent; Silent; UpdateStatus (upd_progress BookNLP 15);
      Silent; SetToken None]).
Proof. reflexivity. Qed.

(** ** Witnesses and counterexamples *)

Lemma busy_upload_rejected_witness :
  let w := sys_run (rt := ascii_runtime true) initial_world [Upload req_book; Run 0 quiet] in
  current_job (shared w) = Some book_path
  ∧ sys_step (rt := ascii_runtime true) w (Upload req_novel) = w.
Proof.
  intros w. split; [reflexivity|].
  apply (busy_upload_rejected (rt := ascii_runtime true) w req_novel).
  - exists [Upload req_book; Run 0 quiet]. reflexivity.
  - vm_compute. discriminate.
Defined.

Lemma worker_releases_token_witness :
  ∃ mid,
    worker_run (rt := ascii_runtime true) (calm_run book_path) book_path AtEntry
    = (Done, SetToken (Some book_path) :: mid ++ [SetToken None]).
Proof.
  destruct (worker_releases_token (rt := ascii_runtime true) (calm_run book_path) book_path)
    as (mid & E & _); [reflexivity | simpl; lia |].
  exists mid. exact E.
Defined.


Lemma successful_run_output_witness :
  ∃ before,
    worker_run (rt := ascii_runtime true) (calm_run book_path) book_path AtEntry
    = (Done, before ++ [WriteFile ("/app/output_audiobooks/book_audiobook.m4b" : str) [];
                        WriteFile ("/app/output_audiobooks/book_audiobook.m4b" : str)
                                  dummy_audiobook;
                        UpdateStatus (upd_completed ("book_audiobook.m4b" : str));
                        SetToken None]).
Proof.
  destruct (successful_run_output (rt := ascii_runtime true) (calm_run book_path) book_path)
    as (before & E & _).
  - reflexivity.
  - simpl. lia.
  - apply checks_pass_same, Forall_replicate. reflexivity.
  - apply Forall_replicate. reflexivity.
  - exists before. exact E.
Defined.

Lemma unavailable_pipeline_goes_to_error_witness :
  ∃ body wk,
    outcome (upload_file (rt := ascii_runtime false) req_book initial_shared) = Respond 200 body
    ∧ spawned (upload_file (rt := ascii_runtime false) req_book initial_shared) = Some wk
    ∧ worker_run (rt := ascii_runtime false) [(None, quiet)] (filepath wk) AtEntry
      = (Done, [UpdateStatus upd_unavailable]).
Proof.
  destruct (unavailable_pipeline_goes_to_error (rt := ascii_runtime false) initial_world
              req_book {| filename := "book.epub"; stream := "first upload" |})
    as ((body & wk & E1 & E2 & _ & E3) & _).
  - reflexivity.
  - exists []. reflexivity.
  - split; [reflexivity|]. split; [reflexivity|]. eexists. reflexivity.
  - exists body, wk. split; [exact E1|]. split; [exact E2|]. apply E3.
Defined.

Lemma bad_silence_duration_raises_witness :
  outcome (upload_file (rt := ascii_runtime true) req_book_bad_silence initial_shared)
  = Raised ValueError
  ∧ files (after (upload_file (rt := ascii_runtime true) req_book_bad_silence initial_shared))
      !! book_path = Some ("first upload" : str)
  ∧ spawned (upload_file (rt := ascii_runtime true) req_book_bad_silence initial_shared) = None.
Proof.
  destruct (bad_silence_duration_raises (rt := ascii_runtime true) req_book_bad_silence
              {| filename := "book.epub"; stream := "first upload" |}
              initial_shared "half a second") as [E _];
    [reflexivity..|].
  rewrite E. split; [reflexivity|]. split; reflexivity.
Defined.

(** C6 as stated fails: after a first job has run to its end, an upload
    with the same name is accepted with 200 and replaces the saved file. *)
Lemma second_upload_overwrites_first :
  let w := sys_run (rt := ascii_runtime true) initial_world first_job_done in
  let h := upload_file (rt := ascii_runtime true) req_book_again (shared w) in
  files (shared w) !! book_path = Some ("first upload" : str)
  ∧ outcome h = Respond 200 [("message" : str, "File uploaded and processing started" : str);
                             ("filename" : str, "book.epub" : str)]
  ∧ files (after h) !! book_path = Some ("second upload" : str).
Proof. vm_compute. by repeat split. Qed.

(** C10 as stated fails: a request whose [silence_duration] is not an
    integer, but whose file has no allowed extension, is answered with 400;
    nothing is raised and nothing is saved. *)
Lemma bad_silence_duration_after_rejected_file :
  req_form req_exe_bad_silence !! ("silence_duration" : str) = Some ("half a second" : str)
  ∧ py_int (Runtime := ascii_runtime true) "half a second" = None
  ∧ upload_file (rt := ascii_runtime true) req_exe_bad_silence initial_shared
    = {| outcome := Respond 400 [("error" : str, "File type not allowed" : str)];
         after := initial_shared;
         spawned := None |}.
Proof. vm_compute. by repeat split. Qed.


(** * Further properties *)

(** ** Paths below the two folders *)

Lemma split_at_no_sep sep cur s : sep ∉ s → split_at sep cur s = [cur ++ s].
Proof.
  revert cur. induction s as [|c s IH]; intros cur Hs; simpl.
  - by rewrite app_nil_r.
  - rewrite decide_False by (intros ->; apply Hs; by left).
    rewrite IH by (intros ?; apply Hs; by right).
    by rewrite <- app_assoc.
Qed.

Lemma split_at_sep sep cur a b :
  sep ∉ a → split_at sep cur (a ++ sep :: b) = (cur ++ a) :: split_at sep [] b.
Proof.
  revert cur. induction a as [|c a IH]; intros cur Ha; simpl.
  - rewrite decide_True by done. by rewrite app_nil_r.
  - rewrite decide_False by (intros ->; apply Ha; by left).
    rewrite IH by (intros ?; apply Ha; by right).
    by rewrite <- app_assoc.
Qed.

(** What is at [OUTPUT_FOLDER/name] for a name that is a single path
    component: the file of that name, or nothing. *)
Lemma os_stat_output (fs : gmap str str) (name : str) :
  "/"%char ∉ name → name ≠ [] → name ≠ "." → name ≠ ".." →
  os_stat fs (OUTPUT_FOLDER ++ "/" ++ name)
  = RegularFile <$> fs !! (OUTPUT_FOLDER ++ "/" ++ name).
Proof.
  intros Hn1 Hn2 Hn3 Hn4.
  change (OUTPUT_FOLDER ++ "/" ++ name)
    with ("/"%char :: ("app" : str) ++ "/"%char
            :: ("output_audiobooks" : str) ++ "/"%char :: name) at 1.
  cbn [os_stat].
  assert ("/"%char ∉ ("app" : str)) as Ha by (by apply contains_false).
  assert ("/"%char ∉ ("output_audiobooks" : str)) as Ho by (by apply contains_false).
  rewrite (split_at_sep _ _ _ _ Ha), (split_at_sep _ _ _ _ Ho), split_at_no_sep by done.
  rewrite !app_nil_l.
  cbn [walk].
  rewrite (decide_False (P := ("app" : str) = [] ∨ ("app" : str) = ".")) by (intros [?|?]; done).
  rewrite (decide_False (P := ("app" : str) = "..")) by done.
  rewrite (decide_True (P := [] ++ [("app" : str)] ∈ FOLDERS)) by (right; left).
  rewrite (decide_False (P := ("output_audiobooks" : str) = [] ∨ ("output_audiobooks" : str) = "."))
    by (intros [?|?]; done).
  rewrite (decide_False (P := ("output_audiobooks" : str) = "..")) by done.
  rewrite (decide_True (P := ([] ++ [("app" : str)]) ++ [("output_audiobooks" : str)] ∈ FOLDERS))
    by (do 3 right; left).
  rewrite (decide_False (P := name = [] ∨ name = ".")) by (intros [?|?]; done).
  rewrite (decide_False (P := name = "..")) by done.
  rewrite decide_False.
  2: { unfold FOLDERS. intros Hin.
       repeat (apply elem_of_cons in Hin as [Hin|Hin]; [discriminate Hin|]).
       by apply elem_of_nil in Hin. }
  change (path_of ((([] ++ [("app" : str)]) ++ [("output_audiobooks" : str)]) ++ [name]))
    with (OUTPUT_FOLDER ++ "/" ++ name).
  by destruct (fs !! _).
Qed.

(** ** Downloads *)

Lemma os_path_join_output (name : str) :
  "/"%char ∉ name → Py.os_path_join OUTPUT_FOLDER name = OUTPUT_FOLDER ++ "/" ++ name.
Proof.
  intros Hn. apply os_path_join_folder; [done|by cbv|].
  intros Hh. apply Hn. destruct name; simplify_eq/=. by left.
Qed.

Lemma download_file_component (filename : str) (g : Shared) :
  is_component filename →
  download_file filename g
  = match files g !! (OUTPUT_FOLDER ++ "/" ++ filename) with
    | Some content => Attachment filename content
    | None => Json 404 [("error" : str, "File not found" : str)]
    end.
Proof.
  intros (H1 & H2 & H3 & H4). unfold download_file, os_path_exists.
  rewrite os_path_join_output by done.
  rewrite os_stat_output by done.
  rewrite os_path_basename_join by done.
  by destruct (files g !! _).
Qed.

(** X1: the route passes [download_file] a name that is not empty and has no
    slash.  For ["."] and [".."], which name the outputs folder and its
    parent, [send_file] is called on a directory and raises; for every other
    name the answer is the bytes stored under that name in the outputs
    folder, named as asked, or 404 and "File not found" when the folder has no
    such file. *)
Theorem download_file_spec (filename : str) (g : Shared) :
  filename ≠ [] → ("/"%char ∉ filename) →
  download_file filename g
  = if bool_decide (filename = "." ∨ filename = "..") then Fails IsADirectoryError
    else match files g !! (OUTPUT_FOLDER ++ "/" ++ filename) with
         | Some content => Attachment filename content
         | None => Json 404 [("error" : str, "File not found" : str)]
         end.
Proof.
  intros Hne Hslash. case_bool_decide as Hd.
  - destruct Hd as [-> | ->]; reflexivity.
  - apply download_file_component. split_and!; [done|done| |]; intros ->; apply Hd; auto.
Qed.

(** ** The listing *)

Lemma strip_prefix_spec p s t : strip_prefix p s = Some t ↔ s = p ++ t.
Proof.
  revert s. induction p as [|a p IH]; intros s; simpl.
  - split; [by intros [= ->] | by intros ->].
  - destruct s as [|b s]; [split; [done | by intros [=]]|].
    destruct (decide (a = b)) as [->|Hne].
    + rewrite IH. split; [by intros -> | by intros [= ->]].
    + split; [done | intros [= <- _]; done].
Qed.

Lemma entry_name_spec folder path name :
  entry_name folder path = Some name ↔ path = folder ++ "/" ++ name ∧ is_component name.
Proof.
  unfold entry_name. destruct (strip_prefix (folder ++ "/") path) as [n|] eqn:E; simpl.
  - apply strip_prefix_spec in E. rewrite <- app_assoc in E. subst path.
    case_bool_decide as Hc.
    + split; [by intros [= ->] | intros [E _]; f_equal; by simplify_list_eq].
    + split; [done | intros [E Hn]; by simplify_list_eq].
  - split; [done|]. intros [-> _].
    assert (strip_prefix (folder ++ "/") (folder ++ "/" ++ name) = Some name) as E'.
    { apply strip_prefix_spec. by rewrite <- app_assoc. }
    change (folder ++ "/" ++ name) with (folder ++ "/"%char :: name) in E'.
    congruence.
Qed.

Lemma elem_of_scandir folder fs name content :
  (name, content) ∈ scandir folder fs
  ↔ is_component name ∧ fs !! (folder ++ "/" ++ name) = Some content.
Proof.
  unfold scandir. rewrite list_elem_of_omap. split.
  - intros ([path c] & Hin & Hf). simpl in Hf.
    destruct (entry_name folder path) as [n|] eqn:E; simplify_eq/=.
    apply entry_name_spec in E as [-> Hc]. by apply elem_of_map_to_list in Hin.
  - intros [Hc Hl]. exists (folder ++ "/" ++ name, content). split.
    + by apply elem_of_map_to_list.
    + simpl. by rewrite (proj2 (entry_name_spec folder _ name)).
Qed.

Section ListingProperties.
Variable created : str → str.

Lemma elem_of_list_jobs (g : Shared) (j : Job) :
  j ∈ list_jobs created g
  ↔ ∃ content,
      files g !! (OUTPUT_FOLDER ++ "/" ++ job_filename j) = Some content
      ∧ is_component (job_filename j)
      ∧ (".m4b" : str) `suffix_of` job_filename j
      ∧ job_size j = Z.of_nat (length content)
      ∧ job_created j = created (OUTPUT_FOLDER ++ "/" ++ job_filename j).
Proof.
  unfold list_jobs. rewrite list_elem_of_fmap. split.
  - intros ([name content] & -> & Hin). apply list_elem_of_filter in Hin as [Hm Hin].
    apply elem_of_scandir in Hin as [Hc Hl]. simpl in *.
    exists content. split_and!; try done. by apply bool_decide_eq_true in Hm.
  - intros (content & Hl & Hc & Hm & Hs & Ht).
    exists (job_filename j, content). split.
    + destruct j as [n s t]. simpl in *. unfold job_of. simpl. by subst.
    + apply list_elem_of_filter. split.
      * by apply bool_decide_eq_true.
      * by apply elem_of_scandir.
Qed.

(** X2: [list_jobs] lists exactly the files that lie directly in the
    outputs folder and whose name ends in ".m4b", each with its name, the
    number of its bytes and its creation time. *)
Theorem list_jobs_spec (g : Shared) (j : Job) :
  j ∈ list_jobs created g
  ↔ ∃ content,
      files g !! (OUTPUT_FOLDER ++ "/" ++ job_filename j) = Some content
      ∧ is_component (job_filename j)
      ∧ (".m4b" : str) `suffix_of` job_filename j
      ∧ job_size j = Z.of_nat (length content)
      ∧ job_created j = created (OUTPUT_FOLDER ++ "/" ++ job_filename j).
Proof. apply elem_of_list_jobs. Qed.

Lemma scandir_names_NoDup folder fs : NoDup (scandir folder fs).*1.
Proof.
  unfold scandir. pose proof (NoDup_fst_map_to_list fs) as Hnd.
  induction (map_to_list fs) as [|[path c] l IH]; simpl; [constructor|].
  apply NoDup_cons in Hnd as [Hpath Hnd]. simpl in Hpath.
  destruct (entry_name folder path) as [n|] eqn:E; simpl; [|by apply IH].
  constructor; [|by apply IH].
  intros Hin. apply list_elem_of_fmap in Hin as ([n' c'] & -> & Hin).
  apply list_elem_of_omap in Hin as ([path' c''] & Hin & Hf). simpl in Hf.
  destruct (entry_name folder path') as [n''|] eqn:E'; simplify_eq/=.
  apply entry_name_spec in E as [-> _]. apply entry_name_spec in E' as [-> _].
  apply Hpath. apply list_elem_of_fmap. by exists (folder ++ "/" ++ n', c').
Qed.

(** X3: no two entries of the listing have the same file name. *)
Theorem list_jobs_distinct (g : Shared) : NoDup (job_filename <$> list_jobs created g).
Proof.
  unfold list_jobs. rewrite <- list_fmap_compose.
  change (job_filename ∘ job_of created) with (fst : str * str → str).
  pose proof (scandir_names_NoDup OUTPUT_FOLDER (files g)) as Hnd.
  induction (scandir OUTPUT_FOLDER (files g)) as [|[n c] l IH]; [constructor|].
  apply NoDup_cons in Hnd as [Hn Hnd].
  rewrite filter_cons. destruct (decide _); simpl; [|by apply IH].
  constructor; [|by apply IH].
  intros Hin. apply Hn. apply list_elem_of_fmap in Hin as (x & -> & Hin).
  apply list_elem_of_filter in Hin as [_ Hin]. apply list_elem_of_fmap. by exists x.
Qed.

(** X4: every entry of the listing can be downloaded: asked for its file
    name, [download_file] answers with a file of that name whose length is
    the listed size. *)
Theorem listed_job_downloads (g : Shared) (j : Job) :
  j ∈ list_jobs created g →
  ∃ content,
    download_file (job_filename j) g = Attachment (job_filename j) content
    ∧ job_size j = Z.of_nat (length content).
Proof.
  intros (content & Hl & Hc & _ & Hs & _)%elem_of_list_jobs.
  exists content. split; [|done]. rewrite download_file_component by done. by rewrite Hl.
Qed.

End ListingProperties.

(** ** What the server keeps in its folders *)

Section Folders.
Context {rt : Runtime}.

Lemma worker_next_write seen ev fp pc pc' path content :
  worker_next seen ev fp pc = (pc', WriteFile path content) →
  path = output_path fp ∧ (pc = AtOpen ∨ pc = AtWrite).
Proof.
  unfold worker_next, guarded.
  repeat (case_match; try done); intros [= <- <- <-]; auto.
Qed.

(** A path is in at most one of the two folders. *)
Lemma folders_disjoint p : inside UPLOAD_FOLDER p → inside OUTPUT_FOLDER p → False.
Proof. intros (n & -> & _) (m & E & _). discriminate E. Qed.

Lemma inside_component folder name :
  inside folder (folder ++ "/" ++ name) ↔ is_component name.
Proof.
  split.
  - intros (n & E & H1 & H2 & H3 & H4). by simplify_list_eq.
  - intros (H1 & H2 & H3 & H4). by exists name.
Qed.

(** What a step of the server does to the folders. *)
Lemma sys_step_files (w : World) (a : Action) :
  files (shared (sys_step w a)) = files (shared w)
  ∨ ∃ path content,
      files (shared (sys_step w a)) = <[path := content]> (files (shared w))
      ∧ match a with
        | Upload _ => inside UPLOAD_FOLDER path
        | Run _ _ => inside OUTPUT_FOLDER path
        end.
Proof.
  destruct a as [req|tid ev]; simpl.
  - destruct (upload_file_cases req (shared w)) as [[msg ->]|(file & _ & Ha & ->)]; [by left|].
    right. eexists _, _. split; [done|]. by apply upload_path_inside, secure_filename_allowed.
  - destruct (threads w !! tid) as [wk|]; [|by left].
    destruct (worker_next _ _ _ _) as [pc' eff] eqn:En. simpl.
    destruct eff as [t|u|path content|]; simpl; try by left.
    apply worker_next_write in En as [-> _]. right. eexists _, _. split; [done|].
    apply output_path_inside.
Qed.

Lemma sys_run_cons w a acts : sys_run w (a :: acts) = sys_run (sys_step w a) acts.
Proof. done. Qed.

Lemma sys_run_files_monotone (w : World) (acts : list Action) (p : str) :
  is_Some (files (shared w) !! p) → is_Some (files (shared (sys_run w acts)) !! p).
Proof.
  revert w. induction acts as [|a acts IH]; intros w Hp; [done|].
  rewrite sys_run_cons. apply IH.
  destruct (sys_step_files w a) as [->|(path & content & -> & _)]; [done|].
  apply lookup_insert_is_Some. destruct (decide (path = p)); auto.
Qed.

(** X5: every file the server ever holds lies directly in the uploads
    folder or directly in the outputs folder. *)
Theorem reachable_files_confined (w : World) (p content : str) :
  reachable w →
  files (shared w) !! p = Some content →
  inside UPLOAD_FOLDER p ∨ inside OUTPUT_FOLDER p.
Proof.
  intros Hr. revert p content. revert w Hr. apply (reachable_ind (λ w, ∀ p content,
    files (shared w) !! p = Some content → inside UPLOAD_FOLDER p ∨ inside OUTPUT_FOLDER p)).
  - intros p content. simpl. by rewrite lookup_empty.
  - intros w a _ IH p content.
    destruct (sys_step_files w a) as [->|(path & c & -> & Hin)]; [apply IH|].
    destruct (decide (path = p)) as [->|Hne].
    + intros _. destruct a; auto.
    + rewrite lookup_insert_ne by done. apply IH.
Qed.

(** X6: the server never deletes a file: whatever is handled or run next, a
    path that holds a file keeps holding one. *)
Theorem files_are_never_deleted (w : World) (acts : list Action) (p : str) :
  is_Some (files (shared w) !! p) → is_Some (files (shared (sys_run w acts)) !! p).
Proof. apply sys_run_files_monotone. Qed.

(** X7: handling an upload leaves every file of the outputs folder as it
    is. *)
Theorem upload_keeps_outputs (w : World) (req : Request) (p : str) :
  inside OUTPUT_FOLDER p →
  files (shared (sys_step w (Upload req))) !! p = files (shared w) !! p.
Proof.
  intros Hp. destruct (sys_step_files w (Upload req)) as [->|(path & c & -> & Hin)]; [done|].
  apply lookup_insert_ne. intros ->. by eapply folders_disjoint.
Qed.

(** X8: a step of a worker leaves every file of the uploads folder as it
    is: the worker never writes to, and never removes, the document it was
    started for. *)
Theorem worker_keeps_uploads (w : World) (tid : nat) (ev : Event) (p : str) :
  inside UPLOAD_FOLDER p →
  files (shared (sys_step w (Run tid ev))) !! p = files (shared w) !! p.
Proof.
  intros Hp.
  destruct (sys_step_files w (Run tid ev)) as [->|(path & c & -> & Hin)]; [done|].
  apply lookup_insert_ne. intros ->. by eapply folders_disjoint.
Qed.

End Folders.

(** ** What the server keeps in the job record and the token *)

Section Record.
Context {rt : Runtime}.

Lemma py_range_bounded_10_50 : Forall (λ i, 0 ≤ i ≤ 100) (py_range 10 50 5).
Proof. repeat constructor; lia. Qed.

Lemma py_range_bounded_50_90 : Forall (λ i, 0 ≤ i ≤ 100) (py_range 50 90 5).
Proof. repeat constructor; lia. Qed.

(** The updates a worker makes: which one, from which program point. *)
Lemma worker_next_update seen ev fp pc pc' u :
  worker_next seen ev fp pc = (pc', UpdateStatus u) →
  (pc = AtEntry ∧ u = upd_unavailable ∧ VOXNOVEL_AVAILABLE = false)
  ∨ (pc = AtStart ∧ u = upd_start (now ev))
  ∨ (∃ ph i todo, pc = AtReport ph i todo ∧ u = upd_progress ph i)
  ∨ (pc = AtComplete ∧ pc' = AtFinally ∧ u = upd_completed (output_filename fp))
  ∨ (∃ e, pc = AtExcept e ∧ u = upd_failed e).
Proof.
  unfold worker_next, guarded.
  destruct pc as [| |ph [|i todo]|ph i todo|ph i todo| | | | |e| |];
    repeat (case_match; try done); intros [= <- <-]; eauto 10.
Qed.

Lemma worker_next_bounded seen ev fp pc :
  pc_bounded pc → pc_bounded (worker_next seen ev fp pc).1.
Proof.
  intros Hb. unfold worker_next, guarded.
  destruct pc as [| |ph [|i todo]|ph i todo|ph i todo| | | | |e| |];
    repeat (case_match; try done); simpl in *;
    try apply py_range_bounded_10_50; try apply py_range_bounded_50_90;
    try (by apply Forall_cons in Hb); try (by destruct Hb).
Qed.

Lemma reachable_bounded (w : World) :
  reachable w →
  0 ≤ progress (job_status (shared w)) ≤ 100
  ∧ Forall (λ wk, pc_bounded (pc wk)) (threads w).
Proof.
  revert w. apply reachable_ind.
  - split; [simpl; lia|constructor].
  - intros w a _ [Hp Hthr]. destruct a as [req|tid ev]; simpl.
    + destruct (upload_file_frame req (shared w)) as [_ ->]. split; [done|].
      apply Forall_app. split; [done|].
      destruct (spawned (upload_file req (shared w))) as [wk|] eqn:E; simpl; [|constructor].
      apply upload_file_spawned in E as [_ E]. repeat constructor. by rewrite E.
    + destruct (threads w !! tid) as [wk|] eqn:Ewk; [|done].
      assert (pc_bounded (pc wk)) as Hwk.
      { rewrite Forall_forall in Hthr. apply Hthr. by eapply list_elem_of_lookup_2. }
      pose proof (worker_next_bounded (current_job (shared w)) ev (filepath wk) (pc wk) Hwk) as Hb.
      destruct (worker_next _ _ _ _) as [pc' eff] eqn:En. simpl in *. split.
      * destruct eff as [t|u|path content|]; simpl; try done.
        apply worker_next_update in En
          as [(_ & -> & _)|[(_ & ->)|[(ph & i & todo & E & ->)|[(_ & _ & ->)|(e & _ & ->)]]]];
          simpl; try lia.
        rewrite E in Hwk. simpl in Hwk. by destruct Hwk.
      * by apply Forall_insert.
Qed.

(** X9: in every state the server can reach, [progress] is a percentage:
    an integer between 0 and 100. *)
Theorem reachable_progress_percentage (w : World) :
  reachable w → 0 ≤ progress (job_status (shared w)) ≤ 100.
Proof. intros Hr. by apply reachable_bounded. Qed.

Lemma sys_step_status (w : World) (a : Action) :
  status (job_status (shared (sys_step w a))) = idle →
  status (job_status (shared w)) = idle.
Proof.
  destruct a as [req|tid ev]; simpl.
  - by destruct (upload_file_frame req (shared w)) as [_ ->].
  - destruct (threads w !! tid) as [wk|]; [|done].
    destruct (worker_next _ _ _ _) as [pc' eff] eqn:En. simpl.
    destruct eff as [t|u|path content|]; simpl; try done.
    apply worker_next_update in En
      as [(_ & -> & _)|[(_ & ->)|[(ph & i & todo & E & ->)|[(_ & _ & ->)|(e & _ & ->)]]]];
      simpl; done.
Qed.

(** X10: no transition leads back to [idle]: if the status is [idle] after
    some requests and worker steps, it was [idle] before them. *)
Theorem idle_is_never_reentered (w : World) (acts : list Action) :
  status (job_status (shared (sys_run w acts))) = idle →
  status (job_status (shared w)) = idle.
Proof.
  revert w. induction acts as [|a acts IH]; intros w; [done|].
  rewrite sys_run_cons. intros H. apply (sys_step_status w a). by apply IH.
Qed.

End Record.

(** ** The token, the reported output and the folders *)

Section Links.
Context {rt : Runtime}.

Lemma upload_file_spawned_saved req g wk :
  spawned (upload_file req g) = Some wk →
  saved_upload (files (after (upload_file req g))) (filepath wk).
Proof.
  unfold upload_file, reject, file_save.
  destruct (truthy _); [done|]. destruct (req_files req !! _) as [file|]; [|done].
  destruct (decide (filename file = [])); [done|].
  destruct (bool_decide _ && allowed_file _) eqn:Ea; [|done].
  apply andb_prop in Ea as [_ Ea].
  rewrite upload_path. destruct (decide (last _ = _)); [done|].
  destruct (read_options _); [|done]. simpl. intros [= <-]. simpl. split.
  - by apply upload_path_inside, secure_filename_allowed.
  - rewrite lookup_insert_eq. by eexists.
Qed.

Lemma saved_upload_step (w : World) (a : Action) (fp : str) :
  saved_upload (files (shared w)) fp → saved_upload (files (shared (sys_step w a))) fp.
Proof.
  intros [Hin Hfile]. split; [done|].
  by apply (sys_run_files_monotone w [a]).
Qed.

Lemma reachable_saved (w : World) :
  reachable w →
  (∀ fp, current_job (shared w) = Some fp → saved_upload (files (shared w)) fp)
  ∧ Forall (λ wk, saved_upload (files (shared w)) (filepath wk)) (threads w).
Proof.
  revert w. apply reachable_ind.
  - split; [done|constructor].
  - intros w a _ [Htok Hthr].
    assert (Forall (λ wk, saved_upload (files (shared (sys_step w a))) (filepath wk))
                   (threads w)) as Hthr'.
    { eapply Forall_impl; [done|]. intros wk. apply saved_upload_step. }
    destruct a as [req|tid ev].
    + split.
      * intros fp Hfp. apply (saved_upload_step w (Upload req)), Htok.
        simpl in Hfp. by destruct (upload_file_frame req (shared w)) as [<- _].
      * simpl. apply Forall_app. split; [done|].
        destruct (spawned (upload_file req (shared w))) as [wk|] eqn:E; simpl; [|constructor].
        apply upload_file_spawned_saved in E. constructor; [done|constructor].
    + pose proof (saved_upload_step w (Run tid ev)) as Hstep.
      simpl in *. destruct (threads w !! tid) as [wk|] eqn:Ewk; [|done].
      assert (saved_upload (files (shared w)) (filepath wk)) as Hwk.
      { rewrite Forall_forall in Hthr. apply Hthr. by eapply list_elem_of_lookup_2. }
      destruct (worker_next _ _ _ _) as [pc' eff] eqn:En. simpl in *. split.
      * intros fp Hfp. destruct eff as [t|u|path content|]; simpl in *;
          try (by apply Hstep, Htok).
        apply worker_next_token in En as [->| ->]; [|done].
        simplify_eq. by apply Hstep.
      * apply Forall_insert; [done|]. simpl. by apply Hstep.
Qed.

(** X11: whenever the token is set, it is the path of an upload that lies
    in the uploads folder and is still stored there. *)
Theorem token_names_saved_upload (w : World) (fp : str) :
  reachable w →
  current_job (shared w) = Some fp →
  inside UPLOAD_FOLDER fp ∧ is_Some (files (shared w) !! fp).
Proof. intros Hr Hfp. by apply (reachable_saved w Hr). Qed.

Lemma worker_next_to_complete seen ev fp pc eff :
  worker_next seen ev fp pc = (AtComplete, eff) →
  pc = AtWrite ∧ eff = WriteFile (output_path fp) dummy_audiobook.
Proof.
  unfold worker_next, guarded.
  destruct pc as [| |ph [|i todo]|ph i todo|ph i todo| | | | |e| |];
    repeat (case_match; try done); by intros [= <-].
Qed.

Lemma output_filename_component fp : is_component (output_filename fp).
Proof.
  destruct (output_path_inside fp) as [E Hin]. rewrite E in Hin.
  by apply inside_component in Hin.
Qed.

Lemma reachable_output_exists (w : World) : reachable w → output_exists w.
Proof.
  revert w. apply reachable_ind.
  - split; [done|constructor].
  - intros w a _ [Hout Hthr].
    assert (∀ p, is_Some (files (shared w) !! p)
                 → is_Some (files (shared (sys_step w a)) !! p)) as Hmono.
    { intros p. apply (sys_run_files_monotone w [a]). }
    destruct a as [req|tid ev].
    + split.
      * intros n Hn. simpl in Hn.
        destruct (upload_file_frame req (shared w)) as [_ Ejs]. rewrite Ejs in Hn.
        destruct (Hout n Hn) as [Hc Hf]. split; [done|]. by apply Hmono.
      * simpl. apply Forall_app. split.
        -- eapply Forall_impl; [done|]. intros wk Hwk Hpc. by apply (Hmono _ (Hwk Hpc)).
        -- destruct (spawned (upload_file req (shared w))) as [wk|] eqn:E; simpl; [|constructor].
           apply upload_file_spawned in E as [_ E]. constructor; [by rewrite E|constructor].
    + simpl in *. destruct (threads w !! tid) as [wk|] eqn:Ewk; [|done].
      assert (pc wk = AtComplete → is_Some (files (shared w) !! output_path (filepath wk)))
        as Hwk.
      { rewrite Forall_forall in Hthr. apply Hthr. by eapply list_elem_of_lookup_2. }
      destruct (worker_next _ _ _ _) as [pc' eff] eqn:En. simpl in *. split.
      * intros n Hn. destruct eff as [t|u|path content|]; simpl in *;
          try (destruct (Hout n Hn) as [Hc Hf]; split; [done|by apply Hmono]).
        apply worker_next_update in En
          as [(_ & -> & _)|[(_ & ->)|[(ph & i & todo & E & ->)|[(Epc & _ & ->)|(e & _ & ->)]]]];
          simpl in Hn; try done; try (by apply Hout).
        simplify_eq. split; [apply output_filename_component|].
        destruct (output_path_inside (filepath wk)) as [E' _]. rewrite E' in Hwk. by apply Hwk.
      * apply Forall_insert.
        -- eapply Forall_impl; [done|]. intros wk' Hwk' Hpc. by apply (Hmono _ (Hwk' Hpc)).
        -- simpl. intros ->. apply worker_next_to_complete in En as [_ ->]. simpl.
           rewrite lookup_insert_eq. by eexists.
Qed.

(** X12: whenever the job record names an output file, that file can be
    downloaded: asked for the name in [output_file], [download_file] answers
    with a file of that name, never with 404. *)
Theorem reported_output_downloads (w : World) (n : str) :
  reachable w →
  output_file (job_status (shared w)) = Some n →
  ∃ content, download_file n (shared w) = Attachment n content.
Proof.
  intros Hr Hn. destruct (reachable_output_exists w Hr) as [Hout _].
  destruct (Hout n Hn) as [Hc [content Hf]]. exists content.
  rewrite download_file_component by done. by rewrite Hf.
Qed.

End Links.

(** ** Every answer of the upload handler *)

Section Answers.
Context {rt : Runtime}.


Lemma upload_file_allowed (req : Request) (file : FileStorage) (g : Shared) :
  truthy (current_job g) = false →
  req_files req !! ("file" : str) = Some file →
  allowed_file (filename file) = true →
  upload_file req g
  = let name := secure_filename (filename file) in
    let g' := {| current_job := current_job g; job_status := job_status g;
                 files := <[UPLOAD_FOLDER ++ "/" ++ name := stream file]> (files g) |} in
    match read_options (req_form req) with
    | None => {| outcome := Raised ValueError; after := g'; spawned := None |}
    | Some opts =>
        {| outcome := Respond 200 [("message" : str, "File uploaded and processing started" : str);
                                   ("filename" : str, name)];
           after := g';
           spawned := Some {| filepath := UPLOAD_FOLDER ++ "/" ++ name;
                              options := opts; pc := AtEntry |} |}
    end.
Proof.
  intros Hidle Hfile Hallowed. unfold upload_file. rewrite Hidle, Hfile.
  assert (filename file ≠ []) as Hne.
  { intros E. rewrite E in Hallowed. done. }
  rewrite decide_False by done.
  rewrite bool_decide_true by done. rewrite Hallowed. simpl.
  unfold file_save. rewrite upload_path.
  rewrite decide_False.
  2: { rewrite last_upload_path. by apply secure_filename_allowed. }
  done.
Qed.

(** The checks of the handler in the order they are made, each with the
    answer it gives. *)
Lemma upload_file_answers (req : Request) (g : Shared) :
  (truthy (current_job g) = true
   ∧ upload_file req g = reject g "Another job is already running")
  ∨ (truthy (current_job g) = false
     ∧ ((req_files req !! ("file" : str) = None
         ∧ upload_file req g = reject g "No file provided")
        ∨ ∃ file, req_files req !! ("file" : str) = Some file
           ∧ ((filename file = [] ∧ upload_file req g = reject g "No file selected")
              ∨ (filename file ≠ [] ∧ allowed_file (filename file) = false
                 ∧ upload_file req g = reject g "File type not allowed")
              ∨ (allowed_file (filename file) = true
                 ∧ files (after (upload_file req g))
                   = <[UPLOAD_FOLDER ++ "/" ++ secure_filename (filename file)
                       := stream file]> (files g)
                 ∧ ((read_options (req_form req) = None
                     ∧ outcome (upload_file req g) = Raised ValueError
                     ∧ spawned (upload_file req g) = None)
                    ∨ (∃ opts, read_options (req_form req) = Some opts
                       ∧ outcome (upload_file req g)
                         = Respond 200
                             [("message" : str, "File uploaded and processing started" : str);
                              ("filename" : str, secure_filename (filename file))]
                       ∧ spawned (upload_file req g)
                         = Some {| filepath := UPLOAD_FOLDER ++ "/"
                                               ++ secure_filename (filename file);
                                   options := opts; pc := AtEntry |})))))).
Proof.
  destruct (truthy (current_job g)) eqn:Eb.
  { left. split; [done|]. unfold upload_file. by rewrite Eb. }
  right. split; [done|].
  destruct (req_files req !! ("file" : str)) as [file|] eqn:Ef.
  2: { left. split; [done|]. unfold upload_file. by rewrite Eb, Ef. }
  right. exists file. split; [done|].
  destruct (decide (filename file = [])) as [En|En].
  { left. split; [done|]. unfold upload_file. rewrite Eb, Ef. by rewrite decide_True. }
  right. destruct (allowed_file (filename file)) eqn:Ea.
  2: { left. split_and!; [done|done|]. unfold upload_file. rewrite Eb, Ef.
       rewrite decide_False by done. by rewrite Ea, andb_false_r. }
  right. split; [done|].
  rewrite (upload_file_allowed req file g) by done. cbn zeta.
  destruct (read_options (req_form req)) as [opts|] eqn:Eo; simpl.
  - split; [done|]. right. by exists opts.
  - split; [done|]. by left.
Qed.

(** A worker is started exactly when the handler answers 200, and it
    answers 200 exactly when no job is running and the request is a valid
    upload. *)
Lemma upload_file_accepted_iff (req : Request) (g : Shared) :
  ((∃ body, outcome (upload_file req g) = Respond 200 body)
   ↔ truthy (current_job g) = false ∧ ∃ file, valid_upload req file)
  ∧ (is_Some (spawned (upload_file req g))
     ↔ ∃ body, outcome (upload_file req g) = Respond 200 body).
Proof.
  destruct (upload_file_answers req g)
    as [[Eb ->]|[Eb [[Ef ->]|(file & Ef & [[En ->]|[(En & Ea & ->)|(Ea & _ & Hopt)]])]]];
    simpl.
  - split; split; try (by intros [? [=]]). intros [? _]. congruence.
  - split; split; try (by intros [? [=]]). intros [_ (file & Hf & _)]. congruence.
  - split; split; try (by intros [? [=]]).
    intros [_ (file' & Hf & Ha & _)]. simplify_eq. by rewrite En in Ha.
  - split; split; try (by intros [? [=]]).
    intros [_ (file' & Hf & Ha & _)]. simplify_eq. congruence.
  - destruct Hopt as [(Eo & -> & ->)|(opts & Eo & -> & ->)].
    + split; split; try (by intros [? [=]]).
      intros [_ (file' & _ & _ & [o Ho])]. congruence.
    + split; split; try (intros _; by eexists).
      intros _. split; [done|]. exists file. split_and!; [done|done|by eexists].
Qed.


(** The three ways of the route. *)
Lemma upload_route_cases (a : Arrival) (g : Shared) :
  (truthy (current_job g) = true
   ∧ upload_route a g = own (reject g "Another job is already running"))
  ∨ (truthy (current_job g) = false ∧ MAX_CONTENT_LENGTH < content_length a
     ∧ upload_route a g
       = {| route_outcome := RequestEntityTooLarge; route_after := g;
            route_spawned := None |})
  ∨ (truthy (current_job g) = false ∧ content_length a ≤ MAX_CONTENT_LENGTH
     ∧ upload_route a g = own (upload_file (parts a) g)).
Proof.
  unfold upload_route. destruct (truthy (current_job g)); [by left|right].
  case_bool_decide; [left|right]; split_and!; [done|done|done|done|lia|done].
Qed.

(** X14: the route answers 200 exactly when no job is running, the body is
    not longer than [MAX_CONTENT_LENGTH], the 100 MiB of line 23, and the
    request is a valid upload; a worker is started exactly when the answer
    is 200. *)
Theorem upload_route_accepted_iff (a : Arrival) (g : Shared) :
  ((∃ body, route_outcome (upload_route a g) = Own (Respond 200 body))
   ↔ truthy (current_job g) = false
     ∧ content_length a ≤ MAX_CONTENT_LENGTH
     ∧ ∃ file, valid_upload (parts a) file)
  ∧ (is_Some (route_spawned (upload_route a g))
     ↔ ∃ body, route_outcome (upload_route a g) = Own (Respond 200 body))
  ∧ (status_code (route_outcome (upload_route a g)) = 200
     ↔ ∃ body, route_outcome (upload_route a g) = Own (Respond 200 body)).
Proof.
  split_and!.
  - destruct (upload_route_cases a g) as [[Eb ->]|[(Eb & Hlen & ->)|(Eb & Hlen & ->)]]; simpl.
    + split; [by intros [? [=]]|]. intros [? _]. congruence.
    + split; [by intros [? [=]]|]. intros (_ & ? & _). lia.
    + destruct (upload_file_accepted_iff (parts a) g) as [[H1 H2] _]. split.
      * intros [body [= E]]. destruct H1 as [? ?]; [by exists body|done].
      * intros (? & _ & ?). destruct H2 as [body E]; [done|]. exists body. by rewrite E.
  - destruct (upload_route_cases a g) as [[Eb ->]|[(Eb & Hlen & ->)|(Eb & Hlen & ->)]]; simpl.
    + split; [by intros [? [=]]|by intros [? [=]]].
    + split; [by intros [? [=]]|by intros [? [=]]].
    + destruct (upload_file_accepted_iff (parts a) g) as [_ [H1 H2]]. split.
      * intros Hs. destruct (H1 Hs) as [body E]. exists body. by rewrite E.
      * intros [body [= E]]. apply H2. by exists body.
  - destruct (route_outcome (upload_route a g)) as [[code body|e]|]; simpl.
    + split; [intros ->; by exists body|by intros [? [= -> _]]].
    + split; [done|by intros [? [=]]].
    + split; [done|by intros [? [=]]].
Qed.


(** A book of 100 MiB and one byte is turned away with 413 by an idle
    server, and nothing of it is saved. *)
Example upload_route_too_large :
  status_code (route_outcome (upload_route (rt := ascii_runtime true)
                                arrival_too_large initial_shared)) = 413
  ∧ files (route_after (upload_route (rt := ascii_runtime true)
                          arrival_too_large initial_shared)) = files initial_shared.
Proof. split; reflexivity. Qed.

End Answers.

(** ** One job from the upload to the download *)

Section EndToEnd.
Context {rt : Runtime}.
Variable created : str → str.

Lemma apply_effect_token eff g :
  (∀ t, eff ≠ SetToken t) → current_job (apply_effect eff g) = current_job g.
Proof. intros Hne. destruct eff; simpl; try done. by destruct (Hne t). Qed.

(** A worker that runs alone, from a point past the start update and while
    nothing is raised, does to the shared state what its script says. *)
Lemma lone_run (w : World) (tid : nat) (wk : Worker) (evs : list Event) :
  threads w !! tid = Some wk →
  pc wk ≠ AtEntry → pc wk ≠ AtStart →
  (pc wk ≠ Done → current_job (shared w) = Some (filepath wk)) →
  Forall (λ ev, raises ev = None) evs →
  (remaining (pc wk) ≤ length evs)%nat →
  shared (sys_run w (Run tid <$> evs))
  = foldl (λ g e, apply_effect e g) (shared w) (script (filepath wk) (pc wk))
  ∧ pc <$> threads (sys_run w (Run tid <$> evs)) !! tid = Some Done.
Proof.
  revert w wk. induction evs as [|ev evs IH]; intros w wk Hwk H1 H2 Htok Hq Hlen.
  - assert (pc wk = Done) as E by (apply remaining_Done; simpl in Hlen; lia).
    simpl. rewrite Hwk. split; [by rewrite E|]. simpl. by rewrite E.
  - apply Forall_cons in Hq as [Hev Hq]. rewrite fmap_cons, sys_run_cons.
    assert (threads (sys_step w (Run tid ev)) !! tid
            = Some (at_pc wk (worker_next (current_job (shared w)) ev
                                          (filepath wk) (pc wk)).1)) as Hstep.
    { simpl. rewrite Hwk. destruct (worker_next _ _ _ _) as [pc' eff]. simpl.
      apply list_lookup_insert_eq. by eapply lookup_lt_Some. }
    assert (shared (sys_step w (Run tid ev))
            = apply_effect (worker_next (current_job (shared w)) ev
                                        (filepath wk) (pc wk)).2 (shared w)) as Hsh.
    { simpl. rewrite Hwk. by destruct (worker_next _ _ _ _) as [pc' eff]. }
    remember (sys_step w (Run tid ev)) as w1 eqn:Ew1. clear Ew1.
    destruct (decide (pc wk = Done)) as [Hd|Hd].
    { rewrite Hd in *. cbn [worker_next fst snd apply_effect] in *.
      destruct (IH _ _ Hstep) as [E1 E2];
        [done|done|done|done|simpl; lia|].
      rewrite E1, E2, Hsh. done. }
    rewrite (Htok Hd) in *.
    pose proof (worker_next_decreases (Some (filepath wk)) ev (filepath wk) (pc wk) Hd) as Hdec.
    destruct (worker_next (Some (filepath wk)) ev (filepath wk) (pc wk)) as [pc' eff] eqn:En.
    simpl in Hdec, Hstep, Hsh, Hlen.
    destruct (script_step (filepath wk) (pc wk) ev pc' eff H1 H2 Hd En)
      as [(Es & H1' & H2')|(e & He & _)]; [|congruence].
    assert (pc' ≠ Done → current_job (shared w1) = Some (filepath wk)) as Htok'.
    { intros Hd'. rewrite Hsh.
      destruct (in_try_step _ _ _ _ _ _ (conj H1 Hd) En) as [(_ & -> & _)|[_ Heff]]; [done|].
      rewrite apply_effect_token by done. by apply Htok. }
    destruct (IH _ _ Hstep) as [E1 E2];
      [done|done|done|done|simpl; lia|].
    rewrite E1, E2, Hsh, Es. done.
Qed.

(** The shared state after the script of a whole run. *)
Lemma script_result (g : Shared) (fp : str) :
  foldl (λ g e, apply_effect e g) g (script fp (AtLoop BookNLP (py_range 10 50 5)))
  = {| current_job := None;
       job_status :=
         {| status := completed;
            progress := 100;
            message := "Audiobook generated successfully: " ++ output_filename fp;
            start_time := start_time (job_status g);
            output_file := Some (output_filename fp) |};
       files := <[output_path fp := dummy_audiobook]>
                  (<[output_path fp := []]> (files g)) |}.
Proof. reflexivity. Qed.

Lemma output_filename_m4b fp : (".m4b" : str) `suffix_of` output_filename fp.
Proof.
  destruct (output_filename_spec fp) as (root & ext & _ & _ & _ & ->).
  exists (root ++ "_audiobook"). by rewrite <- app_assoc.
Qed.

(** X16: one job from end to end.  On a server with the pipeline and no
    running job, a valid upload followed by 57 steps of its worker, with
    nothing raised and no other thread running, leaves the status at
    [completed], progress at 100, the token cleared, the upload stored under
    its sanitised name, and [output_file] set to that name with its
    extension replaced by ["_audiobook.m4b"]; that file can be downloaded
    with the bytes the worker wrote and is in the listing with its size. *)
Theorem upload_then_run_completes
    (w : World) (req : Request) (file : FileStorage) (evs : list Event) :
  VOXNOVEL_AVAILABLE = true →
  truthy (current_job (shared w)) = false →
  valid_upload req file →
  Forall (λ ev, raises ev = None) evs →
  (57 ≤ length evs)%nat →
  let tid := length (threads w) in
  let w' := sys_run (sys_step w (Upload req)) (Run tid <$> evs) in
  let upload := secure_filename (filename file) in
  let name := (Py.os_path_splitext upload).1 ++ "_audiobook.m4b" in
  status (job_status (shared w')) = completed
  ∧ progress (job_status (shared w')) = 100
  ∧ output_file (job_status (shared w')) = Some name
  ∧ current_job (shared w') = None
  ∧ files (shared w') !! (UPLOAD_FOLDER ++ "/" ++ upload) = Some (stream file)
  ∧ download_file name (shared w') = Attachment name dummy_audiobook
  ∧ ∃ j, j ∈ list_jobs created (shared w')
         ∧ job_filename j = name
         ∧ job_size j = Z.of_nat (length dummy_audiobook).
Proof.
  intros Havail Hidle (Hfile & Hallowed & [opts Hopts]) Hq Hlen tid w' upload name.
  set (fp := UPLOAD_FOLDER ++ "/" ++ upload).
  assert (name = output_filename fp) as Ename.
  { unfold output_filename, fp. by rewrite os_path_basename_join by apply secure_filename_no_sep. }
  destruct evs as [|e1 [|e2 evs]]; simpl in Hlen; try lia.
  apply Forall_cons in Hq as [_ Hq]. apply Forall_cons in Hq as [_ Hq].
  set (wk := {| filepath := fp; options := opts; pc := AtEntry |}).
  set (g1 := {| current_job := current_job (shared w); job_status := job_status (shared w);
                files := <[fp := stream file]> (files (shared w)) |}).
  assert (sys_step w (Upload req) = {| shared := g1; threads := threads w ++ [wk] |}) as E1.
  { simpl. by rewrite (upload_file_accepted req file (shared w) opts). }
  set (g3 := {| current_job := Some fp;
                job_status := dict_update (upd_start (now e2)) (job_status (shared w));
                files := <[fp := stream file]> (files (shared w)) |}).
  assert (sys_run (sys_step w (Upload req)) [Run tid e1; Run tid e2]
          = {| shared := g3;
               threads := threads w ++ [at_pc wk (AtLoop BookNLP (py_range 10 50 5))] |}) as E3.
  { rewrite E1. unfold sys_run. cbn [foldl sys_step threads shared].
    unfold tid. rewrite list_lookup_middle by done. cbn [worker_next pc filepath wk].
    rewrite Havail. cbn [threads shared apply_effect].
    rewrite list_lookup_insert_eq by (rewrite length_app; simpl; lia).
    cbn [worker_next pc filepath at_pc apply_effect].
    f_equal. rewrite list_insert_insert_eq.
    replace (length (threads w)) with (length (threads w) + 0)%nat by lia.
    by rewrite (insert_app_r (threads w) [wk] 0). }
  assert (w' = sys_run (sys_run (sys_step w (Upload req)) [Run tid e1; Run tid e2])
                       (Run tid <$> evs)) as Ew' by done.
  rewrite E3 in Ew'.
  destruct (lone_run {| shared := g3;
                        threads := threads w ++ [at_pc wk (AtLoop BookNLP (py_range 10 50 5))] |}
                     tid (at_pc wk (AtLoop BookNLP (py_range 10 50 5))) evs) as [Esh _];
    [unfold tid; by apply list_lookup_middle|done|done|done|done|simpl; lia|].
  rewrite <- Ew' in Esh. cbn [shared filepath at_pc wk pc] in Esh.
  rewrite script_result in Esh. rewrite Esh. cbn [job_status status progress output_file
    current_job files g3].
  destruct (output_path_inside fp) as [Eout _]. rewrite <- Ename in Eout.
  assert (is_component name) as Hc by (rewrite Ename; apply output_filename_component).
  split_and!; try done.
  - by rewrite Ename.
  - rewrite Eout. rewrite !lookup_insert_ne by (intros E; discriminate E).
    apply lookup_insert_eq.
  - rewrite download_file_component by done. cbn [files].
    by rewrite <- Eout, lookup_insert_eq.
  - exists {| job_filename := name; job_size := Z.of_nat (length dummy_audiobook);
              job_created := created (OUTPUT_FOLDER ++ "/" ++ name) |}.
    split; [|done]. apply elem_of_list_jobs. exists dummy_audiobook.
    cbn [job_filename job_size job_created files].
    split_and!; try done.
    + by rewrite <- Eout, lookup_insert_eq.
    + rewrite Ename. apply output_filename_m4b.
Qed.

End EndToEnd.

(** ** The single job slot *)

Section SlotProperties.
Context {rt : Runtime}.

Lemma failed_consistent_unavailable js :
  output_file js = None → consistent (dict_update upd_unavailable js).
Proof. intros Ho. unfold consistent. simpl. rewrite Ho. split; [by intros [? [=]] | done]. Qed.

Lemma slot_holds_consistent g wk : slot_holds g wk → consistent (job_status g).
Proof.
  unfold slot_holds. destruct (pc wk); try done; try (by intros (_ & _ & ?));
    try (by intros (_ & ?));
    intros (_ & _ & Ho & Hs); (split; [rewrite Ho; by intros [? [=]] | done]).
Qed.

Lemma slot_holds_busy g wk :
  slot_holds g wk → pc wk ≠ AtEntry → current_job g = Some (filepath wk).
Proof.
  unfold slot_holds. destruct (pc wk); try done; try (by intros (_ & ? & _)).
Qed.

(** A step of a thread that has returned changes nothing but the thread
    list entry, which stays at [Done]. *)
Lemma sys_step_done (w : World) tid ev wk :
  threads w !! tid = Some wk → pc wk = Done →
  shared (sys_step w (Run tid ev)) = shared w
  ∧ threads (sys_step w (Run tid ev)) = <[tid := at_pc wk Done]> (threads w).
Proof. intros Hwk Hd. simpl. rewrite Hwk, Hd. done. Qed.

Lemma slot_step_other (w : World) tid wk tid' ev :
  slot_busy w tid wk → tid' ≠ tid → slot_busy (sys_step w (Run tid' ev)) tid wk.
Proof.
  intros (Hwk & Hothers & Hne & Hh) Hneq.
  destruct (threads w !! tid') as [wk'|] eqn:E'.
  - destruct (sys_step_done w tid' ev wk' E' (Hothers _ _ Hneq E')) as [Es Et].
    split_and!; rewrite ?Es, ?Et; try done.
    + by rewrite list_lookup_insert_ne.
    + intros t k Ht. destruct (decide (t = tid')) as [->|Htt].
      * rewrite list_lookup_insert_eq by by eapply lookup_lt_Some. by intros [= <-].
      * rewrite list_lookup_insert_ne by done. by apply Hothers.
  - simpl. rewrite E'. done.
Qed.

(** The step of the only running worker. *)
Lemma slot_step_self (w : World) tid wk ev :
  (VOXNOVEL_AVAILABLE = false → output_file (job_status (shared w)) = None) →
  slot_busy w tid wk → slot_invariant (sys_step w (Run tid ev)).
Proof.
  intros Hna (Hwk & Hothers & Hne & Hh).
  assert (tid < length (threads w))%nat as Hlt by by eapply lookup_lt_Some.
  assert (∀ pc' g', slot_holds g' (at_pc wk pc') →
            (VOXNOVEL_AVAILABLE = false → output_file (job_status g') = None) →
            slot_invariant {| shared := g'; threads := <[tid := at_pc wk pc']> (threads w) |})
    as Hbusy.
  { intros pc' g' Hh' Hna'. split; [done|]. right. exists tid, (at_pc wk pc').
    split_and!; simpl; try done.
    - by apply list_lookup_insert_eq.
    - intros t k Ht. rewrite list_lookup_insert_ne by done. by apply Hothers. }
  assert (∀ g', current_job g' = None → consistent (job_status g') →
            (VOXNOVEL_AVAILABLE = false → output_file (job_status g') = None) →
            slot_invariant {| shared := g'; threads := <[tid := at_pc wk Done]> (threads w) |})
    as Hidle.
  { intros g' Ht Hc Hna'. split; [done|]. left. split_and!; simpl; try done.
    apply Forall_forall. intros k Hk. apply list_elem_of_lookup in Hk as [t Hk].
    destruct (decide (t = tid)) as [->|Hneq].
    - rewrite list_lookup_insert_eq in Hk by done. by simplify_eq.
    - rewrite list_lookup_insert_ne in Hk by done. by eapply Hothers. }
  simpl. rewrite Hwk. unfold slot_holds in Hh.
  destruct (pc wk) as [| |ph [|i todo]|ph i todo|ph i todo| | | | |e| |] eqn:Epc;
    try done; unfold worker_next, guarded.
  - destruct Hh as [Ht Hc]. destruct VOXNOVEL_AVAILABLE eqn:Ea.
    + apply Hbusy; [|done]. unfold slot_holds. simpl. done.
    + apply Hidle; simpl; [done| |by auto].
      apply failed_consistent_unavailable. by apply Hna.
  - destruct Hh as (Ha & Ht & Hc). apply Hbusy; [|congruence].
    unfold slot_holds. simpl. done.
  - destruct Hh as (Ha & Ht & Ho & Hs).
    destruct ph; (apply Hbusy; [|congruence]); unfold slot_holds; simpl; done.
  - destruct Hh as (Ha & Ht & Ho & Hs). rewrite Ht.
    destruct ph; rewrite decide_False by (by intros ?);
      (apply Hbusy; [|congruence]); unfold slot_holds; simpl; done.
  - destruct Hh as (Ha & Ht & Ho & Hs).
    destruct (raises ev); (apply Hbusy; [|congruence]); unfold slot_holds; simpl; done.
  - destruct Hh as (Ha & Ht & Ho & Hs).
    apply Hbusy; [|congruence]. unfold slot_holds. simpl. done.
  - destruct Hh as (Ha & Ht & Ho & Hs).
    destruct (raises ev); (apply Hbusy; [|congruence]); unfold slot_holds; simpl; done.
  - destruct Hh as (Ha & Ht & Ho & Hs).
    destruct (raises ev); (apply Hbusy; [|congruence]); unfold slot_holds; simpl; done.
  - destruct Hh as (Ha & Ht & Ho & Hs).
    destruct (raises ev); (apply Hbusy; [|congruence]); unfold slot_holds; simpl; done.
  - destruct Hh as (Ha & Ht & Ho & Hs).
    apply Hbusy; [|congruence]. unfold slot_holds. simpl.
    split_and!; first [done | apply completed_consistent].
  - destruct Hh as (Ha & Ht & Ho & Hs).
    apply Hbusy; [|congruence]. unfold slot_holds. simpl.
    split_and!; first [done | by apply failed_consistent].
  - destruct Hh as (Ha & Ht & Hc). apply Hidle; simpl; [done|done|congruence].
Qed.

Lemma slot_step (w : World) (a : Action) :
  slot_invariant w →
  match a with
  | Upload _ => Forall (λ wk, pc wk ≠ AtEntry) (threads w)
  | Run _ _ => True
  end →
  slot_invariant (sys_step w a).
Proof.
  intros [Hna Hslot] Htime. destruct a as [req|tid ev].
  - destruct (upload_file_frame req (shared w)) as [Etok Ejs].
    destruct Hslot as [(Hdone & Ht & Hc)|(tid & wk & Hwk & Hothers & Hne & Hh)].
    + split; [simpl; by rewrite Ejs|].
      destruct (spawned (upload_file req (shared w))) as [wk|] eqn:E.
      * right. exists (length (threads w)), wk.
        apply upload_file_spawned in E as E'. destruct E' as [Hfp Hpc].
        split_and!; simpl; rewrite ?E; simpl; try done.
        -- by apply list_lookup_middle.
        -- intros t k Hneq Hk. rewrite Forall_forall in Hdone. apply Hdone.
           apply list_elem_of_lookup. exists t.
           destruct (decide (t < length (threads w))%nat) as [Hlt|Hge].
           ++ by rewrite lookup_app_l in Hk.
           ++ rewrite lookup_app_r in Hk by lia.
              destruct (t - length (threads w))%nat as [|m] eqn:Em; [lia|done].
        -- unfold slot_holds. rewrite Hpc. by rewrite Etok, Ejs.
      * left. split_and!; simpl; rewrite ?E, ?Etok, ?Ejs; simpl; try done.
        by rewrite app_nil_r.
    + assert (pc wk ≠ AtEntry) as Hpc.
      { rewrite Forall_forall in Htime. apply Htime. by eapply list_elem_of_lookup_2. }
      pose proof (slot_holds_busy _ _ Hh Hpc) as Ht.
      assert (upload_file req (shared w) = reject (shared w) "Another job is already running")
        as Er.
      { unfold upload_file. rewrite Ht. by destruct (filepath wk). }
      assert (sys_step w (Upload req) = w) as ->.
      { simpl. rewrite Er. simpl. rewrite app_nil_r. by destruct w. }
      split; [done|]. right. by exists tid, wk.
  - destruct Hslot as [(Hdone & Ht & Hc)|(tid0 & wk & Hbusy)].
    + destruct (threads w !! tid) as [wk|] eqn:E.
      * assert (pc wk = Done) as Hd.
        { rewrite Forall_forall in Hdone. apply Hdone. by eapply list_elem_of_lookup_2. }
        destruct (sys_step_done w tid ev wk E Hd) as [Es Et].
        split; [by rewrite Es|]. left. split_and!; rewrite ?Es, ?Et; try done.
        by apply Forall_insert.
      * simpl. rewrite E. split; [done|]. by left.
    + destruct (decide (tid = tid0)) as [->|Hneq]; [by apply (slot_step_self w tid0 wk)|].
      split; [|right; exists tid0, wk; by apply slot_step_other].
      destruct Hbusy as (Hwk & Hothers & _).
      destruct (threads w !! tid) as [wk'|] eqn:E.
      * destruct (sys_step_done w tid ev wk' E (Hothers _ _ Hneq E)) as [Es _].
        by rewrite Es.
      * simpl. by rewrite E.
Qed.

Lemma well_timed_invariant (w : World) (acts : list Action) :
  slot_invariant w → well_timed w acts → slot_invariant (sys_run w acts).
Proof.
  revert w. induction acts as [|a acts IH]; intros w Hinv Htimed; [done|].
  destruct Htimed as [Ha Htimed]. rewrite sys_run_cons. apply IH; [|done].
  by apply slot_step.
Qed.

Lemma slot_invariant_initial : slot_invariant initial_world.
Proof. split; [done|]. left. split_and!; [apply Forall_nil_2|done|].
  split; [by intros [? [=]]|done]. Qed.

(** X17: as long as no upload is handled between the start of a worker and
    its line 143, the job slot is single: at most one worker has not
    returned, and a token that is set is the file path of that worker, which
    is inside its [try] statement. *)
Theorem single_job_slot (acts : list Action) :
  well_timed initial_world acts →
  let w := sys_run initial_world acts in
  (∀ t1 t2 wk1 wk2,
     threads w !! t1 = Some wk1 → threads w !! t2 = Some wk2 →
     pc wk1 ≠ Done → pc wk2 ≠ Done → t1 = t2)
  ∧ (∀ fp, current_job (shared w) = Some fp →
       ∃ tid wk, threads w !! tid = Some wk ∧ filepath wk = fp ∧ in_try (pc wk)).
Proof.
  intros Htimed w.
  pose proof (well_timed_invariant _ _ slot_invariant_initial Htimed) as Hinv.
  fold w in Hinv.
  destruct Hinv as [_ [(Hdone & Ht & _)|(tid & wk & Hwk & Hothers & _ & Hh)]].
  - split.
    + intros t1 t2 wk1 wk2 H1 _ Hl1 _. exfalso. apply Hl1.
      rewrite Forall_forall in Hdone. apply Hdone. by eapply list_elem_of_lookup_2.
    + intros fp Hfp. congruence.
  - split.
    + intros t1 t2 wk1 wk2 H1 H2 Hl1 Hl2.
      destruct (decide (t1 = tid)) as [->|Hn1]; [|by destruct (Hl1 (Hothers _ _ Hn1 H1))].
      destruct (decide (t2 = tid)) as [->|Hn2]; [done|by destruct (Hl2 (Hothers _ _ Hn2 H2))].
    + intros fp Hfp. exists tid, wk. split; [done|].
      destruct (decide (pc wk = AtEntry)) as [He|He].
      * unfold slot_holds in Hh. rewrite He in Hh. destruct Hh as [Hn _]. congruence.
      * pose proof (slot_holds_busy _ _ Hh He) as Ht. split; [congruence|].
        split; [done|]. intros Hd. unfold slot_holds in Hh. by rewrite Hd in Hh.
Qed.

(** X18: as long as no upload is handled between the start of a worker and
    its line 143, [output_file] is set exactly when the status is
    [completed], in every state the server goes through. *)
Theorem well_timed_record_consistent (acts : list Action) :
  well_timed initial_world acts →
  consistent (job_status (shared (sys_run initial_world acts))).
Proof.
  intros Htimed.
  destruct (well_timed_invariant _ _ slot_invariant_initial Htimed)
    as [_ [(_ & _ & Hc)|(tid & wk & _ & _ & _ & Hh)]]; [done|].
  by eapply slot_holds_consistent.
Qed.

End SlotProperties.

(** ** The launcher: directories *)
Section Makedirs.

Lemma is_file_insert_ne (d : Disk) p q :
  p ≠ q → is_file (<[q := Directory]> d) p = is_file d p.
Proof. intros Hne. unfold is_file. by rewrite lookup_insert_ne. Qed.

Lemma is_file_insert (d : Disk) p : is_file (<[p := Directory]> d) p = false.
Proof. unfold is_file. by rewrite lookup_insert_eq. Qed.

Lemma mkdir_exist_ok_spec (name : str) (d : Disk) :
  name ≠ [] →
  (let parent := (os_path_split name).1 in parent = [] ∨ d !! parent = Some Directory) →
  mkdir_exist_ok name d =
    if is_file d name then (Some (FileExistsError name), d)
    else (None, <[name := Directory]> d).
Proof.
  intros Hne Hparent. unfold mkdir_exist_ok, os_mkdir, is_file, path_exists, path_isdir.
  rewrite bool_decide_false by done.
  assert ((if bool_decide ((os_path_split name).1 = [])
           then Some Directory else d !! (os_path_split name).1) = Some Directory) as ->.
  { case_bool_decide; [done|]. by destruct Hparent. }
  destruct (d !! name) as [[content|]|] eqn:E; rewrite ?E; try done.
  by rewrite insert_id.
Qed.

Lemma mkdir_exist_ok_blocked (name : str) (d : Disk) :
  name ≠ [] → (os_path_split name).1 ≠ [] → is_file d (os_path_split name).1 = true →
  d !! name = None →
  mkdir_exist_ok name d = (Some (NotADirectoryError name), d).
Proof.
  intros Hne Hp Hfile Hnone.
  unfold mkdir_exist_ok, os_mkdir, is_file, path_isdir in *.
  rewrite !bool_decide_false by done.
  destruct (d !! (os_path_split name).1) as [[content|]|] eqn:E; try done.
  by rewrite Hnone.
Qed.

(** A name without a slash. *)
Lemma makedirs_go_flat (fuel : nat) (name : str) (d : Disk) :
  name ≠ [] → os_path_split name = ([], name) →
  makedirs_go fuel name d =
    if is_file d name then (Some (FileExistsError name), d)
    else (None, <[name := Directory]> d).
Proof.
  intros Hne Hsplit.
  assert (makedirs_split name = ([], name)) as Hms.
  { unfold makedirs_split. rewrite Hsplit. by rewrite bool_decide_false. }
  destruct fuel as [|fuel]; simpl; rewrite Hms; simpl;
    (apply mkdir_exist_ok_spec; [done|]; left; by rewrite Hsplit).
Qed.

Lemma os_makedirs_flat (name : str) (d : Disk) :
  name ≠ [] → os_path_split name = ([], name) →
  os_makedirs name d =
    if is_file d name then (Some (FileExistsError name), d)
    else (None, <[name := Directory]> d).
Proof. apply makedirs_go_flat. Qed.

(** A name with one slash, in a disk that has nothing below a regular
    file. *)
Lemma os_makedirs_nested (head tail name : str) (d : Disk) :
  os_path_split name = (head, tail) →
  os_path_split head = ([], head) →
  name ≠ [] → head ≠ [] → tail ≠ [] → tail ≠ "." → name ≠ head →
  (is_file d head = true → d !! name = None) →
  os_makedirs name d =
    if is_file d head then (Some (NotADirectoryError name), d)
    else if is_file d name then (Some (FileExistsError name), <[head := Directory]> d)
    else (None, <[name := Directory]> (<[head := Directory]> d)).
Proof.
  intros Hsplit Hhead Hne Hh Ht Hdot Hnh Hwf. unfold os_makedirs.
  assert (makedirs_split name = (head, tail)) as Hms.
  { unfold makedirs_split. rewrite Hsplit. by rewrite bool_decide_false. }
  destruct (length name) as [|fuel] eqn:El; [by destruct name|].
  simpl. rewrite Hms. rewrite !bool_decide_true by done. simpl.
  unfold path_exists. destruct (d !! head) as [[content|]|] eqn:E; simpl.
  - assert (is_file d head = true) as Hf by (unfold is_file; by rewrite E).
    rewrite Hf. apply mkdir_exist_ok_blocked; rewrite ?Hsplit; auto.
  - assert (is_file d head = false) as -> by (unfold is_file; by rewrite E).
    rewrite insert_id by done. apply mkdir_exist_ok_spec; [done|].
    rewrite Hsplit. by right.
  - assert (is_file d head = false) as Hf by (unfold is_file; by rewrite E).
    rewrite makedirs_go_flat, Hf by done. rewrite bool_decide_false by done.
    rewrite mkdir_exist_ok_spec; [|done|rewrite Hsplit; right; by rewrite lookup_insert_eq].
    by rewrite is_file_insert_ne.
Qed.

Lemma make_directories_cons (directory : str) (rest : list str) (d : Disk) :
  make_directories (directory :: rest) d =
    match os_makedirs directory d with
    | (Some e, d') => (Exc (OSError_raised e), [], d')
    | (None, d') =>
        match make_directories rest d' with
        | (r, did, d'') => (r, Printed (("✓ Directory ready: " : str) ++ directory) :: did, d'')
        end
    end.
Proof.
  simpl. unfold prog_bind at 1. unfold makedirs.
  destruct (os_makedirs directory d) as [[e|] d']; [done|].
  unfold prog_bind, print, call.
  by destruct (make_directories rest d') as [[r did] d''].
Qed.

Lemma well_formed_below (d : Disk) (name head tail : str) :
  well_formed d → os_path_split name = (head, tail) → head ≠ [] →
  is_file d head = true → d !! name = None.
Proof.
  intros Hwf Hsplit Hh Hfile. destruct (d !! name) as [x|] eqn:E; [|done].
  apply Hwf in E. rewrite Hsplit in E. simpl in E. destruct E as [E|E]; [done|].
  unfold is_file in Hfile. by rewrite E in Hfile.
Qed.

Lemma lookup_foldr_directories (d : Disk) (ps : list str) (p : str) :
  foldr (λ q, <[q := Directory]>) d ps !! p
  = if bool_decide (p ∈ ps) then Some Directory else d !! p.
Proof.
  induction ps as [|q ps IH]; simpl; [done|].
  destruct (decide (q = p)) as [->|Hne].
  - rewrite lookup_insert_eq. rewrite bool_decide_true; [done|by left].
  - rewrite lookup_insert_ne by done. rewrite IH.
    apply (f_equal (λ b : bool, if b then Some Directory else d !! p)).
    apply bool_decide_ext. rewrite elem_of_cons.
    split; [by right|intros [E|?]; [by destruct Hne|done]].
Qed.

Lemma lookup_with_directories (d : Disk) (p : str) :
  with_directories d !! p
  = if bool_decide (p ∈ needed_directories) then Some Directory else d !! p.
Proof. apply lookup_foldr_directories. Qed.

Ltac simplify_disk :=
  repeat first [rewrite is_file_insert | rewrite is_file_insert_ne by done].

Ltac flat_directory :=
  rewrite make_directories_cons, os_makedirs_flat by done; simplify_disk.

Ltac nested_directory head tail :=
  rewrite make_directories_cons, (os_makedirs_nested head tail);
    [simplify_disk|done|done|done|done|done|done|done|simplify_disk].

Lemma setup_directories_success (d : Disk) :
  (∀ p, p ∈ needed_directories → is_file d p = false) →
  setup_directories d = (Ret tt, ready_lines, with_directories d).
Proof.
  intros Hfree.
  assert (Forall (λ p, is_file d p = false) needed_directories) as Hall
    by by apply Forall_forall.
  unfold needed_directories in Hall.
  repeat match goal with
         | H : Forall _ (_ :: _) |- _ => apply Forall_cons in H; destruct H as [? H]
         end.
  clear Hall Hfree.
  unfold setup_directories, directories.
  flat_directory. rewrite H.
  flat_directory. rewrite H0.
  flat_directory. rewrite H1.
  nested_directory ("Working_files" : str) ("generated_audio_clips" : str); [|done].
  rewrite H2.
  nested_directory ("Working_files" : str) ("temp_ebook" : str); [|done].
  rewrite H3.
  flat_directory. rewrite H4.
  flat_directory. rewrite H5.
  nested_directory ("web_interface" : str) ("static" : str); [|by rewrite H6].
  rewrite H6, H7.
  nested_directory ("web_interface" : str) ("templates" : str); [|done].
  rewrite H8.
  simpl make_directories. unfold prog_ret. f_equal.
  apply map_eq. intros p. rewrite lookup_with_directories.
  etrans;
    [exact (lookup_foldr_directories d
              [ "web_interface/templates" : str; "web_interface" : str;
                "web_interface/static" : str; "web_interface" : str;
                "tortoise" : str; "Final_combined_output_audio" : str;
                "Working_files/temp_ebook" : str; "Working_files" : str;
                "Working_files/generated_audio_clips" : str; "Working_files" : str;
                "Working_files" : str; "output_audiobooks" : str; "uploads" : str ] p)|].
  apply (f_equal (λ b : bool, if b then Some Directory else d !! p)).
  apply bool_decide_ext. unfold needed_directories.
  rewrite !elem_of_cons, elem_of_nil. tauto.
Qed.

Lemma setup_directories_blocked (d : Disk) :
  well_formed d → blocked d →
  ∃ e did d',
    setup_directories d = (Exc (OSError_raised e), did, d')
    ∧ did `prefix_of` ready_lines.
Proof.
  intros Hwf Hblocked.
  unfold setup_directories, directories.
  flat_directory. destruct (is_file d "uploads") eqn:H1.
  { eexists _, _, _. split; [reflexivity|]. by eexists. }
  flat_directory. destruct (is_file d "output_audiobooks") eqn:H2.
  { eexists _, _, _. split; [reflexivity|]. by eexists. }
  flat_directory. destruct (is_file d "Working_files") eqn:H3.
  { eexists _, _, _. split; [reflexivity|]. by eexists. }
  nested_directory ("Working_files" : str) ("generated_audio_clips" : str); [|done].
  destruct (is_file d "Working_files/generated_audio_clips") eqn:H4.
  { eexists _, _, _. split; [reflexivity|]. by eexists. }
  nested_directory ("Working_files" : str) ("temp_ebook" : str); [|done].
  destruct (is_file d "Working_files/temp_ebook") eqn:H5.
  { eexists _, _, _. split; [reflexivity|]. by eexists. }
  flat_directory. destruct (is_file d "Final_combined_output_audio") eqn:H6.
  { eexists _, _, _. split; [reflexivity|]. by eexists. }
  flat_directory. destruct (is_file d "tortoise") eqn:H7.
  { eexists _, _, _. split; [reflexivity|]. by eexists. }
  nested_directory ("web_interface" : str) ("static" : str).
  2:{ intros Hfile. rewrite !lookup_insert_ne by done.
      by apply (well_formed_below d _ "web_interface" "static"). }
  destruct (is_file d "web_interface") eqn:H8.
  { eexists _, _, _. split; [reflexivity|]. by eexists. }
  destruct (is_file d "web_interface/static") eqn:H9.
  { eexists _, _, _. split; [reflexivity|]. by eexists. }
  nested_directory ("web_interface" : str) ("templates" : str); [|done].
  destruct (is_file d "web_interface/templates") eqn:H10.
  { eexists _, _, _. split; [reflexivity|]. by eexists. }
  exfalso. unfold blocked, needed_directories in Hblocked.
  rewrite !Exists_cons, Exists_nil in Hblocked.
  repeat destruct Hblocked as [Hb|Hblocked]; congruence.
Qed.

Lemma not_blocked_free (d : Disk) :
  ¬ blocked d → ∀ p, p ∈ needed_directories → is_file d p = false.
Proof.
  intros Hnb p Hp. destruct (is_file d p) eqn:E; [|done].
  destruct Hnb. apply Exists_exists. by exists p.
Qed.

Lemma setup_directories_raises_blocked (d : Disk) e did d' :
  setup_directories d = (Exc e, did, d') → blocked d.
Proof.
  intros E. destruct (decide (blocked d)) as [|Hnb]; [done|].
  rewrite (setup_directories_success d) in E by by apply not_blocked_free.
  done.
Qed.

Lemma setup_directories_returns_free (d : Disk) did d' :
  well_formed d → setup_directories d = (Ret tt, did, d') → ¬ blocked d.
Proof.
  intros Hwf E Hb. destruct (setup_directories_blocked d Hwf Hb) as (e & did1 & d1 & E1 & _).
  congruence.
Qed.

(** [os.makedirs] only adds: what is on the disk stays as it is. *)
Lemma os_mkdir_keeps (name : str) (d : Disk) : d ⊆ (os_mkdir name d).2.
Proof.
  unfold os_mkdir. case_bool_decide; [done|].
  destruct (if bool_decide ((os_path_split name).1 = []) then Some Directory
            else d !! (os_path_split name).1) as [[content|]|]; try done.
  unfold path_exists. destruct (d !! name) eqn:E; simpl; [done|].
  by apply insert_subseteq.
Qed.

Lemma mkdir_exist_ok_keeps (name : str) (d : Disk) : d ⊆ (mkdir_exist_ok name d).2.
Proof.
  unfold mkdir_exist_ok. pose proof (os_mkdir_keeps name d) as Hk.
  destruct (os_mkdir name d) as [[e|] d']; simpl in *; [|done].
  by destruct (path_isdir d' name).
Qed.

Lemma makedirs_go_keeps (fuel : nat) (name : str) (d : Disk) :
  d ⊆ (makedirs_go fuel name d).2.
Proof.
  revert name d. induction fuel as [|fuel IH]; intros name d; simpl;
    destruct (makedirs_split name) as [head tail];
    destruct (bool_decide (head ≠ []) && bool_decide (tail ≠ []) && negb (path_exists d head));
    try apply mkdir_exist_ok_keeps; [done|].
  pose proof (IH head d) as Hk.
  destruct (makedirs_go fuel head d) as [[[]|] d']; simpl in *; try done;
    (case_bool_decide; [done|]);
    (etrans; [exact Hk|apply mkdir_exist_ok_keeps]).
Qed.

Lemma make_directories_keeps (todo : list str) (d : Disk) :
  d ⊆ (make_directories todo d).2.
Proof.
  revert d. induction todo as [|directory rest IH]; intros d; [done|].
  rewrite make_directories_cons.
  pose proof (makedirs_go_keeps (length directory) directory d) as Hk.
  fold (os_makedirs directory d) in Hk.
  destruct (os_makedirs directory d) as [[e|] d1]; simpl in *; [done|].
  pose proof (IH d1) as Hk'.
  destruct (make_directories rest d1) as [[r did] d2]. simpl in *. by etrans.
Qed.

End Makedirs.

(** ** The launcher: gui_run_web.py *)

Lemma prog_bind_run {A B} (p : Prog A) (f : A → Prog B) (d : Disk) a did d' :
  p d = (Ret a, did, d') →
  prog_bind p f d = (let '(r, did', d'') := f a d' in (r, did ++ did', d'')).
Proof. intros E. unfold prog_bind. rewrite E. by destruct (f a d') as [[??]?]. Qed.

Lemma prog_bind_raise {A B} (p : Prog A) (f : A → Prog B) (d : Disk) e did d' :
  p d = (Exc e, did, d') → prog_bind p f d = (Exc e, did, d').
Proof. intros E. unfold prog_bind. by rewrite E. Qed.

Lemma prog_bind_print {B} (line : str) (f : unit → Prog B) (d : Disk) :
  prog_bind (print line) f d = (let '(r, did, d') := f tt d in (r, Printed line :: did, d')).
Proof. by rewrite (prog_bind_run _ _ _ tt [Printed line] d). Qed.

Lemma prog_bind_call {B} (e : Did) (f : unit → Prog B) (d : Disk) :
  prog_bind (call e) f d = (let '(r, did, d') := f tt d in (r, e :: did, d')).
Proof. by rewrite (prog_bind_run _ _ _ tt [e] d). Qed.

Lemma only_calm_prints_alarms did : only_calm_prints did → alarms did = [].
Proof.
  unfold alarms. induction 1 as [|e did (line & -> & Hl) _ IH]; simpl; [done|].
  rewrite filter_cons_False; [done|]. by rewrite Hl.
Qed.

Lemma only_calm_prints_pip did : only_calm_prints did → pip_calls did = [].
Proof. induction 1 as [|e did (line & -> & Hl) _ IH]; simpl; done. Qed.

Lemma only_calm_prints_app_runs did : only_calm_prints did → app_runs did = [].
Proof. induction 1 as [|e did (line & -> & Hl) _ IH]; simpl; done. Qed.

Lemma only_calm_prints_threads did : only_calm_prints did → threads_started did = [].
Proof. induction 1 as [|e did (line & -> & Hl) _ IH]; simpl; done. Qed.

Lemma alarms_app did1 did2 : alarms (did1 ++ did2) = alarms did1 ++ alarms did2.
Proof. unfold alarms, printed. by rewrite omap_app, filter_app. Qed.

Lemma alarms_calm line did :
  reports_failure line = false → alarms (Printed line :: did) = alarms did.
Proof. intros Hl. unfold alarms. simpl. rewrite filter_cons_False; [done|]. by rewrite Hl. Qed.

Lemma alarms_alarm line did :
  reports_failure line = true → alarms (Printed line :: did) = line :: alarms did.
Proof. intros Hl. unfold alarms. simpl. by rewrite filter_cons_True. Qed.

Lemma alarms_other e did :
  match e with Printed _ => False | _ => True end → alarms (e :: did) = alarms did.
Proof. by destruct e. Qed.

Ltac simplify_alarms :=
  repeat first
    [ rewrite alarms_app
    | rewrite alarms_calm by reflexivity
    | rewrite alarms_alarm by reflexivity
    | rewrite alarms_other by exact I ].

Lemma pip_calls_app did1 did2 : pip_calls (did1 ++ did2) = pip_calls did1 ++ pip_calls did2.
Proof. apply omap_app. Qed.

Lemma app_runs_app did1 did2 : app_runs (did1 ++ did2) = app_runs did1 ++ app_runs did2.
Proof. apply omap_app. Qed.

Lemma threads_started_app did1 did2 :
  threads_started (did1 ++ did2) = threads_started did1 ++ threads_started did2.
Proof. apply omap_app. Qed.

Lemma calm_print (line : str) :
  reports_failure line = false → ∃ l, Printed line = Printed l ∧ reports_failure l = false.
Proof. by exists line. Qed.

Section GuiRunWeb.
Variable h : Host.

Lemma check_packages_run (required missing_packages : list str) (d : Disk) :
  ∃ did,
    check_packages h required missing_packages d
    = (Ret (missing_packages ++ filter (λ package, import_error h package ≠ None) required),
       did, d)
    ∧ only_calm_prints did.
Proof.
  revert missing_packages. induction required as [|package rest IH]; intros acc; simpl.
  - exists []. rewrite app_nil_r. split; [done|constructor].
  - destruct (import_error h package) as [e|] eqn:E.
    + destruct (IH (acc ++ [package])) as (did & Hrun & Hcalm).
      rewrite prog_bind_print, Hrun. eexists. split.
      * rewrite filter_cons_True by by rewrite E. by rewrite <- app_assoc.
      * constructor; [|done]. by apply calm_print.
    + destruct (IH acc) as (did & Hrun & Hcalm).
      rewrite prog_bind_print, Hrun. eexists. split.
      * rewrite filter_cons_False; [done|]. rewrite E. by intros ?.
      * constructor; [|done]. by apply calm_print.
Qed.

Lemma check_dependencies_run (d : Disk) :
  ∃ did,
    check_dependencies h d = (Ret (dependencies_ok h), did, d)
    ∧ pip_calls did = (if bool_decide (missing h = []) then [] else [missing h])
    ∧ alarms did = [] ∧ app_runs did = [] ∧ threads_started did = [].
Proof.
  destruct (check_packages_run required_packages [] d) as (did & Hrun & Hcalm).
  pose proof (only_calm_prints_alarms _ Hcalm) as Hc.
  pose proof (only_calm_prints_pip _ Hcalm) as Hp.
  pose proof (only_calm_prints_app_runs _ Hcalm) as Ha.
  pose proof (only_calm_prints_threads _ Hcalm) as Ht.
  unfold check_dependencies, dependencies_ok.
  rewrite prog_bind_print, (prog_bind_run _ _ _ _ _ _ Hrun).
  change ([] ++ filter (λ package, import_error h package ≠ None) required_packages)
    with (missing h).
  destruct (decide (missing h = [])) as [E|E].
  - rewrite (bool_decide_false (missing h ≠ [])) by (intros Hn; by apply Hn).
    rewrite (bool_decide_true (missing h = [])) by done.
    eexists. split; [reflexivity|]. rewrite !app_nil_r.
    split_and!; simpl; try done; by simplify_alarms.
  - rewrite bool_decide_true, bool_decide_false by done.
    rewrite prog_bind_print, prog_bind_call.
    destruct (pip_install h (missing h)); rewrite prog_bind_print;
      (eexists; split; [reflexivity|]);
      (split_and!; simpl;
       rewrite ?pip_calls_app, ?app_runs_app, ?threads_started_app, ?Hp, ?Ha, ?Ht;
       try done; simplify_alarms; by rewrite Hc).
Qed.

Lemma initialize_models_run (d : Disk) :
  ∃ did, initialize_models h d = (Ret true, did, d) ∧ only_calm_prints did.
Proof.
  unfold initialize_models, import_module.
  destruct (import_error h "download_missing_booknlp_models") as [e1|];
    destruct (import_error h "TTS.api") as [e2|];
    (eexists; split; [reflexivity|]);
    repeat (constructor; [by apply calm_print|]); constructor.
Qed.

Lemma make_directories_run (todo : list str) (d : Disk) :
  ∃ r did d',
    make_directories todo d = (r, did, d')
    ∧ only_calm_prints did
    ∧ (r = Ret tt ∨ ∃ e, r = Exc (OSError_raised e)).
Proof.
  revert d. induction todo as [|directory rest IH]; intros d.
  - eexists _, _, _. split; [reflexivity|]. split; [constructor|by left].
  - rewrite make_directories_cons.
    destruct (os_makedirs directory d) as [[e|] d1].
    + eexists _, _, _. split; [reflexivity|]. split; [constructor|right; by eexists].
    + destruct (IH d1) as (r & did & d' & -> & Hcalm & Hr).
      eexists _, _, _. split; [reflexivity|]. split; [|done].
      constructor; [|done]. by apply calm_print.
Qed.

Lemma setup_directories_run (d : Disk) :
  ∃ r did d',
    setup_directories d = (r, did, d')
    ∧ only_calm_prints did
    ∧ (r = Ret tt ∨ ∃ e, r = Exc (OSError_raised e)).
Proof. apply make_directories_run. Qed.

(** The ways in which [main] ends. *)
Lemma main_cases (WEB_SERVER_AVAILABLE : bool) (d : Disk) :
  ∃ r did d',
    main h WEB_SERVER_AVAILABLE d = (r, did, d')
    ∧ pip_calls did = (if bool_decide (missing h = []) then [] else [missing h])
    ∧ ((dependencies_ok h = false ∧ r = Ret (Some 1) ∧ d' = d
        ∧ alarms did = ["❌ Failed to install dependencies" : str]
        ∧ app_runs did = [] ∧ threads_started did = [])
       ∨ (dependencies_ok h = true
          ∧ (∃ e did1, setup_directories d = (Exc (OSError_raised e), did1, d')
                       ∧ r = Exc (OSError_raised e))
          ∧ alarms did = [] ∧ app_runs did = [] ∧ threads_started did = [])
       ∨ (dependencies_ok h = true
          ∧ (∃ did1, setup_directories d = (Ret tt, did1, d'))
          ∧ ((WEB_SERVER_AVAILABLE = false ∧ r = Ret (Some 1)
              ∧ alarms did = ["❌ Web server not available" : str]
              ∧ app_runs did = [] ∧ threads_started did = [])
             ∨ (WEB_SERVER_AVAILABLE = true
                ∧ app_runs did = [(("0.0.0.0" : str), 8080)]
                ∧ threads_started did = ["http://127.0.0.1:8080" : str]
                ∧ match app_run h with
                  | ServerReturns => r = Ret None ∧ alarms did = []
                  | KeyboardInterrupt => r = Ret (Some 0) ∧ alarms did = []
                  | ServerRaises e =>
                      r = Ret (Some 1)
                      ∧ alarms did = [nl :: ("❌ Error running web server: " : str) ++ e]
                  | ServerExits => r = Exc (SystemExit 1) ∧ alarms did = []
                  end)))).
Proof.
  destruct (check_dependencies_run d) as (did1 & E1 & Hpip & Hc1 & Ha1 & Ht1).
  destruct (setup_directories_run d) as (r2 & did2 & d2 & E2 & Hcalm2 & Hr2).
  pose proof (only_calm_prints_alarms _ Hcalm2) as Hc2.
  pose proof (only_calm_prints_pip _ Hcalm2) as Hp2.
  pose proof (only_calm_prints_app_runs _ Hcalm2) as Ha2.
  pose proof (only_calm_prints_threads _ Hcalm2) as Ht2.
  destruct (initialize_models_run d2) as (did3 & E3 & Hcalm3).
  pose proof (only_calm_prints_alarms _ Hcalm3) as Hc3.
  pose proof (only_calm_prints_pip _ Hcalm3) as Hp3.
  pose proof (only_calm_prints_app_runs _ Hcalm3) as Ha3.
  pose proof (only_calm_prints_threads _ Hcalm3) as Ht3.
  unfold main. rewrite !prog_bind_print, (prog_bind_run _ _ _ _ _ _ E1).
  destruct (dependencies_ok h) eqn:Edeps;
    [change (negb true) with false|change (negb false) with true]; cbv iota.
  - destruct Hr2 as [->|[e ->]].
    + rewrite (prog_bind_run _ _ _ _ _ _ E2), (prog_bind_run _ _ _ _ _ _ E3).
      change (negb true) with false. cbv iota.
      destruct WEB_SERVER_AVAILABLE;
        [change (negb true) with false|change (negb false) with true]; cbv iota.
      * rewrite !prog_bind_print, !prog_bind_call.
        destruct (app_run h) as [| |e|] eqn:Eserved; rewrite ?prog_bind_print;
          (eexists _, _, _; split; [reflexivity|]);
          (split;
           [simpl; rewrite !pip_calls_app, Hpip, Hp2, Hp3; simpl; by rewrite app_nil_r|]);
          right; right; (split; [done|]); (split; [by eexists|]); right;
          (split; [done|]);
          (split; [simpl; by rewrite !app_runs_app, Ha1, Ha2, Ha3|]);
          (split; [simpl; by rewrite !threads_started_app, Ht1, Ht2, Ht3|]);
          (split; [done|]); simplify_alarms; by rewrite Hc1, Hc2, Hc3.
      * rewrite !prog_bind_print.
        eexists _, _, _. split; [reflexivity|].
        split; [simpl; rewrite !pip_calls_app, Hpip, Hp2, Hp3; simpl; by rewrite app_nil_r|].
        right; right. split; [done|]. split; [by eexists|]. left.
        split_and!; try done; simpl;
          rewrite ?app_runs_app, ?threads_started_app, ?Ha1, ?Ha2, ?Ha3, ?Ht1, ?Ht2, ?Ht3;
          try done.
        simplify_alarms. by rewrite Hc1, Hc2, Hc3.
    + rewrite (prog_bind_raise _ _ _ _ _ _ E2).
      eexists _, _, _. split; [reflexivity|].
      split; [simpl; rewrite !pip_calls_app, Hpip, Hp2; simpl; by rewrite app_nil_r|].
      right; left. split; [done|]. split; [by eexists _, _|].
      split_and!; simpl;
        rewrite ?app_runs_app, ?threads_started_app, ?Ha1, ?Ha2, ?Ht1, ?Ht2; try done.
      simplify_alarms. by rewrite Hc1, Hc2.
  - rewrite prog_bind_print.
    eexists _, _, _. split; [reflexivity|].
    split; [simpl; rewrite !pip_calls_app, Hpip; simpl; by rewrite app_nil_r|].
    left. split_and!; simpl;
      rewrite ?app_runs_app, ?threads_started_app, ?Ha1, ?Ht1; try done.
    simplify_alarms. by rewrite Hc1.
Qed.

Lemma import_gui_run_web_run (d : Disk) :
  ∃ did,
    import_gui_run_web h d
    = (if web_server_imports h
       then match app_folders h with
            | Some e => Exc (OSError_raised e)
            | None => Ret true
            end
       else Ret false,
       did, d)
    ∧ only_calm_prints did.
Proof.
  unfold import_gui_run_web, import_web_server, web_server_imports, import_module.
  destruct (import_error h "download_missing_booknlp_models") as [e1|];
    destruct (import_error h "flask") as [e2|];
    destruct (import_error h "werkzeug.utils") as [e3|];
    destruct (import_error h "headless_voxnovel") as [e4|];
    destruct (app_folders h) as [e5|];
    (eexists; split; [reflexivity|]);
    repeat (constructor; [by apply calm_print|]); constructor.
Qed.

(** The module body followed by [main], inside what the script puts around
    the call: [around] adds lines that report nothing. *)
Lemma launch_cases (around : Prog (option Z) → Prog (option Z)) (d : Disk) :
  (∀ p d r did d',
     p d = (r, did, d') →
     ∃ did0, around p d = (r, did0 ++ did, d') ∧ only_calm_prints did0) →
  ∃ r did d',
    prog_bind (import_gui_run_web h)
      (λ WEB_SERVER_AVAILABLE, around (main h WEB_SERVER_AVAILABLE)) d
    = (r, did, d')
    ∧ ((web_server_imports h = true
        ∧ ∃ e, app_folders h = Some e ∧ r = Exc (OSError_raised e) ∧ d' = d
               ∧ alarms did = [] ∧ pip_calls did = []
               ∧ app_runs did = [] ∧ threads_started did = [])
       ∨ ((web_server_imports h = true → app_folders h = None)
          ∧ pip_calls did = (if bool_decide (missing h = []) then [] else [missing h])
          ∧ ((dependencies_ok h = false ∧ r = Ret (Some 1) ∧ d' = d
              ∧ alarms did = ["❌ Failed to install dependencies" : str]
              ∧ app_runs did = [] ∧ threads_started did = [])
             ∨ (dependencies_ok h = true
                ∧ (∃ e did1, setup_directories d = (Exc (OSError_raised e), did1, d')
                             ∧ r = Exc (OSError_raised e))
                ∧ alarms did = [] ∧ app_runs did = [] ∧ threads_started did = [])
             ∨ (dependencies_ok h = true
                ∧ (∃ did1, setup_directories d = (Ret tt, did1, d'))
                ∧ ((web_server_imports h = false ∧ r = Ret (Some 1)
                    ∧ alarms did = ["❌ Web server not available" : str]
                    ∧ app_runs did = [] ∧ threads_started did = [])
                   ∨ (web_server_imports h = true
                      ∧ app_runs did = [(("0.0.0.0" : str), 8080)]
                      ∧ threads_started did = ["http://127.0.0.1:8080" : str]
                      ∧ match app_run h with
                        | ServerReturns => r = Ret None ∧ alarms did = []
                        | KeyboardInterrupt => r = Ret (Some 0) ∧ alarms did = []
                        | ServerRaises e =>
                            r = Ret (Some 1)
                            ∧ alarms did
                              = [nl :: ("❌ Error running web server: " : str) ++ e]
                        | ServerExits => r = Exc (SystemExit 1) ∧ alarms did = []
                        end)))))).
Proof.
  intros Haround.
  destruct (import_gui_run_web_run d) as (did0 & E0 & Hcalm0).
  pose proof (only_calm_prints_alarms _ Hcalm0) as Hc0.
  pose proof (only_calm_prints_pip _ Hcalm0) as Hp0.
  pose proof (only_calm_prints_app_runs _ Hcalm0) as Ha0.
  pose proof (only_calm_prints_threads _ Hcalm0) as Ht0.
  destruct (web_server_imports h) eqn:Eimp; [destruct (app_folders h) as [e|] eqn:Ef|].
  - rewrite (prog_bind_raise _ _ _ _ _ _ E0). eexists _, _, _. split; [reflexivity|].
    left. split; [done|]. by exists e.
  - destruct (main_cases true d) as (r & did & d' & Em & Hpip & Hcases).
    destruct (Haround _ _ _ _ _ Em) as (did1 & E1 & Hcalm1).
    rewrite (prog_bind_run _ _ _ _ _ _ E0), E1.
    eexists _, _, _. split; [reflexivity|]. right. split; [done|].
    rewrite !pip_calls_app, !alarms_app, !app_runs_app, !threads_started_app, Hc0, Hp0, Ha0, Ht0,
      (only_calm_prints_alarms _ Hcalm1), (only_calm_prints_pip _ Hcalm1),
      (only_calm_prints_app_runs _ Hcalm1), (only_calm_prints_threads _ Hcalm1).
    by split.
  - destruct (main_cases false d) as (r & did & d' & Em & Hpip & Hcases).
    destruct (Haround _ _ _ _ _ Em) as (did1 & E1 & Hcalm1).
    rewrite (prog_bind_run _ _ _ _ _ _ E0), E1.
    eexists _, _, _. split; [reflexivity|]. right. split; [done|].
    rewrite !pip_calls_app, !alarms_app, !app_runs_app, !threads_started_app, Hc0, Hp0, Ha0, Ht0,
      (only_calm_prints_alarms _ Hcalm1), (only_calm_prints_pip _ Hcalm1),
      (only_calm_prints_app_runs _ Hcalm1), (only_calm_prints_threads _ Hcalm1).
    by split.
Qed.

Lemma start_web_gui_cases (d : Disk) :
  ∃ status did d',
    start_web_gui h d = (status, did, d')
    ∧ ((∃ e, import_error h "gui_run_web" = Some e ∧ status = 1 ∧ d' = d
             ∧ alarms did = [("❌ Could not import web GUI: " : str) ++ e]
             ∧ pip_calls did = [] ∧ app_runs did = [] ∧ threads_started did = [])
       ∨ (import_error h "gui_run_web" = None
          ∧ ((web_server_imports h = true
              ∧ ∃ e, app_folders h = Some e ∧ status = 1 ∧ d' = d
                     ∧ alarms did = [("❌ Error starting web GUI: " : str) ++ describe h e]
                     ∧ pip_calls did = []
                     ∧ app_runs did = [] ∧ threads_started did = [])
             ∨ ((web_server_imports h = true → app_folders h = None)
                ∧ pip_calls did = (if bool_decide (missing h = []) then [] else [missing h])
                ∧ ((dependencies_ok h = false ∧ status = 1 ∧ d' = d
                    ∧ alarms did = ["❌ Failed to install dependencies" : str]
                    ∧ app_runs did = [] ∧ threads_started did = [])
                   ∨ (dependencies_ok h = true
                      ∧ (∃ e did1,
                           setup_directories d = (Exc (OSError_raised e), did1, d')
                           ∧ alarms did
                             = [("❌ Error starting web GUI: " : str) ++ describe h e])
                      ∧ status = 1 ∧ app_runs did = [] ∧ threads_started did = [])
                   ∨ (dependencies_ok h = true
                      ∧ (∃ did1, setup_directories d = (Ret tt, did1, d'))
                      ∧ ((web_server_imports h = false ∧ status = 1
                          ∧ alarms did = ["❌ Web server not available" : str]
                          ∧ app_runs did = [] ∧ threads_started did = [])
                         ∨ (web_server_imports h = true
                            ∧ app_runs did = [(("0.0.0.0" : str), 8080)]
                            ∧ threads_started did = ["http://127.0.0.1:8080" : str]
                            ∧ match app_run h with
                              | ServerReturns | KeyboardInterrupt =>
                                  status = 0 ∧ alarms did = []
                              | ServerRaises e =>
                                  status = 1
                                  ∧ alarms did
                                    = [nl :: ("❌ Error running web server: " : str) ++ e]
                              | ServerExits => status = 1 ∧ alarms did = []
                              end)))))))).
Proof.
  unfold start_web_gui, import_module.
  destruct (import_error h "gui_run_web") as [e|] eqn:Efound.
  { eexists _, _, _. split; [reflexivity|]. left. exists e. by split_and!. }
  destruct (launch_cases
              (λ p, prog_bind (print "🎭 VoxNovel Web GUI Launcher")
                      (λ _, prog_bind (print (replicate 40 "="%char)) (λ _, p))) d)
    as (r & did & d' & E & Hcases).
  { intros p d0 r did d' Ep. rewrite !prog_bind_print, Ep.
    eexists [_; _]. split; [reflexivity|].
    repeat (constructor; [by apply calm_print|]); constructor. }
  rewrite (prog_bind_run _ _ _ tt [] d) by done. cbv beta in E. rewrite E.
  change ([] ++ did) with did.
  destruct Hcases as [(Himp & e & Hf & -> & -> & Hal & Hp & Ha & Ht)|(Hfold & Hpip & Hc)].
  { eexists _, _, _. split; [reflexivity|]. right. split; [done|]. left. split; [done|].
    exists e. rewrite alarms_app, pip_calls_app, app_runs_app, threads_started_app,
      Hal, Hp, Ha, Ht. by split_and!. }
  destruct Hc as [(Hd & -> & -> & Hal & Ha & Ht)
                 |[(Hd & (e & did1 & Hs & ->) & Hal & Ha & Ht)
                  |(Hd & Hs & [(Hi & -> & Hal & Ha & Ht)|(Hi & Ha & Ht & Hserved)])]].
  - eexists _, _, _. split; [reflexivity|]. right. split; [done|]. right.
    split; [done|]. split; [done|]. left. by split_and!.
  - eexists _, _, _. split; [reflexivity|]. right. split; [done|]. right.
    split; [done|]. rewrite alarms_app, pip_calls_app, app_runs_app, threads_started_app,
      Hal, Ha, Ht, app_nil_r.
    split; [done|]. right; left. split; [done|]. split; [by eexists _, _|]. by split_and!.
  - eexists _, _, _. split; [reflexivity|]. right. split; [done|]. right.
    split; [done|]. split; [done|]. right; right. split; [done|]. split; [done|].
    left. by split_and!.
  - destruct (app_run h) as [| |e|]; destruct Hserved as [-> Hal];
      (eexists _, _, _; split; [reflexivity|]); right; (split; [done|]); right;
      (split; [done|]); (split; [done|]); right; right; (split; [done|]);
      (split; [done|]); right; by split_and!.
Qed.

End GuiRunWeb.

(** ** The launcher: the two scripts *)
Section Launchers.
Variable h : Host.

Lemma launch_around (around : Prog (option Z) → Prog (option Z)) (d : Disk) :
  (∀ p d r did d',
     p d = (r, did, d') →
     ∃ did0, around p d = (r, did0 ++ did, d') ∧ only_calm_prints did0) →
  ∃ r did did' d',
    prog_bind (import_gui_run_web h) (λ WEB_SERVER_AVAILABLE, main h WEB_SERVER_AVAILABLE) d
    = (r, did, d')
    ∧ prog_bind (import_gui_run_web h)
        (λ WEB_SERVER_AVAILABLE, around (main h WEB_SERVER_AVAILABLE)) d
      = (r, did', d')
    ∧ pip_calls did' = pip_calls did
    ∧ app_runs did' = app_runs did
    ∧ threads_started did' = threads_started did.
Proof.
  intros Haround.
  destruct (import_gui_run_web_run h d) as (did0 & E0 & Hcalm0).
  destruct (if web_server_imports h
            then match app_folders h with
                 | Some e => Exc (OSError_raised e)
                 | None => Ret true
                 end
            else Ret false) as [avail|e].
  - destruct (main h avail d) as [[r did] d'] eqn:Em.
    destruct (Haround _ _ _ _ _ Em) as (did1 & E1 & Hcalm1).
    rewrite !(prog_bind_run _ _ _ _ _ _ E0), Em, E1.
    eexists _, _, _, _. split; [reflexivity|]. split; [reflexivity|].
    rewrite !pip_calls_app, !app_runs_app, !threads_started_app,
      (only_calm_prints_pip _ Hcalm1), (only_calm_prints_app_runs _ Hcalm1),
      (only_calm_prints_threads _ Hcalm1).
    done.
  - rewrite !(prog_bind_raise _ _ _ _ _ _ E0). by eexists _, _, _, _.
Qed.

End Launchers.

(** X19: [check_dependencies] answers [True] exactly when flask and werkzeug
    import or pip installs those of the two that do not; it runs pip at most
    once, for exactly the packages that did not import, in the order flask,
    werkzeug, and never when both import. *)
Theorem check_dependencies_installs_missing (h : Host) (d : Disk) :
  (check_dependencies h d).1.1
  = Ret (bool_decide (missing h = []) || pip_install h (missing h))
  ∧ pip_calls (check_dependencies h d).1.2
    = (if bool_decide (missing h = []) then [] else [missing h]).
Proof.
  destruct (check_dependencies_run h d) as (did & E & Hpip & _). by rewrite E.
Qed.

(** X20: on a disk where none of the ten paths that [setup_directories]
    needs is a regular file, it returns, and afterwards each of the ten is a
    directory while every other path is as before.  The ten are the nine of
    the list and [web_interface]. *)
Theorem setup_directories_creates (d : Disk) :
  ¬ blocked d →
  ∃ did d',
    setup_directories d = (Ret tt, did, d')
    ∧ ∀ p, d' !! p
           = if bool_decide (p ∈ needed_directories) then Some Directory else d !! p.
Proof.
  intros Hnb. eexists _, _. split.
  - apply setup_directories_success. by apply not_blocked_free.
  - apply lookup_with_directories.
Qed.

(** X21: on a disk with nothing below a regular file, [setup_directories]
    raises exactly when one of the ten paths is a regular file. *)
Theorem setup_directories_fails_iff (d : Disk) :
  well_formed d →
  (∃ e did d', setup_directories d = (Exc e, did, d')) ↔ blocked d.
Proof.
  intros Hwf. split.
  - intros (e & did & d' & E). by eapply setup_directories_raises_blocked.
  - intros Hb. destruct (setup_directories_blocked d Hwf Hb) as (e & did & d' & E & _).
    by eexists _, _, _.
Qed.

(** X22: [setup_directories] is idempotent: run again on the disk it left, it
    returns, prints the same nine lines and changes nothing. *)
Theorem setup_directories_idempotent (d : Disk) :
  ¬ blocked d →
  setup_directories (setup_directories d).2
  = (Ret tt, ready_lines, (setup_directories d).2).
Proof.
  intros Hnb. rewrite (setup_directories_success d) by by apply not_blocked_free.
  simpl. rewrite setup_directories_success.
  - f_equal. apply map_eq. intros p. rewrite !lookup_with_directories.
    by case_bool_decide.
  - intros p Hp. unfold is_file. rewrite lookup_with_directories.
    by rewrite bool_decide_true.
Qed.

(** X23: [setup_directories] only adds: whether it returns or raises, every
    file and directory that was on the disk is still there, unchanged. *)
Theorem setup_directories_keeps (d : Disk) : d ⊆ (setup_directories d).2.
Proof. apply make_directories_keeps. Qed.

(** X24: [initialize_models] never answers [False], so [main] never prints
    that the models failed to initialize: the [return 1] of line 139 is
    never reached. *)
Theorem main_never_blames_models (h : Host) (WEB_SERVER_AVAILABLE : bool) (d : Disk) :
  Printed "❌ Failed to initialize models" ∉ (main h WEB_SERVER_AVAILABLE d).1.2.
Proof.
  intros Hin.
  destruct (main_cases h WEB_SERVER_AVAILABLE d) as (r & did & d' & E & _ & Hcases).
  rewrite E in Hin. simpl in Hin.
  assert (("❌ Failed to initialize models" : str) ∈ alarms did) as Hal.
  { unfold alarms. apply list_elem_of_filter. split; [done|].
    apply list_elem_of_omap. by eexists. }
  destruct Hcases as [(_ & _ & _ & Ha & _)
                     |[(_ & _ & Ha & _)
                      |(_ & _ & [(_ & _ & Ha & _)|(_ & _ & _ & Hserved)])]].
  - rewrite Ha in Hal. by apply list_elem_of_singleton in Hal.
  - rewrite Ha in Hal. by apply elem_of_nil in Hal.
  - rewrite Ha in Hal. by apply list_elem_of_singleton in Hal.
  - destruct (app_run h); destruct Hserved as [_ Ha]; rewrite Ha in Hal;
      first [by apply elem_of_nil in Hal|by apply list_elem_of_singleton in Hal].
Qed.

(** X25: on a disk with nothing below a regular file, start_web_gui.py ends
    with exit status 0 or 1, and with 0 exactly when [gui_run_web] and the web
    server module import, the dependencies are there or were installed, none
    of the ten directories is blocked by a regular file, and [app.run]
    returns or is interrupted from the keyboard. *)
Theorem start_web_gui_exit_status (h : Host) (d : Disk) :
  well_formed d →
  let status := (start_web_gui h d).1.1 in
  (status = 0 ∨ status = 1)
  ∧ (status = 0 ↔
     import_error h "gui_run_web" = None ∧ server_ready h d ∧ serves_cleanly h = true).
Proof.
  intros Hwf. unfold server_ready, serves_cleanly.
  destruct (start_web_gui_cases h d) as (status & did & d' & E & Hcases).
  rewrite E. cbn [fst snd]. cbv zeta.
  destruct Hcases as [(e & Hf & -> & _)|(Hf & Hcases)].
  { split; [by right|]. split; [done|]. intros (? & _). congruence. }
  destruct Hcases as [(Hi & e & Hfo & -> & _)|(Hfold & _ & Hcases)].
  { split; [by right|]. split; [done|]. intros (_ & (_ & ? & _) & _). congruence. }
  destruct Hcases as [(Hd & -> & _)
                     |[(Hd & (e & did1 & Hs & _) & -> & _)
                      |(Hd & (did1 & Hs) & [(Hi & -> & _)|(Hi & _ & _ & Hserved)])]].
  - split; [by right|]. split; [done|]. intros (_ & (_ & _ & ? & _) & _). congruence.
  - split; [by right|]. split; [done|]. intros (_ & (_ & _ & _ & Hnb) & _).
    destruct Hnb. by eapply setup_directories_raises_blocked.
  - split; [by right|]. split; [done|]. intros (_ & (? & _) & _). congruence.
  - pose proof (setup_directories_returns_free d _ _ Hwf Hs) as Hnb.
    destruct (app_run h) as [| |e|]; destruct Hserved as [-> _].
    + split; [by left|]. split; [|done]. intros _. split_and!; auto.
    + split; [by left|]. split; [|done]. intros _. split_and!; auto.
    + split; [by right|]. split; [done|]. by intros (_ & _ & ?).
    + split; [by right|]. split; [done|]. by intros (_ & _ & ?).
Qed.

(** X26: start_web_gui.py reports every failure of its own, and only
    failures: with exit status 0 none of the lines it prints starts with the
    cross mark, with exit status 1 exactly one does, but for one case: where
    [app.run] was called and ended the interpreter itself, the address being
    taken, the exit status is 1 and no line of the launcher starts with the
    cross mark. *)
Theorem start_web_gui_reports_failure (h : Host) (d : Disk) :
  let '(status, did, _) := start_web_gui h d in
  (status = 0 ∧ alarms did = [])
  ∨ (status = 1 ∧ (∃ line, alarms did = [line]) ∧ (app_runs did = [] ∨ app_run h ≠ ServerExits))
  ∨ (status = 1 ∧ alarms did = []
     ∧ app_runs did = [(("0.0.0.0" : str), 8080)] ∧ app_run h = ServerExits).
Proof.
  destruct (start_web_gui_cases h d) as (status & did & d' & E & Hcases).
  rewrite E.
  destruct Hcases as [(e & Hf & -> & _ & Ha & _ & Hr & _)|(Hf & Hcases)];
    [right; left; by eauto|].
  destruct Hcases as [(Hi & e & Hfo & -> & _ & Ha & _ & Hr & _)|(Hfold & _ & Hcases)];
    [right; left; by eauto|].
  destruct Hcases as [(Hd & -> & _ & Ha & Hr & _)
                     |[(Hd & (e & did1 & Hs & Ha) & -> & Hr & _)
                      |(Hd & (did1 & Hs) & [(Hi & -> & Ha & Hr & _)|(Hi & Hr & _ & Hserved)])]];
    try (right; left; by eauto).
  destruct (app_run h) as [| |e|]; destruct Hserved as [-> Ha].
  - by left.
  - by left.
  - right; left. split_and!; [done|by eauto|by right].
  - right; right. by split_and!.
Qed.

(** X27: on a disk with nothing below a regular file, start_web_gui.py calls
    [app.run] at most once, on 0.0.0.0:8080, and exactly when the modules
    import, the dependencies are there and no directory is blocked; it has
    then started one browser thread for http://127.0.0.1:8080, and each of
    the ten directories exists. *)
Theorem server_started_when_ready (h : Host) (d : Disk) :
  well_formed d →
  let '(_, did, d') := start_web_gui h d in
  (app_runs did = [(("0.0.0.0" : str), 8080)]
   ∧ threads_started did = ["http://127.0.0.1:8080" : str]
   ∧ (∀ p, p ∈ needed_directories → d' !! p = Some Directory)
   ∧ import_error h "gui_run_web" = None ∧ server_ready h d)
  ∨ (app_runs did = [] ∧ threads_started did = []
     ∧ ¬ (import_error h "gui_run_web" = None ∧ server_ready h d)).
Proof.
  intros Hwf. unfold server_ready.
  destruct (start_web_gui_cases h d) as (status & did & d' & E & Hcases).
  rewrite E.
  destruct Hcases as [(e & Hf & _ & _ & _ & _ & Ha & Ht)|(Hf & Hcases)].
  { right. split_and!; [done|done|]. intros (? & _). congruence. }
  destruct Hcases as [(Hi & e & Hfo & _ & _ & _ & _ & Ha & Ht)|(Hfold & _ & Hcases)].
  { right. split_and!; [done|done|]. intros (_ & _ & ? & _). congruence. }
  destruct Hcases as [(Hd & _ & _ & _ & Ha & Ht)
                     |[(Hd & (e & did1 & Hs & _) & _ & Ha & Ht)
                      |(Hd & (did1 & Hs)
                        & [(Hi & _ & _ & Ha & Ht)|(Hi & Ha & Ht & _)])]].
  - right. split_and!; [done|done|]. intros (_ & _ & _ & ? & _). congruence.
  - right. split_and!; [done|done|]. intros (_ & _ & _ & _ & Hnb).
    destruct Hnb. by eapply setup_directories_raises_blocked.
  - right. split_and!; [done|done|]. intros (_ & ? & _). congruence.
  - left. pose proof (setup_directories_returns_free d _ _ Hwf Hs) as Hnb.
    split_and!; auto.
    intros p Hp. rewrite (setup_directories_success d) in Hs by by apply not_blocked_free.
    injection Hs as _ <-. rewrite lookup_with_directories. by rewrite bool_decide_true.
Qed.

(** X28: where flask does not import when the launcher starts, start_web_gui.py
    ends with exit status 1 and never calls [app.run], whatever pip answers:
    the web server module was imported before pip ran, and is not imported
    again. *)
Theorem missing_flask_never_serves (h : Host) (d : Disk) :
  import_error h "flask" ≠ None →
  let '(status, did, _) := start_web_gui h d in
  status = 1 ∧ app_runs did = []
  ∧ (import_error h "gui_run_web" = None → pip_calls did = [missing h]).
Proof.
  intros Hflask.
  assert (web_server_imports h = false) as Hwsi.
  { unfold web_server_imports. apply bool_decide_false. by intros [? _]. }
  assert (missing h ≠ []) as Hmissing.
  { unfold missing, required_packages. by rewrite filter_cons_True. }
  destruct (start_web_gui_cases h d) as (status & did & d' & E & Hcases).
  rewrite E.
  destruct Hcases as [(e & Hf & -> & _ & _ & _ & Ha & _)|(Hf & Hcases)].
  { split_and!; [done|done|]. intros ?. congruence. }
  destruct Hcases as [(Hi & _)|(_ & Hpip & Hcases)]; [congruence|].
  rewrite bool_decide_false in Hpip by done.
  destruct Hcases as [(Hd & -> & _ & _ & Ha & _)
                     |[(Hd & _ & -> & Ha & _)
                      |(Hd & _ & [(Hi & -> & _ & Ha & _)|(Hi & _)])]];
    [done|done|done|congruence].
Qed.

(** X29: when [gui_run_web] imports, the two scripts agree: gui_run_web.py
    run directly and start_web_gui.py end with the same exit status, leave
    the same disk, run pip the same way and call [app.run] the same way. *)
Theorem launchers_agree (h : Host) (d : Disk) :
  import_error h "gui_run_web" = None →
  (gui_run_web h d).1.1 = (start_web_gui h d).1.1
  ∧ (gui_run_web h d).2 = (start_web_gui h d).2
  ∧ pip_calls (gui_run_web h d).1.2 = pip_calls (start_web_gui h d).1.2
  ∧ app_runs (gui_run_web h d).1.2 = app_runs (start_web_gui h d).1.2.
Proof.
  intros Hfound. unfold gui_run_web, start_web_gui, import_module. rewrite Hfound.
  destruct (launch_around h
              (λ p, prog_bind (print "🎭 VoxNovel Web GUI Launcher")
                      (λ _, prog_bind (print (replicate 40 "="%char)) (λ _, p))) d)
    as (r & did & did' & d' & E & E' & Hp & Ha & _).
  { intros p d0 r did d' Ep. rewrite !prog_bind_print, Ep.
    eexists [_; _]. split; [reflexivity|].
    repeat (constructor; [by apply calm_print|]); constructor. }
  rewrite (prog_bind_run _ _ _ tt [] d) by done. cbv beta in E'. rewrite E, E'.
  change ([] ++ did') with did'.
  destruct r as [code|[e|e|code]]; simpl; rewrite ?pip_calls_app, ?app_runs_app, ?Hp, ?Ha;
    simpl; by rewrite ?app_nil_r.
Qed.

(** ** Witnesses of the further properties *)

Lemma download_file_spec_witness :
  let w := sys_run (rt := ascii_runtime true) initial_world first_job_done in
  download_file book_audiobook (shared w) = Attachment book_audiobook dummy_audiobook.
Proof.
  intros w.
  rewrite (download_file_spec book_audiobook (shared w)).
  - reflexivity.
  - discriminate.
  - apply (bool_decide_unpack _). vm_compute. exact I.
Defined.

Lemma listed_job_downloads_witness :
  let w := sys_run (rt := ascii_runtime true) initial_world first_job_done in
  ∃ content,
    download_file book_audiobook (shared w) = Attachment book_audiobook content
    ∧ 42 = Z.of_nat (length content).
Proof.
  intros w.
  apply (listed_job_downloads stamp (shared w)
           {| job_filename := book_audiobook; job_size := 42;
              job_created := stamp (OUTPUT_FOLDER ++ "/" ++ book_audiobook) |}).
  vm_compute. constructor.
Defined.

Lemma reachable_files_confined_witness :
  inside UPLOAD_FOLDER book_path ∨ inside OUTPUT_FOLDER book_path.
Proof.
  apply (reachable_files_confined (rt := ascii_runtime true)
           (sys_run (rt := ascii_runtime true) initial_world first_job_done)
           book_path "first upload").
  - exists first_job_done. reflexivity.
  - vm_compute. reflexivity.
Defined.

Lemma files_are_never_deleted_witness :
  let w := sys_step (rt := ascii_runtime true) initial_world (Upload req_book) in
  is_Some (files (shared (sys_run (rt := ascii_runtime true) w (steps 0 57))) !! book_path).
Proof.
  intros w.
  apply (files_are_never_deleted (rt := ascii_runtime true) w (steps 0 57) book_path).
  exists ("first upload" : str). vm_compute. reflexivity.
Defined.

Lemma upload_keeps_outputs_witness :
  let w := sys_run (rt := ascii_runtime true) initial_world first_job_done in
  files (shared (sys_step (rt := ascii_runtime true) w (Upload req_novel)))
    !! (OUTPUT_FOLDER ++ "/" ++ book_audiobook)
  = files (shared w) !! (OUTPUT_FOLDER ++ "/" ++ book_audiobook).
Proof.
  intros w.
  apply (upload_keeps_outputs (rt := ascii_runtime true) w req_novel).
  exists book_audiobook. split; [reflexivity|].
  split_and!; try discriminate.
  apply (bool_decide_unpack _). vm_compute. exact I.
Defined.

Lemma worker_keeps_uploads_witness :
  let w := sys_step (rt := ascii_runtime true) initial_world (Upload req_book) in
  files (shared (sys_step (rt := ascii_runtime true) w (Run 0 quiet))) !! book_path
  = files (shared w) !! book_path.
Proof.
  intros w.
  apply (worker_keeps_uploads (rt := ascii_runtime true) w 0 quiet book_path).
  exists ("book.epub" : str). split; [reflexivity|].
  split_and!; try discriminate.
  apply (bool_decide_unpack _). vm_compute. exact I.
Defined.

Lemma reachable_progress_percentage_witness :
  let w := sys_run (rt := ascii_runtime true) initial_world first_job_done in
  0 ≤ progress (job_status (shared w)) ≤ 100.
Proof.
  intros w. apply (reachable_progress_percentage (rt := ascii_runtime true) w).
  exists first_job_done. reflexivity.
Defined.

Lemma idle_is_never_reentered_witness :
  status (job_status (shared (initial_world))) = idle.
Proof.
  apply (idle_is_never_reentered (rt := ascii_runtime true) initial_world [Upload req_book]).
  reflexivity.
Defined.

Lemma token_names_saved_upload_witness :
  let w := sys_run (rt := ascii_runtime true) initial_world [Upload req_book; Run 0 quiet] in
  inside UPLOAD_FOLDER book_path ∧ is_Some (files (shared w) !! book_path).
Proof.
  intros w. apply (token_names_saved_upload (rt := ascii_runtime true) w book_path).
  - exists [Upload req_book; Run 0 quiet]. reflexivity.
  - reflexivity.
Defined.

Lemma reported_output_downloads_witness :
  let w := sys_run (rt := ascii_runtime true) initial_world first_job_done in
  ∃ content, download_file book_audiobook (shared w) = Attachment book_audiobook content.
Proof.
  intros w. apply (reported_output_downloads (rt := ascii_runtime true) w book_audiobook).
  - exists first_job_done. reflexivity.
  - vm_compute. reflexivity.
Defined.

Lemma upload_then_run_completes_witness :
  let file := {| filename := "book.epub"; stream := "first upload" |} in
  let tid := length (threads initial_world) in
  let w' := sys_run (rt := ascii_runtime true)
              (sys_step (rt := ascii_runtime true) initial_world (Upload req_book))
              (Run tid <$> replicate 57 quiet) in
  let upload := secure_filename (rt := ascii_runtime true) (filename file) in
  let name := (Py.os_path_splitext upload).1 ++ "_audiobook.m4b" in
  status (job_status (shared w')) = completed
  ∧ progress (job_status (shared w')) = 100
  ∧ output_file (job_status (shared w')) = Some name
  ∧ current_job (shared w') = None
  ∧ files (shared w') !! (UPLOAD_FOLDER ++ "/" ++ upload) = Some (stream file)
  ∧ download_file name (shared w') = Attachment name dummy_audiobook
  ∧ ∃ j, j ∈ list_jobs stamp (shared w')
         ∧ job_filename j = name
         ∧ job_size j = Z.of_nat (length dummy_audiobook).
Proof.
  intros file.
  apply (upload_then_run_completes (rt := ascii_runtime true) stamp initial_world req_book
           file (replicate 57 quiet)).
  - reflexivity.
  - reflexivity.
  - split_and!; [reflexivity|reflexivity|eexists; reflexivity].
  - apply Forall_replicate. reflexivity.
  - vm_compute. lia.
Defined.

Lemma single_job_slot_witness :
  let w := sys_run (rt := ascii_runtime true) initial_world [Upload req_book; Run 0 quiet] in
  ∃ tid wk, threads w !! tid = Some wk ∧ filepath wk = book_path ∧ in_try (pc wk).
Proof.
  intros w.
  destruct (single_job_slot (rt := ascii_runtime true) [Upload req_book; Run 0 quiet])
    as [_ Htoken].
  - vm_compute. repeat split. constructor.
  - apply (Htoken book_path). reflexivity.
Defined.

Lemma well_timed_record_consistent_witness :
  consistent
    (job_status (shared (sys_run (rt := ascii_runtime true) initial_world first_job_done))).
Proof.
  apply (well_timed_record_consistent (rt := ascii_runtime true) first_job_done).
  vm_compute. repeat split. constructor.
Defined.

Lemma setup_directories_creates_witness :
  ∃ did d',
    setup_directories ∅ = (Ret tt, did, d')
    ∧ ∀ p, d' !! p
           = if bool_decide (p ∈ needed_directories) then Some Directory
             else (∅ : Disk) !! p.
Proof.
  apply (setup_directories_creates ∅).
  unfold blocked. apply (bool_decide_unpack _). vm_compute. exact I.
Defined.

Lemma setup_directories_fails_iff_witness :
  (∃ e did d', setup_directories blocked_disk = (Exc e, did, d')) ↔ blocked blocked_disk.
Proof.
  apply (setup_directories_fails_iff blocked_disk).
  unfold well_formed. apply (bool_decide_unpack _). vm_compute. exact I.
Defined.

Lemma setup_directories_idempotent_witness :
  setup_directories (setup_directories ∅).2
  = (Ret tt, ready_lines, (setup_directories ∅).2).
Proof.
  apply (setup_directories_idempotent ∅).
  unfold blocked. apply (bool_decide_unpack _). vm_compute. exact I.
Defined.

Lemma start_web_gui_exit_status_witness :
  let status := (start_web_gui complete_host ∅).1.1 in
  (status = 0 ∨ status = 1)
  ∧ (status = 0 ↔
     import_error complete_host "gui_run_web" = None
     ∧ server_ready complete_host ∅ ∧ serves_cleanly complete_host = true).
Proof.
  apply (start_web_gui_exit_status complete_host ∅).
  unfold well_formed. apply map_Forall_empty.
Defined.

Lemma server_started_when_ready_witness :
  let '(_, did, d') := start_web_gui complete_host blocked_disk in
  (app_runs did = [(("0.0.0.0" : str), 8080)]
   ∧ threads_started did = ["http://127.0.0.1:8080" : str]
   ∧ (∀ p, p ∈ needed_directories → d' !! p = Some Directory)
   ∧ import_error complete_host "gui_run_web" = None
   ∧ server_ready complete_host blocked_disk)
  ∨ (app_runs did = [] ∧ threads_started did = []
     ∧ ¬ (import_error complete_host "gui_run_web" = None
          ∧ server_ready complete_host blocked_disk)).
Proof.
  apply (server_started_when_ready complete_host blocked_disk).
  unfold well_formed. apply (bool_decide_unpack _). vm_compute. exact I.
Defined.

Lemma missing_flask_never_serves_witness :
  let '(status, did, _) := start_web_gui fresh_host ∅ in
  status = 1 ∧ app_runs did = []
  ∧ (import_error fresh_host "gui_run_web" = None → pip_calls did = [missing fresh_host]).
Proof.
  apply (missing_flask_never_serves fresh_host ∅).
  vm_compute. discriminate.
Defined.

Lemma launchers_agree_witness :
  (gui_run_web complete_host blocked_disk).1.1 = (start_web_gui complete_host blocked_disk).1.1
  ∧ (gui_run_web complete_host blocked_disk).2 = (start_web_gui complete_host blocked_disk).2
  ∧ pip_calls (gui_run_web complete_host blocked_disk).1.2
    = pip_calls (start_web_gui complete_host blocked_disk).1.2
  ∧ app_runs (gui_run_web complete_host blocked_disk).1.2
    = app_runs (start_web_gui complete_host blocked_disk).1.2.
Proof.
  apply (launchers_agree complete_host blocked_disk). reflexivity.
Defined.
